(** * AI key manager: the credential validation engine

    A shallow embedding of [modules/validators.py], [modules/utils.py]
    ([format_key_for_display]) and the store-facing operations of
    [modules/key_manager.py], with the properties of the engine's
    specification stated and settled against it.

    Conventions of the embedding.
    - A Python [str] is a [string]; one [ascii] stands for one character.
      [str.lower] is modelled on the ASCII letters.
    - A Python [dict] whose order of insertion is observable is an
      association list with pairwise distinct keys ([dict_get], [dict_set]);
      the platform keyring is a finite map.
    - Code that raises or catches is written in the monad [M]: a state
      transformer over [world] whose results are [Ok v] or [Raise e]. *)

From stdpp Require Import gmap strings list pretty.
From Stdlib Require Import Ascii String ZArith Lia.

Set Warnings "-register-all".
Open Scope string_scope.

(** ** Strings as the source uses them *)

Module Str.

Definition is_upper (c : ascii) : bool :=
  let n := N_of_ascii c in (65 <=? n)%N && (n <=? 90)%N.

Definition is_lower (c : ascii) : bool :=
  let n := N_of_ascii c in (97 <=? n)%N && (n <=? 122)%N.

Definition is_digit (c : ascii) : bool :=
  let n := N_of_ascii c in (48 <=? n)%N && (n <=? 57)%N.

(** The class [[A-Za-z0-9]]. *)
Definition is_alnum (c : ascii) : bool :=
  is_upper c || is_lower c || is_digit c.

Definition lower_char (c : ascii) : ascii :=
  if is_upper c then ascii_of_N (N_of_ascii c + 32) else c.

(** [s.lower()] *)
Fixpoint lower (s : string) : string :=
  match s with
  | EmptyString => EmptyString
  | String c t => String (lower_char c) (lower t)
  end.

(** [s.startswith(p)] *)
Definition startswith (s p : string) : bool := String.prefix p s.

(** [needle in hay] *)
Fixpoint contains (needle hay : string) : bool :=
  String.prefix needle hay
  || match hay with
     | EmptyString => false
     | String _ t => contains needle t
     end.

(** [s[:n]] for [0 <= n] *)
Fixpoint take (n : nat) (s : string) : string :=
  match n, s with
  | S n', String c t => String c (take n' t)
  | _, _ => EmptyString
  end.

Fixpoint drop (n : nat) (s : string) : string :=
  match n, s with
  | S n', String _ t => drop n' t
  | _, _ => s
  end.

(** [s[-n:]] for [0 < n]: the whole string when it is shorter than [n]. *)
Definition last (n : nat) (s : string) : string :=
  drop (String.length s - n) s.

Fixpoint all (p : ascii -> bool) (s : string) : bool :=
  match s with
  | EmptyString => true
  | String c t => p c && all p t
  end.

Definition newline : ascii := ascii_of_N 10.

(** The part of [s] before one final line feed, if there is one. *)
Fixpoint chomp (s : string) : string :=
  match s with
  | EmptyString => EmptyString
  | String c t =>
      match t with
      | EmptyString =>
          if Ascii.eqb c newline then EmptyString else String c EmptyString
      | _ => String c (chomp t)
      end
  end.

Fixpoint strip_prefix (p s : string) : option string :=
  match p, s with
  | EmptyString, _ => Some s
  | String a p', String b s' =>
      if Ascii.eqb a b then strip_prefix p' s' else None
  | String _ _, EmptyString => None
  end.

End Str.

(** ** Regular expressions of the shape [^prefix[class]{lo,hi}$]

    Every pattern of [validators.py] is a literal prefix followed by a
    bounded or unbounded run over one character class, anchored at both
    ends.  [re.match] anchors at the start; Python's [$] matches at the end
    of the string and also just before a line feed that ends the string.
    No class of the source contains the line feed, so the run is the rest
    of the key with one final line feed removed. *)

Definition re_match_shape (prefix : string) (cls : ascii -> bool)
    (lo : nat) (hi : option nat) (key : string) : bool :=
  match Str.strip_prefix prefix key with
  | None => false
  | Some rest =>
      let run := Str.chomp rest in
      Str.all cls run
      && (lo <=? String.length run)%nat
      && match hi with
         | Some h => (String.length run <=? h)%nat
         | None => true
         end
  end.

(** [[A-Za-z0-9\-_]] *)
Definition cls_alnum_dash_us (c : ascii) : bool :=
  Str.is_alnum c || Ascii.eqb c "-" || Ascii.eqb c "_".

(** [[A-Za-z0-9\-_.]] *)
Definition cls_alnum_dash_us_dot (c : ascii) : bool :=
  cls_alnum_dash_us c || Ascii.eqb c ".".

(** ** Python dictionaries with string keys *)

Section Dict.
Context {V : Type}.

(** [d.get(k)] *)
Fixpoint dict_get (k : string) (d : list (string * V)) : option V :=
  match d with
  | [] => None
  | (k', v) :: d' => if String.eqb k k' then Some v else dict_get k d'
  end.

(** [d[k] = v]: an existing key keeps its place, a new one goes last. *)
Fixpoint dict_set (k : string) (v : V) (d : list (string * V))
    : list (string * V) :=
  match d with
  | [] => [(k, v)]
  | (k', v') :: d' =>
      if String.eqb k k' then (k, v) :: d' else (k', v') :: dict_set k v d'
  end.
End Dict.

(** ** JSON values

    What [json.loads] returns and [json.dumps] accepts, restricted to
    integer numbers.  A [JDict] lists the items of the dictionary in
    insertion order. *)

Inductive json : Type :=
  | JNull
  | JBool (b : bool)
  | JInt (n : Z)
  | JStr (s : string)
  | JList (l : list json)
  | JDict (items : list (string * json)).

(** [type(v).__name__] *)
Definition type_name (v : json) : string :=
  match v with
  | JNull => "NoneType"
  | JBool _ => "bool"
  | JInt _ => "int"
  | JStr _ => "str"
  | JList _ => "list"
  | JDict _ => "dict"
  end.

(** ** Configuration

    The configuration is a nested dictionary that the code only reads,
    always through [.get(key, default)]; a field below holds what that read
    returns.  [providers] is [config.get("providers", {})], each provider
    being a dictionary of strings.  [timeout], [retry_attempts] and
    [retry_delay] are the integers of the [validation] section, read
    unchecked: any of them can be negative. *)

Record Config : Type := {
  providers : list (string * list (string * string));
  timeout : Z;
  retry_attempts : Z;
  retry_delay : Z;
  require_validation : bool;
  service_name : string
}.

(** [DEFAULT_CONFIG] of [config.py]. *)
Definition DEFAULT_CONFIG : Config := {|
  providers :=
    [ ("openai",
        [ ("name", "OpenAI"); ("key_prefix", "sk-");
          ("api_url", "https://api.openai.com/v1/models");
          ("validation_model", "gpt-3.5-turbo") ]);
      ("anthropic",
        [ ("name", "Anthropic"); ("key_prefix", "sk-ant-");
          ("api_url", "https://api.anthropic.com/v1/messages");
          ("validation_model", "claude-3-sonnet-20240229") ]);
      ("gemini",
        [ ("name", "Google Gemini"); ("key_prefix", "AIza");
          ("api_url", "https://generativelanguage.googleapis.com/v1/models");
          ("validation_model", "gemini-pro") ]);
      ("perplexity",
        [ ("name", "Perplexity AI"); ("key_prefix", "pplx-");
          ("api_url", "https://api.perplexity.ai/chat/completions");
          ("validation_model", "llama-3.1-sonar-small-128k-online") ]);
      ("groq",
        [ ("name", "Groq"); ("key_prefix", "gsk_");
          ("api_url", "https://api.groq.com/openai/v1/models");
          ("validation_model", "llama3-8b-8192") ]) ];
  timeout := 30;
  retry_attempts := 3;
  retry_delay := 1;
  require_validation := true;
  service_name := "ai-key-manager"
|}.

(** [config.get("providers", {}).get(provider.lower())], with the test
    [if not provider_config] folded in: an absent provider and a provider
    whose dictionary is empty are both falsy. *)
Definition provider_config (cfg : Config) (provider : string)
    : option (list (string * string)) :=
  match dict_get (Str.lower provider) (providers cfg) with
  | Some ((_ :: _) as pc) => Some pc
  | _ => None
  end.

(** ** Format validation ([validators.py], lines 12-104) *)

Definition _validate_openai_format (key : string) : bool * string :=
  if re_match_shape "sk-" Str.is_alnum 48 (Some 51) key
  then (true, "Valid format")
  else (false,
        "Invalid OpenAI key format (should be sk-[48-51 alphanumeric chars])").

Definition _validate_anthropic_format (key : string) : bool * string :=
  if re_match_shape "sk-ant-" cls_alnum_dash_us 50 None key
  then (true, "Valid format")
  else (false, "Invalid Anthropic key format (should be sk-ant-[50+ chars])").

Definition _validate_gemini_format (key : string) : bool * string :=
  if re_match_shape "AIza" cls_alnum_dash_us 35 (Some 39) key
  then (true, "Valid format")
  else (false, "Invalid Gemini key format (should be AIza[35-39 chars])").

Definition _validate_perplexity_format (key : string) : bool * string :=
  if re_match_shape "pplx-" Str.is_alnum 32 None key
  then (true, "Valid format")
  else (false,
        "Invalid Perplexity key format "
        ++ "(should be pplx-[32+ alphanumeric chars])").

Definition _validate_groq_format (key : string) : bool * string :=
  if re_match_shape "gsk_" Str.is_alnum 50 None key
  then (true, "Valid format")
  else (false,
        "Invalid Groq key format (should be gsk_[50+ alphanumeric chars])").

Definition _validate_generic_format (key prefix : string) : bool * string :=
  if (String.length key <? 20)%nat
  then (false, "Key appears too short (minimum 20 characters)")
  else if (200 <? String.length key)%nat
  then (false, "Key appears too long (maximum 200 characters)")
  else if negb (re_match_shape "" cls_alnum_dash_us_dot 1 None key)
  then (false, "Key contains invalid characters")
  else (true, "Valid format").

(** The chain of [if provider.lower() == ...] that ends
    [validate_key_format]. *)
Definition format_rule (provider key key_prefix : string) : bool * string :=
  let p := Str.lower provider in
  if String.eqb p "openai" then _validate_openai_format key
  else if String.eqb p "anthropic" then _validate_anthropic_format key
  else if String.eqb p "gemini" then _validate_gemini_format key
  else if String.eqb p "perplexity" then _validate_perplexity_format key
  else if String.eqb p "groq" then _validate_groq_format key
  else _validate_generic_format key key_prefix.

Definition validate_key_format (provider key : string) (cfg : Config)
    : bool * string :=
  match provider_config cfg provider with
  | None => (false, "Unknown provider: " ++ provider)
  | Some pc =>
      let key_prefix := default "" (dict_get "key_prefix" pc) in
      if String.eqb key ""
      then (false, "Key is empty")
      else if negb (String.eqb key_prefix "")
              && negb (Str.startswith key key_prefix)
      then (false, "Key must start with '" ++ key_prefix ++ "'")
      else format_rule provider key key_prefix
  end.

(** ** Masking ([utils.py], lines 127-136) *)

Definition format_key_for_display (key : string) (reveal : bool) : string :=
  if reveal then key
  else if (String.length key <=? 8)%nat then "****"
  else Str.take 4 key ++ "..." ++ Str.last 4 key.

(** ** Exceptions, state and the monad of the embedding *)

(** A Python exception, by the text [str(e)] that the handlers print. *)
Inductive exn : Type := Exception (text : string).

Definition exn_text (e : exn) : string := match e with Exception t => t end.

Inductive result (A : Type) : Type :=
  | Ok (a : A)
  | Raise (e : exn).
Arguments Ok {A} a.
Arguments Raise {A} e.

(** A computation over a state [S] that returns or raises; the state is
    kept when it raises, as a Python [try] keeps the effects that came
    before the exception. *)
Definition M (S A : Type) : Type := S -> result A * S.

Definition ret {S A} (a : A) : M S A := fun s => (Ok a, s).

Definition raise {S A} (e : exn) : M S A := fun s => (Raise e, s).

Definition bind {S A B} (m : M S A) (k : A -> M S B) : M S B :=
  fun s =>
    match m s with
    | (Ok a, s') => k a s'
    | (Raise e, s') => (Raise e, s')
    end.

(** A value or an exception that is already known. *)
Definition of_result {S A} (r : result A) : M S A := fun s => (r, s).

(** [try: m  except Exception as e: h e] *)
Definition try_except {S A} (m : M S A) (h : exn -> M S A) : M S A :=
  fun s =>
    match m s with
    | (Ok a, s') => (Ok a, s')
    | (Raise e, s') => h e s'
    end.

Declare Scope py_scope.
Delimit Scope py_scope with py.
Notation "'run' x <~ m ;; k" := (bind m (fun x => k))
  (at level 10, x name, m at level 99, k at level 200) : py_scope.
Open Scope py_scope.

(** A computation on the second component of a pair of states: the first
    component is a local variable of the caller. *)
Definition on_world {L W A} (m : M W A) : M (L * W) A :=
  fun s => let '(r, w') := m (snd s) in (r, (fst s, w')).

Definition get_local {L W} : M (L * W) L := fun s => (Ok (fst s), s).

Definition set_local {L W} (l : L) : M (L * W) unit :=
  fun s => (Ok tt, (l, snd s)).

(** [for x in xs: body], the loop variable threaded through [acc]. *)
Fixpoint for_each {S A B} (xs : list A) (body : A -> B -> M S B) (acc : B)
    : M S B :=
  match xs with
  | [] => ret acc
  | x :: xs' => run acc' <~ body x acc ;; for_each xs' body acc'
  end.

(** ** The world outside the process

    [secrets] is the keyring service [service_name] and [metas] the service
    [service_name ++ "-meta"], both keyed by provider.  Only this program
    writes the second service and it writes [json.dumps] of a value, so an
    entry of [metas] is the value that [json.loads] reads back.  [ticks]
    counts the readings of the clock, [calls] the HTTP requests sent and
    [slept] the time spent in [time.sleep]. *)

Record world : Type := {
  secrets : gmap string string;
  metas : gmap string json;
  ticks : nat;
  calls : nat;
  slept : N
}.

Record request : Type := {
  method : string;
  url : string;
  headers : list (string * string);
  payload : option json;
  deadline : Z
}.

(** A response: its status and what [response.json()] does. *)
Record response : Type := {
  status_code : Z;
  json_body : result json
}.

Inductive kr_op : Type := GetSecret | SetSecret | GetMeta | SetMeta.

(** What the process cannot decide: the time, the network and the failures
    of the keyring.  [clock n] is [datetime.now().isoformat()] at the
    [n]-th reading, [net n req] what the [n]-th request gets ([Raise] for a
    connection error or a timeout), [keyring_fault op user] the exception,
    if any, that the keyring raises for that operation on that entry. *)
Record Env : Type := {
  clock : nat -> string;
  net : nat -> request -> result response;
  keyring_fault : kr_op -> string -> option exn
}.

Definition verdict : Type := bool * string * option json.

Definition set_secrets (f : gmap string string -> gmap string string)
    (w : world) : world :=
  {| secrets := f (secrets w); metas := metas w; ticks := ticks w;
     calls := calls w; slept := slept w |}.

Definition set_metas (f : gmap string json -> gmap string json)
    (w : world) : world :=
  {| secrets := secrets w; metas := f (metas w); ticks := ticks w;
     calls := calls w; slept := slept w |}.

Definition tick (w : world) : world :=
  {| secrets := secrets w; metas := metas w; ticks := S (ticks w);
     calls := calls w; slept := slept w |}.

Definition sent (w : world) : world :=
  {| secrets := secrets w; metas := metas w; ticks := ticks w;
     calls := S (calls w); slept := slept w |}.

Definition asleep (d : N) (w : world) : world :=
  {| secrets := secrets w; metas := metas w; ticks := ticks w;
     calls := calls w; slept := (slept w + d)%N |}.

Section Engine.
Variable env : Env.

(** *** Primitives *)

Definition keyring_op {A} (op : kr_op) (user : string)
    (act : world -> A * world) : M world A :=
  fun w =>
    match keyring_fault env op user with
    | Some e => (Raise e, w)
    | None => let '(a, w') := act w in (Ok a, w')
    end.

(** [keyring.get_password(service_name, user)] *)
Definition get_secret (user : string) : M world (option string) :=
  keyring_op GetSecret user (fun w => (secrets w !! user, w)).

(** [keyring.set_password(service_name, user, value)] *)
Definition set_secret (user value : string) : M world unit :=
  keyring_op SetSecret user
    (fun w => (tt, set_secrets (insert user value) w)).

(** [keyring.get_password(service_name + "-meta", user)], parsed. *)
Definition get_meta (user : string) : M world (option json) :=
  keyring_op GetMeta user (fun w => (metas w !! user, w)).

(** [keyring.set_password(service_name + "-meta", user, json.dumps(v))] *)
Definition set_meta (user : string) (v : json) : M world unit :=
  keyring_op SetMeta user (fun w => (tt, set_metas (insert user v) w)).

(** [datetime.now().isoformat()] *)
Definition now : M world string :=
  fun w => (Ok (clock env (ticks w)), tick w).

(** [time.sleep(d)]: a negative duration is a [ValueError]. *)
Definition sleep (d : Z) : M world unit :=
  fun w =>
    if (d <? 0)%Z
    then (Raise (Exception "sleep length must be non-negative"), w)
    else (Ok tt, asleep (Z.to_N d) w).

(** [requests.get] and [requests.post] *)
Definition send (req : request) : M world response :=
  fun w => (net env (calls w) req, sent w).

(** *** Reading JSON values as Python objects *)

(** [v.get(k, dflt)] *)
Definition py_get {S} (v : json) (k : string) (dflt : json) : M S json :=
  match v with
  | JDict items => ret (default dflt (dict_get k items))
  | _ =>
      raise (Exception
        ("'" ++ type_name v ++ "' object has no attribute 'get'"))
  end.

(** [v.items()] *)
Definition py_items {S} (v : json) : M S (list (string * json)) :=
  match v with
  | JDict items => ret items
  | _ =>
      raise (Exception
        ("'" ++ type_name v ++ "' object has no attribute 'items'"))
  end.

(** [len(v)] *)
Definition py_len {S} (v : json) : M S nat :=
  match v with
  | JStr s => ret (String.length s)
  | JList l => ret (List.length l)
  | JDict items => ret (List.length items)
  | _ =>
      raise (Exception
        ("object of type '" ++ type_name v ++ "' has no len()"))
  end.

(** [v[k] = x] *)
Definition py_setitem {S} (v : json) (k : string) (x : json) : M S json :=
  match v with
  | JDict items => ret (JDict (dict_set k x items))
  | _ =>
      raise (Exception
        ("'" ++ type_name v ++ "' object does not support item assignment"))
  end.

(** [tok in str(v)] for a token made of capital letters and underscores.
    [str] of a value prints its strings with their printable characters
    unchanged and separates them by quotes and punctuation, and prints
    numbers, [True], [False] and [None] otherwise: such a token occurs in
    the text exactly when it occurs in one of the strings of the value,
    keys included. *)
Fixpoint json_mentions (tok : string) (v : json) : bool :=
  match v with
  | JStr s => Str.contains tok s
  | JList l => existsb (json_mentions tok) l
  | JDict items =>
      existsb (fun kv => Str.contains tok (fst kv)
                         || json_mentions tok (snd kv)) items
  | _ => false
  end.

(** *** Online probes ([validators.py], lines 151-257) *)

Definition models_verdict (r : response) (field : string) : M world verdict :=
  run data <~ of_result (json_body r) ;;
  run models <~ py_get data field (JList []) ;;
  run n <~ py_len models ;;
  ret (true, "Valid - " ++ pretty n ++ " models available",
       Some (JDict [("models", JInt (Z.of_nat n))])).

Definition api_error (r : response) : verdict :=
  (false, "API error: " ++ pretty (status_code r), None).

Definition openai_request (key : string) (pc : list (string * string))
    (tmo : Z) : request :=
  let hdrs := [("Authorization", "Bearer " ++ key)] in
  let u := default "https://api.openai.com/v1/models"
             (dict_get "api_url" pc) in
  {| method := "GET"; url := u; headers := hdrs;
     payload := None; deadline := tmo |}.

Definition _validate_openai_online (key : string)
    (pc : list (string * string)) (tmo : Z) : M world verdict :=
  run r <~ send (openai_request key pc tmo) ;;
  if (status_code r =? 200)%Z then models_verdict r "data"
  else if (status_code r =? 401)%Z then ret (false, "Invalid API key", None)
  else ret (api_error r).

Definition chat_payload (model : string) (anthropic_order : bool) : json :=
  let msgs := JList [JDict [("role", JStr "user"); ("content", JStr "Hi")]] in
  if anthropic_order
  then JDict [("model", JStr model); ("max_tokens", JInt 1);
              ("messages", msgs)]
  else JDict [("model", JStr model); ("messages", msgs);
              ("max_tokens", JInt 1)].

Definition anthropic_request (key : string) (pc : list (string * string))
    (tmo : Z) : request :=
  let hdrs := [("x-api-key", key); ("anthropic-version", "2023-06-01");
               ("content-type", "application/json")] in
  let data := chat_payload
                (default "claude-3-sonnet-20240229"
                   (dict_get "validation_model" pc)) true in
  let u := default "https://api.anthropic.com/v1/messages"
             (dict_get "api_url" pc) in
  {| method := "POST"; url := u; headers := hdrs;
     payload := Some data; deadline := tmo |}.

Definition _validate_anthropic_online (key : string)
    (pc : list (string * string)) (tmo : Z) : M world verdict :=
  run r <~ send (anthropic_request key pc tmo) ;;
  if (status_code r =? 200)%Z then ret (true, "Valid API key", None)
  else if (status_code r =? 401)%Z then ret (false, "Invalid API key", None)
  else if (status_code r =? 429)%Z
  then ret (true, "Valid but rate limited", None)
  else ret (api_error r).

Definition gemini_request (key : string) (pc : list (string * string))
    (tmo : Z) : request :=
  let u := default "https://generativelanguage.googleapis.com/v1/models"
             (dict_get "api_url" pc) ++ "?key=" ++ key in
  {| method := "GET"; url := u; headers := [];
     payload := None; deadline := tmo |}.

Definition _validate_gemini_online (key : string)
    (pc : list (string * string)) (tmo : Z) : M world verdict :=
  run r <~ send (gemini_request key pc tmo) ;;
  if (status_code r =? 200)%Z then models_verdict r "models"
  else if (status_code r =? 400)%Z then
    run error_data <~ of_result (json_body r) ;;
    if json_mentions "API_KEY_INVALID" error_data
    then ret (false, "Invalid API key", None)
    else ret (api_error r)
  else if (status_code r =? 403)%Z
  then ret (false, "API key lacks permissions", None)
  else ret (api_error r).

Definition perplexity_request (key : string)
    (pc : list (string * string)) (tmo : Z) : request :=
  let hdrs := [("Authorization", "Bearer " ++ key);
               ("Content-Type", "application/json")] in
  let data := chat_payload
                (default "llama-3.1-sonar-small-128k-online"
                   (dict_get "validation_model" pc)) false in
  let u := default "https://api.perplexity.ai/chat/completions"
             (dict_get "api_url" pc) in
  {| method := "POST"; url := u; headers := hdrs;
     payload := Some data; deadline := tmo |}.

Definition _validate_perplexity_online (key : string)
    (pc : list (string * string)) (tmo : Z) : M world verdict :=
  run r <~ send (perplexity_request key pc tmo) ;;
  if (status_code r =? 200)%Z then ret (true, "Valid API key", None)
  else if (status_code r =? 401)%Z then ret (false, "Invalid API key", None)
  else if (status_code r =? 429)%Z
  then ret (true, "Valid but rate limited", None)
  else ret (api_error r).

Definition groq_request (key : string) (pc : list (string * string))
    (tmo : Z) : request :=
  let hdrs := [("Authorization", "Bearer " ++ key)] in
  let u := default "https://api.groq.com/openai/v1/models"
             (dict_get "api_url" pc) in
  {| method := "GET"; url := u; headers := hdrs;
     payload := None; deadline := tmo |}.

Definition _validate_groq_online (key : string)
    (pc : list (string * string)) (tmo : Z) : M world verdict :=
  run r <~ send (groq_request key pc tmo) ;;
  if (status_code r =? 200)%Z then models_verdict r "data"
  else if (status_code r =? 401)%Z then ret (false, "Invalid API key", None)
  else ret (api_error r).

(** *** The retry loop ([validators.py], lines 107-148) *)

(** The chain of [if provider.lower() == ...] inside the loop; [None] is
    its final [else]. *)
Definition online_probe (provider : string)
    : option (string -> list (string * string) -> Z -> M world verdict) :=
  let p := Str.lower provider in
  if String.eqb p "openai" then Some _validate_openai_online
  else if String.eqb p "anthropic" then Some _validate_anthropic_online
  else if String.eqb p "gemini" then Some _validate_gemini_online
  else if String.eqb p "perplexity" then Some _validate_perplexity_online
  else if String.eqb p "groq" then Some _validate_groq_online
  else None.

(** One turn of [for attempt in range(retry_attempts)]: [Some v] when the
    turn executes [return v], [None] when it runs to its end. *)
Definition attempt_body (cfg : Config) (provider key : string)
    (pc : list (string * string)) (attempt : Z) : M world (option verdict) :=
  let is_last := (attempt =? retry_attempts cfg - 1)%Z in
  try_except
    (match online_probe provider with
     | None =>
         ret (Some (false,
                    "Online validation not implemented for " ++ provider,
                    None))
     | Some probe =>
         run v <~ probe key pc (timeout cfg) ;;
         if fst (fst v) || is_last then ret (Some v)
         else run _ <~ sleep (retry_delay cfg) ;; ret None
     end)
    (fun e =>
       if is_last
       then ret (Some (false, "Validation error: " ++ exn_text e, None))
       else run _ <~ sleep (retry_delay cfg) ;; ret None).

Fixpoint attempts (cfg : Config) (provider key : string)
    (pc : list (string * string)) (todo : nat) (attempt : Z)
    : M world verdict :=
  match todo with
  | O => ret (false, "Validation failed after retries", None)
  | S todo' =>
      run r <~ attempt_body cfg provider key pc attempt ;;
      match r with
      | Some v => ret v
      | None => attempts cfg provider key pc todo' (attempt + 1)
      end
  end.

Definition validate_key_online (provider key : string) (cfg : Config)
    : M world verdict :=
  match provider_config cfg provider with
  | None => ret (false, "Unknown provider: " ++ provider, None)
  | Some pc =>
      attempts cfg provider key pc (Z.to_nat (retry_attempts cfg)) 0
  end.

End Engine.

(** ** The key manager ([key_manager.py]) *)

(** [if x:] on an optional string: [None] and the empty string are falsy. *)
Definition truthy (x : option string) : option string :=
  match x with
  | Some s => if String.eqb s "" then None else Some s
  | None => None
  end.

(** Runs [m] with a fresh local variable and returns its last value. *)
Definition with_local {L W A} (l0 : L) (m : M (L * W) A) : M W L :=
  fun w =>
    let '(r, s) := m (l0, w) in
    (match r with Ok _ => Ok (fst s) | Raise e => Raise e end, snd s).

(** [_determine_provider_from_key_name] (lines 113-128) *)
Definition _determine_provider_from_key_name (key_name : string)
    : option string :=
  let key_lower := Str.lower key_name in
  if Str.contains "openai" key_lower then Some "openai"
  else if Str.contains "anthropic" key_lower || Str.contains "claude" key_lower
  then Some "anthropic"
  else if Str.contains "gemini" key_lower || Str.contains "google" key_lower
  then Some "gemini"
  else if Str.contains "perplexity" key_lower then Some "perplexity"
  else if Str.contains "groq" key_lower then Some "groq"
  else None.

(** The first loop of [import_from_env] (lines 61-73) on the variables that
    [dotenv_values] returns: the dictionary [api_key_vars] it builds. *)
Definition api_key_vars (env_vars : list (string * option string))
    : list (string * string) :=
  fold_left
    (fun acc kv =>
       match truthy (snd kv) with
       | None => acc
       | Some value =>
           let key_lower := Str.lower (fst kv) in
           if existsb (fun provider => Str.contains provider key_lower)
                ["openai"; "anthropic"; "gemini"; "perplexity"; "groq"]
           then
             if Str.contains "api_key" key_lower || Str.contains "key" key_lower
             then
               match _determine_provider_from_key_name (fst kv) with
               | Some provider => dict_set provider value acc
               | None => acc
               end
             else acc
           else acc
       end)
    env_vars [].

Section KeyManager.
Variable env : Env.
Variable cfg : Config.

(** [_key_exists] (lines 130-136) *)
Definition _key_exists (provider : string) : M world bool :=
  try_except
    (run key <~ get_secret env provider ;;
     ret (match key with Some _ => true | None => false end))
    (fun _ => ret false).

(** [_store_key] (lines 138-155) *)
Definition _store_key (provider api_key : string) : M world bool :=
  try_except
    (run _ <~ set_secret env provider api_key ;;
     run created <~ now env ;;
     let metadata :=
       JDict [("provider", JStr provider); ("created_at", JStr created);
              ("last_validated", JNull);
              ("validation_status", JStr "unknown")] in
     run _ <~ set_meta env provider metadata ;;
     ret true)
    (fun _ => ret false).

(** [list_keys] (lines 157-173) with [details=False], as [validate_keys]
    calls it. *)
Definition list_keys (provider : option string) : M world (list string) :=
  let provs :=
    match truthy provider with
    | Some p => [p]
    | None => map fst (providers cfg)
    end in
  for_each provs
    (fun prov keys =>
       run e <~ _key_exists prov ;;
       if e then ret (keys ++ [prov])%list else ret keys)
    [].

(** [_get_key_metadata] (lines 175-184) *)
Definition _get_key_metadata (provider : string) : M world json :=
  try_except
    (run metadata <~ get_meta env provider ;;
     match metadata with
     | Some v => ret v
     | None => ret (JDict [])
     end)
    (fun _ => ret (JDict [])).

(** [_update_key_metadata] (lines 186-193) *)
Definition _update_key_metadata (provider : string) (metadata : json)
    : M world bool :=
  try_except
    (run _ <~ set_meta env provider metadata ;; ret true)
    (fun _ => ret false).

Definition failure_entry (message : string) : json :=
  JDict [("valid", JBool false); ("message", JStr message)].

Definition verdict_entry (v : verdict) : json :=
  JDict [("valid", JBool (fst (fst v))); ("message", JStr (snd (fst v)));
         ("details", default JNull (snd v))].

(** [results[prov] = entry] *)
Definition results_set (prov : string) (entry : json)
    : M (list (string * json) * world) unit :=
  run results <~ get_local ;;
  set_local (dict_set prov entry results).

(** The body of the loop of [validate_keys] (lines 201-228); [results] is
    the local variable of the pair of states. *)
Definition validate_keys_body (prov : string)
    : M (list (string * json) * world) unit :=
  try_except
    (run api_key <~ on_world (get_secret env prov) ;;
     match truthy api_key with
     | None => results_set prov (failure_entry "Key not found")
     | Some api_key =>
         let fmt := validate_key_format prov api_key cfg in
         if negb (fst fmt)
         then results_set prov (failure_entry ("Format error: " ++ snd fmt))
         else
           run v <~ on_world (validate_key_online env prov api_key cfg) ;;
           run _ <~ results_set prov (verdict_entry v) ;;
           run metadata <~ on_world (_get_key_metadata prov) ;;
           run stamp <~ on_world (now env) ;;
           run metadata <~ py_setitem metadata "last_validated" (JStr stamp) ;;
           run metadata <~ py_setitem metadata "validation_status"
                     (JStr (if fst (fst v) then "valid" else "invalid")) ;;
           run _ <~ on_world (_update_key_metadata prov metadata) ;;
           ret tt
     end)
    (fun e =>
       results_set prov (failure_entry ("Validation error: " ++ exn_text e))).

(** [validate_keys] (lines 195-230) *)
Definition validate_keys (provider : option string) (fix_issues : bool)
    : M world (list (string * json)) :=
  run provs <~ match truthy provider with
               | Some p => ret [p]
               | None => list_keys None
               end ;;
  with_local []
    (for_each provs (fun prov _ => validate_keys_body prov) tt).

(** [update_key] (lines 266-280); [early] is [Some b] where the source
    executes [return b] before the store. *)
Definition update_key (provider api_key : string) (validate : bool)
    : M world bool :=
  run early <~
    (if validate then
       let fmt := validate_key_format provider api_key cfg in
       if negb (fst fmt) then ret (Some false)
       else if require_validation cfg then
         run v <~ validate_key_online env provider api_key cfg ;;
         if negb (fst (fst v)) then ret (Some false) else ret None
       else ret None
     else ret None) ;;
  match early with
  | Some b => ret b
  | None => _store_key provider api_key
  end.

(** The second loop of [import_from_env] (lines 79-111). *)
Definition import_entry (force validate : bool) (entry : string * string)
    (imported_count : nat) : M world nat :=
  let provider := fst entry in
  let api_key := snd entry in
  try_except
    (run present <~ (if negb force then _key_exists provider
                     else ret false) ;;
     if present then ret imported_count
     else
       run passed <~
         (if validate then
            let fmt := validate_key_format provider api_key cfg in
            if negb (fst fmt) then ret false
            else if require_validation cfg then
              run v <~ validate_key_online env provider api_key cfg ;;
              ret (fst (fst v))
            else ret true
          else ret true) ;;
       if passed then
         run stored <~ _store_key provider api_key ;;
         if stored then ret (imported_count + 1)%nat else ret imported_count
       else ret imported_count)
    (fun _ => ret imported_count).

(** [import_from_env] (lines 41-111) from the variables read from the
    file, for a readable file and an installed [dotenv]. *)
Definition import_from_env (env_vars : list (string * option string))
    (force validate : bool) : M world nat :=
  match env_vars with
  | [] => ret 0%nat
  | _ =>
      match api_key_vars env_vars with
      | [] => ret 0%nat
      | found => for_each found (import_entry force validate) 0%nat
      end
  end.

(** [restore_metadata] (lines 391-410); [loaded] is what opening the file
    and [json.load] give. *)
Definition restore_metadata (loaded : result json) : M world bool :=
  try_except
    (run backup_data <~ of_result loaded ;;
     run keys_data <~ py_get backup_data "keys" (JDict []) ;;
     run items <~ py_items keys_data ;;
     run restored_count <~
       for_each items
         (fun kv count =>
            run present <~ _key_exists (fst kv) ;;
            if present then
              run updated <~ _update_key_metadata (fst kv) (snd kv) ;;
              if updated then ret (count + 1)%nat else ret count
            else ret count)
         0%nat ;;
     ret (0 <? restored_count)%nat)
    (fun _ => ret false).

End KeyManager.

(** ** What an attempt of the retry loop does

    The [n]-th request of the run is the one sent from a world whose
    [calls] is [n]; a probe sends exactly one request. *)

Definition raises_at (probe : M world verdict) (n : nat) (e : exn) : Prop :=
  forall w, calls w = n -> probe w = (Raise e, sent w).

Definition returns_at (probe : M world verdict) (n : nat) (v : verdict)
    : Prop :=
  forall w, calls w = n -> probe w = (Ok v, sent w).

(** The attempt ends without a valid verdict: it raises or its verdict is
    a failure. *)
Definition fails_at (probe : M world verdict) (n : nat) : Prop :=
  (exists e, raises_at probe n e)
  \/ (exists v, returns_at probe n v /\ fst (fst v) = false).

(** The metadata record that [_store_key] writes. *)
Definition fresh_metadata (provider created : string) : json :=
  JDict [("provider", JStr provider); ("created_at", JStr created);
         ("last_validated", JNull); ("validation_status", JStr "unknown")].

(** [metadata.get(field)] on the stored record of a provider. *)
Definition meta_field (w : world) (provider field : string) : option json :=
  match metas w !! provider with
  | Some (JDict items) => dict_get field items
  | _ => None
  end.

(** ** Sample data for the concrete runs *)

Definition sample_openai_key : string :=
  "sk-abcdefghijABCDEFGHIJ0123456789abcdefghijABCDEFGHIJ".

Definition world0 : world :=
  {| secrets := ∅; metas := ∅; ticks := 0; calls := 0; slept := 0 |}.

Definition no_fault : kr_op -> string -> option exn := fun _ _ => None.


Definition two_models : response :=
  {| status_code := 200;
     json_body := Ok (JDict [("data", JList [JDict []; JDict []])]) |}.

(** A network that times out twice and then answers 200. *)
Definition env_flaky : Env :=
  {| clock := fun n => "2024-01-01T00:00:0" ++ pretty n;
     net := fun n _ =>
              match n with
              | 0 | 1 => Raise (Exception "timed out")
              | _ => Ok two_models
              end;
     keyring_fault := no_fault |}.

Definition bare (status : Z) : response :=
  {| status_code := status; json_body := Raise (Exception "no body") |}.

(** A network that answers every request with the same status. *)
Definition env_status (status : Z) : Env :=
  {| clock := fun n => "2024-01-01T00:00:0" ++ pretty n;
     net := fun _ _ => Ok (bare status);
     keyring_fault := no_fault |}.

Definition anthropic_pc : list (string * string) :=
  [ ("name", "Anthropic"); ("key_prefix", "sk-ant-");
    ("api_url", "https://api.anthropic.com/v1/messages");
    ("validation_model", "claude-3-sonnet-20240229") ].


(** A network on which every request is answered 200 with two models. *)
Definition env_up : Env :=
  {| clock := fun n => "2024-01-01T00:00:0" ++ pretty n;
     net := fun _ _ => Ok two_models;
     keyring_fault := no_fault |}.

Definition validated_metadata : list (string * json) :=
  [ ("provider", JStr "openai"); ("created_at", JStr "2023-05-01T09:00:00");
    ("last_validated", JStr "2023-06-01T10:00:00");
    ("validation_status", JStr "valid") ].

(** A keyring that holds an OpenAI key validated in the past. *)
Definition world_validated (key : string) : world :=
  {| secrets := {[ "openai" := key ]};
     metas := {[ "openai" := JDict validated_metadata ]};
     ticks := 0; calls := 0; slept := 0 |}.

Definition other_openai_key : string :=
  "sk-ABCDEFGHIJabcdefghij9876543210ABCDEFGHIJabcdefghij".

Definition backup_of (ks : list (string * json)) : json :=
  JDict [("timestamp", JStr "2024-02-01T12:00:00"); ("version", JStr "1.0");
         ("keys", JDict ks)].

(** ** Further definitions *)

(** A length within the bounds of a pattern. *)
Definition within (lo : nat) (hi : option nat) (n : nat) : Prop :=
  lo <= n /\ match hi with Some h => n <= h | None => True end.

(** The line feed, as a string. *)
Definition LF : string := String Str.newline "".

(** A key of the shape of a pattern [^prefix[class]{lo,hi}$]: the prefix,
    a segment over the class of a length within the bounds, and possibly
    one final line feed. *)
Definition shaped (prefix : string) (cls : ascii -> bool)
    (lo : nat) (hi : option nat) (key : string) : Prop :=
  exists seg,
    (key = prefix ++ seg \/ key = prefix ++ seg ++ LF)
    /\ Str.all cls seg = true
    /\ within lo hi (String.length seg).

(** The providers that have a pattern and a probe of their own. *)
Definition known_provider (provider : string) : bool :=
  existsb (String.eqb (Str.lower provider))
    ["openai"; "anthropic"; "gemini"; "perplexity"; "groq"].



(** The keyring answers that a secret is stored for the provider: there is
    one, and reading it does not fail. *)
Definition has_key (env : Env) (w : world) (provider : string) : bool :=
  match keyring_fault env GetSecret provider with
  | Some _ => false
  | None => match secrets w !! provider with
            | Some _ => true
            | None => false
            end
  end.

(** The providers that an operation on "one provider or all" looks at. *)
Definition scope (cfg : Config) (provider : option string) : list string :=
  match truthy provider with
  | Some p => [p]
  | None => map fst (providers cfg)
  end.

(** ** Removal ([key_manager.py], lines 250-264)

    [keyring.delete_password] raises [PasswordDeleteError] when the entry
    does not exist, which is what the inner [try] of [remove_key] is there
    for ("Metadata might not exist"); [not_found] is that exception and
    [delete_fault meta user] any other failure of the keyring on the
    deletion of the secret ([meta = false]) or of the metadata record. *)

Section Removal.
Variable env : Env.
Variable delete_fault : bool -> string -> option exn.
Variable not_found : exn.

(** [keyring.delete_password(service_name, user)] *)
Definition delete_secret (user : string) : M world unit :=
  fun w =>
    match delete_fault false user with
    | Some e => (Raise e, w)
    | None =>
        match secrets w !! user with
        | Some _ => (Ok tt, set_secrets (delete user) w)
        | None => (Raise not_found, w)
        end
    end.

(** [keyring.delete_password(service_name + "-meta", user)] *)
Definition delete_meta (user : string) : M world unit :=
  fun w =>
    match delete_fault true user with
    | Some e => (Raise e, w)
    | None =>
        match metas w !! user with
        | Some _ => (Ok tt, set_metas (delete user) w)
        | None => (Raise not_found, w)
        end
    end.

(** [remove_key] *)
Definition remove_key (provider : string) : M world bool :=
  try_except
    (run _ <~ delete_secret provider ;;
     run _ <~ try_except (delete_meta provider) (fun _ => ret tt) ;;
     ret true)
    (fun _ => ret false).

End Removal.

(** ** Backup of the metadata ([key_manager.py], lines 367-389)

    The files are a finite map from paths to what [json.load] gives for
    the file: a document, or the exception of a file that is not JSON.
    Writing a file can fail at two points.  [open(path, 'w')] can raise,
    and then no file has changed.  Or the file is opened, which empties
    it, and [json.dump] raises while writing: the file is left with a
    proper prefix of the text of the document, which is not JSON since
    the brace that closes the document is missing; [remains] is the
    exception that [json.load] raises on what remains. *)

Definition disk : Type := gmap string (result json).

Inductive write_failure : Type :=
  | OpenFails (e : exn)
  | DumpFails (e remains : exn).

Section Backup.
Variable env : Env.
Variable cfg : Config.
Variable write_fault : string -> option write_failure.

(** [with open(path, 'w') as f: json.dump(doc, f, indent=2)] *)
Definition write_json (path : string) (doc : json) : M (disk * world) unit :=
  fun s =>
    match write_fault path with
    | Some (OpenFails e) => (Raise e, s)
    | Some (DumpFails e remains) =>
        (Raise e, (<[path := Raise remains]> (fst s), snd s))
    | None => (Ok tt, (<[path := Ok doc]> (fst s), snd s))
    end.

(** [with open(path, 'r') as f: json.load(f)] *)
Definition load_json (d : disk) (path : string) : result json :=
  match d !! path with
  | Some content => content
  | None => Raise (Exception ("No such file or directory: '" ++ path ++ "'"))
  end.

(** [backup_metadata] *)
Definition backup_metadata (output_file : string) : M (disk * world) bool :=
  try_except
    (run keys <~ on_world (list_keys env cfg None) ;;
     run stamp <~ on_world (now env) ;;
     run keys_data <~
       for_each keys
         (fun key acc =>
            run metadata <~ on_world (_get_key_metadata env key) ;;
            ret (dict_set key metadata acc))
         [] ;;
     let backup_data :=
       JDict [("timestamp", JStr stamp); ("version", JStr "1.0");
              ("keys", JDict keys_data)] in
     run _ <~ write_json output_file backup_data ;;
     ret true)
    (fun _ => ret false).

(** [restore_metadata(backup_file)]: the file is opened and parsed inside
    the [try] of [restore_metadata]. *)
Definition restore_metadata_file (backup_file : string)
    : M (disk * world) bool :=
  fun s => on_world (restore_metadata env (load_json (fst s) backup_file)) s.

End Backup.

(** A keyring that never fails. *)
Definition reliable (env : Env) : Prop :=
  forall op user, keyring_fault env op user = None.

(** Metadata and credentials go together: a provider has a metadata
    record exactly when it has a secret. *)
Definition consistent (w : world) : Prop :=
  forall p, is_Some (metas w !! p) <-> is_Some (secrets w !! p).

(** From [w] to [w'] the secrets are the same, no metadata record is
    lost, and a new record belongs to a provider that has a secret. *)
Definition grows_within (w w' : world) : Prop :=
  secrets w' = secrets w
  /\ (forall q, is_Some (metas w !! q) -> is_Some (metas w' !! q))
  /\ (forall q, is_Some (metas w' !! q) ->
        is_Some (metas w !! q) \/ is_Some (secrets w !! q)).

(** The record that [_get_key_metadata] reads for a provider: the stored
    one, and the empty one when there is none or the keyring fails. *)
Definition read_metadata (env : Env) (w : world) (provider : string) : json :=
  match keyring_fault env GetMeta provider with
  | Some _ => JDict []
  | None => default (JDict []) (metas w !! provider)
  end.

(** The provider has a key that the keyring can read, and a metadata
    record that it can write. *)
Definition restorable (env : Env) (w : world) (provider : string) : bool :=
  has_key env w provider
  && match keyring_fault env SetMeta provider with
     | Some _ => false
     | None => true
     end.

Definition no_write_fault : string -> option write_failure := fun _ => None.

(** A keyring whose OpenAI key was replaced after the backup. *)
Definition world_replaced : world :=
  {| secrets := {[ "openai" := other_openai_key ]};
     metas := {[ "openai" := fresh_metadata "openai" "2024-03-01T08:00:00" ]};
     ticks := 5; calls := 3; slept := 0 |}.

(** ** File names and schedules ([utils.py]) *)

(** The class of characters that [sanitize_filename] replaces: the less
    and greater signs, the colon, the slash, the backslash, the bar, the
    question mark, the star, and the double quote (character 34). *)
Definition invalid_filename_char (c : ascii) : bool :=
  existsb (Ascii.eqb c)
    ["<"; ">"; ":"; ascii_of_N 34; "/"; "\"; "|"; "?"; "*"]%char.

(** [re.sub(class, '_', s)] for a class of single characters *)
Fixpoint replace_chars (p : ascii -> bool) (by_ : ascii) (s : string)
    : string :=
  match s with
  | EmptyString => EmptyString
  | String c t =>
      String (if p c then by_ else c) (replace_chars p by_ t)
  end.

(** [s.lstrip(chars)] *)
Fixpoint lstrip (p : ascii -> bool) (s : string) : string :=
  match s with
  | EmptyString => EmptyString
  | String c t => if p c then lstrip p t else s
  end.

(** [s.rstrip(chars)] *)
Fixpoint rstrip (p : ascii -> bool) (s : string) : string :=
  match s with
  | EmptyString => EmptyString
  | String c t =>
      match rstrip p t with
      | EmptyString => if p c then EmptyString else String c EmptyString
      | t' => String c t'
      end
  end.

(** [s.strip(chars)] *)
Definition strip (p : ascii -> bool) (s : string) : string :=
  rstrip p (lstrip p s).

Definition space_or_dot (c : ascii) : bool :=
  Ascii.eqb c " " || Ascii.eqb c ".".

(** [sanitize_filename] (lines 173-181) *)
Definition sanitize_filename (filename : string) : string :=
  let sanitized := replace_chars invalid_filename_char "_" filename in
  let sanitized := strip space_or_dot sanitized in
  Str.take 255 sanitized.

(** [get_cron_schedule] (lines 163-170) *)
Definition get_cron_schedule (interval : string) : string :=
  if String.eqb interval "hourly" then "0 * * * *"
  else if String.eqb interval "daily" then "0 2 * * *"
  else if String.eqb interval "weekly" then "0 2 * * 0"
  else "0 2 * * *".

(** ** The crontab text of [setup_cron] and [disable_cron]
    ([key_manager.py], lines 282-341) *)

(** [s.split('\n')] *)
Fixpoint split_lines (s : string) : list string :=
  match s with
  | EmptyString => [EmptyString]
  | String c t =>
      if Ascii.eqb c Str.newline then EmptyString :: split_lines t
      else match split_lines t with
           | line :: lines => String c line :: lines
           | [] => [String c EmptyString]
           end
  end.

(** ['\n'.join(lines)] *)
Fixpoint join_lines (lines : list string) : string :=
  match lines with
  | [] => EmptyString
  | [line] => line
  | line :: rest => line ++ String Str.newline (join_lines rest)
  end.

(** [c.isspace()], on the ASCII characters *)
Definition is_space (c : ascii) : bool :=
  let n := N_of_ascii c in
  ((9 <=? n)%N && (n <=? 13)%N) || ((28 <=? n)%N && (n <=? 32)%N).

(** [not line.strip()]: the line has only white space. *)
Definition blank (line : string) : bool := Str.all is_space line.

(** ['ai-key-manager' in line] *)
Definition mentions_tool (line : string) : bool :=
  Str.contains "ai-key-manager" line.

(** The command line of the job (line 288); [script_path] is the path of
    the program and [log_file] the path of the log. *)
Definition cron_command (interval script_path log_file : string) : string :=
  get_cron_schedule interval ++ " " ++ script_path ++ " validate >> "
  ++ log_file ++ " 2>&1".

(** Lines 297-303 of [setup_cron]: the text that is handed to
    [crontab -], from the output of [crontab -l]. *)
Definition setup_cron_text (current_cron cron_command : string) : string :=
  let lines :=
    (List.filter (fun line => negb (mentions_tool line))
       (split_lines current_cron) ++ [cron_command])%list in
  join_lines (List.filter (fun line => negb (blank line)) lines).

(** Lines 326-327 of [disable_cron]: the text that remains. *)
Definition disable_cron_text (current_cron : string) : string :=
  let lines :=
    List.filter (fun line => negb (mentions_tool line))
      (split_lines current_cron) in
  join_lines (List.filter (fun line => negb (blank line)) lines).

(** The last character of a string, if it has one. *)
Fixpoint last_char (s : string) : option ascii :=
  match s with
  | EmptyString => None
  | String c EmptyString => Some c
  | String _ t => last_char t
  end.

(** The first character of a string, if it has one. *)
Definition first_char (s : string) : option ascii :=
  match s with
  | EmptyString => None
  | String c _ => Some c
  end.

(** The string has no line feed. *)
Definition single_line (s : string) : bool :=
  Str.all (fun c => negb (Ascii.eqb c Str.newline)) s.

(** The lines of a crontab that belong to others: those that do not
    mention the tool and are not blank, in their order. *)
Definition kept_lines (current_cron : string) : list string :=
  List.filter (fun line => negb (blank line))
    (List.filter (fun line => negb (mentions_tool line))
       (split_lines current_cron)).

(** ** Further sample data *)

(** A configuration that registers one more provider, without a prefix. *)
Definition config_with_mistral : Config :=
  {| providers :=
       providers DEFAULT_CONFIG
       ++ [("mistral", [("name", "Mistral"); ("key_prefix", "");
                        ("api_url", "https://api.mistral.ai/v1/models")])];
     timeout := 30; retry_attempts := 3; retry_delay := 1;
     require_validation := true; service_name := "ai-key-manager" |}.

(** An environment whose keyring refuses to hand out credentials. *)
Definition env_locked : Env :=
  {| clock := fun n => "2024-01-01T00:00:0" ++ pretty n;
     net := fun _ _ => Ok two_models;
     keyring_fault := fun op _ =>
       match op with
       | GetSecret => Some (Exception "keychain is locked")
       | _ => None
       end |}.

(** The keyring deletes without a fault of its own. *)
Definition no_delete_fault : bool -> string -> option exn := fun _ _ => None.






(** A keyring that holds an OpenAI key and, for Groq, the empty string. *)
Definition world_empty_secret : world :=
  {| secrets := {[ "openai" := sample_openai_key; "groq" := "" ]};
     metas := ∅; ticks := 0; calls := 0; slept := 0 |}.

(** * Properties *)

(** ** Strings and dictionaries *)



Lemma app_String (c : ascii) (s t : string) :
  String c s ++ t = String c (s ++ t).
Proof. reflexivity. Qed.

Lemma startswith_spec (s p : string) :
  Str.startswith s p = true <-> exists rest, s = p ++ rest.
Proof.
  unfold Str.startswith. revert s.
  induction p as [|a p IH]; intros s; simpl.
  - destruct s; simpl; (split; [intros _; by eexists | done]).
  - destruct s as [|b s]; simpl.
    + split; [done | intros [rest H]; discriminate].
    + destruct (ascii_dec a b) as [->|Hne].
      * rewrite IH. split.
        -- intros [rest ->]. by exists rest.
        -- intros [rest H]. rewrite app_String in H.
           injection H as ->. by exists rest.
      * split; [done|]. intros [rest H]. rewrite app_String in H. congruence.
Qed.

Lemma take_drop (n : nat) (s : string) : s = Str.take n s ++ Str.drop n s.
Proof.
  revert s. induction n as [|n IH]; intros [|c s]; simpl; try done.
  rewrite app_String. by rewrite <- IH.
Qed.

Lemma length_take (n : nat) (s : string) :
  n <= String.length s -> String.length (Str.take n s) = n.
Proof.
  revert s. induction n as [|n IH]; intros [|c s]; simpl; try lia.
  intros H. rewrite IH; lia.
Qed.

Lemma length_drop (n : nat) (s : string) :
  String.length (Str.drop n s) = String.length s - n.
Proof.
  revert s. induction n as [|n IH]; intros [|c s]; simpl; try lia.
  apply IH.
Qed.

Lemma length_app (s t : string) :
  String.length (s ++ t) = String.length s + String.length t.
Proof.
  induction s as [|c s IH]; [done|].
  rewrite app_String. simpl. by rewrite IH.
Qed.

Lemma drop_drop (n m : nat) (s : string) :
  Str.drop n (Str.drop m s) = Str.drop (m + n) s.
Proof.
  revert s. induction m as [|m IH]; intros s; simpl; [done|].
  destruct s as [|c s]; simpl; [by destruct n | apply IH].
Qed.

(** The masked form keeps the two ends of the key and nothing else: the
    key is its first four characters, a middle part, and its last four. *)
Lemma mask_ends (key : string) :
  8 < String.length key ->
  String.length (Str.take 4 key) = 4
  /\ String.length (Str.last 4 key) = 4
  /\ exists middle, key = Str.take 4 key ++ middle ++ Str.last 4 key.
Proof.
  intros Hlen. unfold Str.last. split; [|split].
  - apply length_take. lia.
  - rewrite length_drop. lia.
  - exists (Str.take (String.length key - 8) (Str.drop 4 key)).
    rewrite (take_drop 4 key) at 1. f_equal.
    rewrite (take_drop (String.length key - 8) (Str.drop 4 key)) at 1.
    f_equal. rewrite drop_drop. f_equal. lia.
Qed.

(** ** Format validation *)

(** C8 - [validate_key_format] applies its rules in order.  A provider
    that does not resolve in the registry fails with the reason "Unknown
    provider"; a resolved provider with an empty candidate fails with "Key
    is empty"; otherwise a non-empty required prefix that the candidate
    does not start with fails with a reason naming the prefix; and the
    provider's pattern ([format_rule]) decides only when all three checks
    have passed. *)
Theorem validate_key_format_rules_in_order
    (cfg : Config) (provider key : string) :
  (provider_config cfg provider = None ->
   validate_key_format provider key cfg
   = (false, "Unknown provider: " ++ provider))
  /\ (forall pc key_prefix,
        provider_config cfg provider = Some pc ->
        key_prefix = default "" (dict_get "key_prefix" pc) ->
        (key = "" ->
         validate_key_format provider key cfg = (false, "Key is empty"))
        /\ (key <> "" -> key_prefix <> "" ->
            ~ (exists rest, key = key_prefix ++ rest) ->
            validate_key_format provider key cfg
            = (false, "Key must start with '" ++ key_prefix ++ "'"))
        /\ (key <> "" ->
            key_prefix = "" \/ (exists rest, key = key_prefix ++ rest) ->
            validate_key_format provider key cfg
            = format_rule provider key key_prefix)).
Proof.
  unfold validate_key_format. split.
  - by intros ->.
  - intros pc key_prefix -> Hkp. cbn zeta. rewrite <- Hkp. clear Hkp.
    split; [|split].
    + by intros ->.
    + intros Hkey Hpre Hstart.
      destruct (String.eqb key "") eqn:E1;
        [apply String.eqb_eq in E1; done|].
      destruct (String.eqb key_prefix "") eqn:E2;
        [apply String.eqb_eq in E2; done|].
      destruct (Str.startswith key key_prefix) eqn:E3; [|done].
      apply startswith_spec in E3. done.
    + intros Hkey Hstart.
      destruct (String.eqb key "") eqn:E1;
        [apply String.eqb_eq in E1; done|].
      destruct Hstart as [-> | Hstart]; [done|].
      apply startswith_spec in Hstart. rewrite Hstart.
      by rewrite andb_false_r.
Qed.

Lemma validate_key_format_rules_in_order_witness :
  validate_key_format "mistral" "sk-1" DEFAULT_CONFIG
  = (false, "Unknown provider: mistral")
  /\ validate_key_format "OpenAI" "" DEFAULT_CONFIG = (false, "Key is empty")
  /\ validate_key_format "openai" "pk-123" DEFAULT_CONFIG
     = (false, "Key must start with 'sk-'")
  /\ validate_key_format "openai" sample_openai_key DEFAULT_CONFIG
     = (true, "Valid format")
  /\ validate_key_format "openai" "sk-tooshort" DEFAULT_CONFIG
     = (false,
        "Invalid OpenAI key format (should be sk-[48-51 alphanumeric chars])").
Proof.
  pose (pc := [ ("name", "OpenAI"); ("key_prefix", "sk-");
                ("api_url", "https://api.openai.com/v1/models");
                ("validation_model", "gpt-3.5-turbo") ]).
  split; [|split; [|split; [|split]]].
  - apply (validate_key_format_rules_in_order DEFAULT_CONFIG "mistral" "sk-1").
    reflexivity.
  - destruct (validate_key_format_rules_in_order DEFAULT_CONFIG "OpenAI" "")
      as [_ H].
    destruct (H pc "sk-") as (Hempty & _ & _); [reflexivity..|].
    apply Hempty. reflexivity.
  - destruct (validate_key_format_rules_in_order DEFAULT_CONFIG "openai"
                "pk-123") as [_ H].
    destruct (H pc "sk-") as (_ & Hprefix & _); [reflexivity..|].
    apply Hprefix; [discriminate | discriminate |].
    intros Hs. apply startswith_spec in Hs. discriminate.
  - destruct (validate_key_format_rules_in_order DEFAULT_CONFIG "openai"
                sample_openai_key) as [_ H].
    destruct (H pc "sk-") as (_ & _ & Hrule); [reflexivity..|].
    rewrite Hrule; [reflexivity | discriminate |].
    right. apply startswith_spec. reflexivity.
  - destruct (validate_key_format_rules_in_order DEFAULT_CONFIG "openai"
                "sk-tooshort") as [_ H].
    destruct (H pc "sk-") as (_ & _ & Hrule); [reflexivity..|].
    rewrite Hrule; [reflexivity | discriminate |].
    right. apply startswith_spec. reflexivity.
Defined.

(** ** Masking *)

(** C9 - [format_key_for_display] with [reveal=False] returns the fixed
    mask "****" for a key of at most 8 characters, and otherwise the first
    4 characters of the key, the marker "...", and its last 4 characters
    ("abcd12345678" becomes "abcd...5678", 11 characters whatever the
    length of the key); the branch that returns the key itself is the one
    taken for [reveal=True]. *)
Theorem format_key_for_display_masks (key : string) :
  format_key_for_display key true = key
  /\ (String.length key <= 8 -> format_key_for_display key false = "****")
  /\ (8 < String.length key ->
      format_key_for_display key false
      = Str.take 4 key ++ "..." ++ Str.last 4 key
      /\ String.length (format_key_for_display key false) = 11
      /\ String.length (Str.take 4 key) = 4
      /\ String.length (Str.last 4 key) = 4
      /\ exists middle, key = Str.take 4 key ++ middle ++ Str.last 4 key)
  /\ format_key_for_display "abcd12345678" false = "abcd...5678".
Proof.
  unfold format_key_for_display. split; [done|]. split; [|split; [|done]].
  - intros H. apply Nat.leb_le in H. by rewrite H.
  - intros H. destruct (mask_ends key H) as (Htake & Hlast & Hmid).
    apply Nat.leb_gt in H. rewrite H. repeat split; try done.
    rewrite !length_app, Htake, Hlast. done.
Qed.

Lemma format_key_for_display_masks_witness :
  format_key_for_display "abcd12" false = "****"
  /\ format_key_for_display "sk-0123456789" false = "sk-0...6789".
Proof.
  split.
  - destruct (format_key_for_display_masks "abcd12") as (_ & Hshort & _).
    apply Hshort. simpl. lia.
  - destruct (format_key_for_display_masks "sk-0123456789")
      as (_ & _ & Hlong & _).
    destruct Hlong as [Heq _]; [simpl; lia|].
    rewrite Heq. reflexivity.
Defined.

(** ** Running computations *)

Lemma bind_Ok {S A B} (m : M S A) (k : A -> M S B) s a s' :
  m s = (Ok a, s') -> bind m k s = k a s'.
Proof. unfold bind. by intros ->. Qed.

Lemma bind_Raise {S A B} (m : M S A) (k : A -> M S B) s e s' :
  m s = (Raise e, s') -> bind m k s = (Raise e, s').
Proof. unfold bind. by intros ->. Qed.

Lemma try_Ok {S A} (m : M S A) (h : exn -> M S A) s a s' :
  m s = (Ok a, s') -> try_except m h s = (Ok a, s').
Proof. unfold try_except. by intros ->. Qed.

Lemma try_Raise {S A} (m : M S A) (h : exn -> M S A) s e s' :
  m s = (Raise e, s') -> try_except m h s = h e s'.
Proof. unfold try_except. by intros ->. Qed.

(** A computation that leaves the state as it found it. *)
Lemma models_verdict_state (r : response) (field : string) (w : world) :
  snd (models_verdict r field w) = w.
Proof.
  unfold models_verdict, bind, of_result.
  destruct (json_body r) as [data|e]; [|done].
  destruct data; simpl; try done.
  destruct (default _ _); simpl; done.
Qed.

Ltac case_status :=
  repeat match goal with
         | |- context [(?a =? ?b)%Z] => destruct (a =? b)%Z eqn:?
         end.

Section ProbeFacts.
Variable env : Env.

(** Every probe sends one request and touches nothing else. *)
Lemma online_probe_sent provider probe key pc tmo w :
  online_probe env provider = Some probe ->
  snd (probe key pc tmo w) = sent w.
Proof.
  unfold online_probe. intros H.
  repeat match type of H with
         | (if ?c then _ else _) = _ => destruct c
         end; try discriminate; injection H as <-.
  - unfold _validate_openai_online, bind, send.
    destruct (net env _ _) as [r|e]; [|done].
    case_status; try done. apply models_verdict_state.
  - unfold _validate_anthropic_online, bind, send.
    destruct (net env _ _) as [r|e]; [|done].
    case_status; done.
  - unfold _validate_gemini_online, bind, send.
    destruct (net env _ _) as [r|e]; [|done].
    case_status; try done; [apply models_verdict_state|].
    unfold of_result. destruct (json_body r); [|done].
    by destruct (json_mentions _ _).
  - unfold _validate_perplexity_online, bind, send.
    destruct (net env _ _) as [r|e]; [|done].
    case_status; done.
  - unfold _validate_groq_online, bind, send.
    destruct (net env _ _) as [r|e]; [|done].
    case_status; try done. apply models_verdict_state.
Qed.

End ProbeFacts.

(** ** The retry loop *)

Section Retry.
Variable env : Env.
Variable cfg : Config.
Variables provider key : string.
Variable pc : list (string * string).
Variable probe : string -> list (string * string) -> Z -> M world verdict.
Hypothesis Hprobe : online_probe env provider = Some probe.

Let attempt_of := probe key pc (timeout cfg).
Let delay := Z.to_N (retry_delay cfg).

(** A turn that does not return sleeps and goes on, when the delay is one
    that [time.sleep] accepts. *)
Lemma attempt_fails_goes_on attempt w :
  (0 <= retry_delay cfg)%Z ->
  fails_at attempt_of (calls w) ->
  attempt <> (retry_attempts cfg - 1)%Z ->
  attempt_body env cfg provider key pc attempt w
  = (Ok None, asleep delay (sent w)).
Proof.
  intros Hdelay Hfail Hnot. apply Z.eqb_neq in Hnot.
  apply Z.ltb_ge in Hdelay.
  unfold attempt_body. rewrite Hprobe, Hnot.
  destruct Hfail as [[e He] | (v & Hv & Hbad)].
  - erewrite try_Raise; [|erewrite bind_Raise; [done|]; by apply He].
    unfold bind, sleep. by rewrite Hdelay.
  - erewrite try_Ok; [done|].
    erewrite bind_Ok; [|by apply Hv].
    rewrite Hbad. unfold bind, sleep. by rewrite Hdelay.
Qed.


Lemma attempt_returns_verdict attempt w v :
  returns_at attempt_of (calls w) v ->
  fst (fst v) = true \/ attempt = (retry_attempts cfg - 1)%Z ->
  attempt_body env cfg provider key pc attempt w = (Ok (Some v), sent w).
Proof.
  intros Hv Hwhy. unfold attempt_body. rewrite Hprobe.
  erewrite try_Ok; [done|].
  erewrite bind_Ok; [|by apply Hv].
  destruct Hwhy as [-> | ->]; [done|].
  rewrite Z.eqb_refl, orb_true_r. done.
Qed.


(** The loop returns the verdict of attempt [i] when that attempt is the
    first to succeed, or is the last one, and every attempt before it
    failed; attempt [i] is then the last request sent.  The delay matters
    only when there is an attempt before it. *)
Lemma attempts_first_success_or_last (i : nat) :
  forall (todo : nat) (attempt : Z) (w : world) (v : verdict),
    i = 0 \/ (0 <= retry_delay cfg)%Z ->
    (Z.of_nat todo + attempt)%Z = retry_attempts cfg ->
    i < todo ->
    (forall j, j < i -> fails_at attempt_of (calls w + j)) ->
    returns_at attempt_of (calls w + i) v ->
    fst (fst v) = true \/ S i = todo ->
    exists w',
      attempts env cfg provider key pc todo attempt w = (Ok v, w')
      /\ calls w' = calls w + S i
      /\ secrets w' = secrets w /\ metas w' = metas w
      /\ ticks w' = ticks w.
Proof.
  induction i as [|i IH];
    intros todo attempt w v Hdelay Hsum Hlt Hfail Hret Hwhy.
  - destruct todo as [|todo]; [lia|]. simpl.
    rewrite Nat.add_0_r in Hret.
    erewrite bind_Ok.
    2:{ apply attempt_returns_verdict; [done|].
        destruct Hwhy as [?|Hlast]; [by left | right; lia]. }
    exists (sent w). simpl. repeat split; lia.
  - destruct Hdelay as [?|Hdelay]; [lia|].
    destruct todo as [|todo]; [lia|]. simpl.
    erewrite bind_Ok.
    2:{ apply attempt_fails_goes_on; [done| |lia].
        specialize (Hfail 0). rewrite Nat.add_0_r in Hfail.
        apply Hfail. lia. }
    destruct (IH todo (attempt + 1)%Z (asleep delay (sent w)) v)
      as (w' & Hrun & Hcalls & Hs & Hm & Ht).
    + by right.
    + lia.
    + lia.
    + intros j Hj.
      replace (calls (asleep delay (sent w)) + j) with (calls w + S j)
        by (simpl; lia).
      apply Hfail. lia.
    + by replace (calls (asleep delay (sent w)) + i) with (calls w + S i)
        by (simpl; lia).
    + destruct Hwhy as [?|?]; [by left | right; lia].
    + exists w'. split; [exact Hrun|]. simpl in *.
      repeat split; try done. lia.
Qed.



End Retry.

(** [validate_key_online] touches neither the keyring nor the clock, and
    with a delay that [time.sleep] accepts it never raises: whatever the
    network does, it returns a verdict. *)
Lemma attempt_body_frame env cfg provider key pc attempt w :
  exists r w',
    attempt_body env cfg provider key pc attempt w = (r, w')
    /\ secrets w' = secrets w /\ metas w' = metas w /\ ticks w' = ticks w
    /\ ((0 <= retry_delay cfg)%Z -> exists x, r = Ok x).
Proof.
  unfold attempt_body, try_except, bind, sleep.
  destruct (online_probe env provider) as [probe|] eqn:Hprobe;
    [|simpl; eauto 10].
  pose proof (online_probe_sent env provider probe key pc
                (timeout cfg) w Hprobe) as Hsent.
  destruct (probe key pc (timeout cfg) w) as [[v|e] w1].
  all: simpl in Hsent; subst w1.
  - destruct (fst (fst v) || _); simpl; [eauto 10|].
    destruct (retry_delay cfg <? 0)%Z eqn:Hneg; simpl.
    + destruct (_ =? _)%Z; simpl; [eauto 10|].
      do 2 eexists. split; [reflexivity|].
      repeat split; try done. intros ?%Z.ltb_ge. congruence.
    + eauto 10.
  - destruct (_ =? _)%Z; simpl; [eauto 10|].
    destruct (retry_delay cfg <? 0)%Z eqn:Hneg; simpl; [|eauto 10].
    do 2 eexists. split; [reflexivity|].
    repeat split; try done. intros ?%Z.ltb_ge. congruence.
Qed.

Lemma attempts_frame env cfg provider key pc (todo : nat) :
  forall (attempt : Z) (w : world),
    exists r w',
      attempts env cfg provider key pc todo attempt w = (r, w')
      /\ secrets w' = secrets w /\ metas w' = metas w /\ ticks w' = ticks w
      /\ ((0 <= retry_delay cfg)%Z -> exists v, r = Ok v).
Proof.
  induction todo as [|todo IH]; intros attempt w.
  - exists (Ok (false, "Validation failed after retries", None)), w.
    repeat split; eauto.
  - cbn [attempts].
    destruct (attempt_body_frame env cfg provider key pc attempt w)
      as (r & w1 & Hbody & Hs & Hm & Ht & Hok).
    destruct r as [[v|]|e].
    + erewrite bind_Ok; [|exact Hbody]. exists (Ok v), w1.
      repeat split; eauto.
    + erewrite bind_Ok; [|exact Hbody].
      destruct (IH (attempt + 1)%Z w1)
        as (r & w' & Hrun & Hs' & Hm' & Ht' & Hok').
      exists r, w'. split; [exact Hrun|]. repeat split; try congruence.
      done.
    + erewrite bind_Raise; [|exact Hbody]. exists (Raise e), w1.
      repeat split; try done. intros Hdelay.
      by destruct (Hok Hdelay).
Qed.

Lemma validate_key_online_frame env provider key cfg w :
  exists r w',
    validate_key_online env provider key cfg w = (r, w')
    /\ secrets w' = secrets w /\ metas w' = metas w /\ ticks w' = ticks w
    /\ ((0 <= retry_delay cfg)%Z -> exists v, r = Ok v).
Proof.
  unfold validate_key_online.
  destruct (provider_config cfg provider) as [pc|].
  - apply attempts_frame.
  - exists (Ok (false, "Unknown provider: " ++ provider, None)), w.
    repeat split; eauto.
Qed.

Lemma validate_key_online_returns env provider key cfg w :
  (0 <= retry_delay cfg)%Z ->
  exists v w',
    validate_key_online env provider key cfg w = (Ok v, w')
    /\ secrets w' = secrets w /\ metas w' = metas w /\ ticks w' = ticks w.
Proof.
  intros Hdelay.
  destruct (validate_key_online_frame env provider key cfg w)
    as (r & w' & Hrun & Hs & Hm & Ht & Hok).
  destruct (Hok Hdelay) as [v ->]. by exists v, w'.
Qed.

(** ** Interpretation of the response status *)

(** C5 - for the two providers that define the mapping, Anthropic and
    Perplexity, a response with status 429 to the probe's request yields a
    valid verdict with the message "Valid but rate limited"; and that
    verdict, being valid, is the final result of [validate_key_online],
    returned after this one request. *)
Theorem rate_limited_is_valid (env : Env) (key : string)
    (pc : list (string * string)) (tmo : Z) (w : world) (r : response) :
  status_code r = 429%Z ->
  (net env (calls w) (anthropic_request key pc tmo) = Ok r ->
   _validate_anthropic_online env key pc tmo w
   = (Ok (true, "Valid but rate limited", None), sent w))
  /\ (net env (calls w) (perplexity_request key pc tmo) = Ok r ->
      _validate_perplexity_online env key pc tmo w
      = (Ok (true, "Valid but rate limited", None), sent w))
  /\ (forall cfg provider,
        provider_config cfg provider = Some pc ->
        timeout cfg = tmo ->
        (0 < retry_attempts cfg)%Z ->
        (Str.lower provider = "anthropic"
         /\ net env (calls w) (anthropic_request key pc tmo) = Ok r)
        \/ (Str.lower provider = "perplexity"
            /\ net env (calls w) (perplexity_request key pc tmo) = Ok r) ->
        exists w',
          validate_key_online env provider key cfg w
          = (Ok (true, "Valid but rate limited", None), w')
          /\ calls w' = S (calls w)).
Proof.
  intros Hst.
  assert (forall w0,
            net env (calls w0) (anthropic_request key pc tmo) = Ok r ->
            _validate_anthropic_online env key pc tmo w0
            = (Ok (true, "Valid but rate limited", None), sent w0)) as Ha.
  { intros w0 Hnet. unfold _validate_anthropic_online, bind, send.
    rewrite Hnet, Hst. done. }
  assert (forall w0,
            net env (calls w0) (perplexity_request key pc tmo) = Ok r ->
            _validate_perplexity_online env key pc tmo w0
            = (Ok (true, "Valid but rate limited", None), sent w0)) as Hp.
  { intros w0 Hnet. unfold _validate_perplexity_online, bind, send.
    rewrite Hnet, Hst. done. }
  split; [apply Ha|]. split; [apply Hp|].
  intros cfg provider Hpc <- Hpos Hwhich.
  unfold validate_key_online. rewrite Hpc.
  assert (exists probe,
             online_probe env provider = Some probe
             /\ returns_at (probe key pc (timeout cfg)) (calls w + 0)
                  (true, "Valid but rate limited", None))
    as (probe & Hprobe & Hret).
  { rewrite Nat.add_0_r.
    destruct Hwhich as [[Hname Hnet] | [Hname Hnet]].
    - exists (_validate_anthropic_online env). split.
      + unfold online_probe. by rewrite Hname.
      + intros w0 Hw0. apply Ha. by rewrite Hw0.
    - exists (_validate_perplexity_online env). split.
      + unfold online_probe. by rewrite Hname.
      + intros w0 Hw0. apply Hp. by rewrite Hw0. }
  destruct (attempts_first_success_or_last env cfg provider key pc probe
              Hprobe 0 (Z.to_nat (retry_attempts cfg)) 0%Z w
              (true, "Valid but rate limited", None))
    as (w' & Hrun & Hcalls & _); try done; try lia.
  - by left.
  - exists w'. split; [done | lia].
Qed.

(** C7, as the code has it - a response with status 403 yields an invalid
    verdict from every probe; the message says that the key lacks
    permissions for Gemini, the one probe with a case for 403, and is
    "API error: 403" for the four others. *)
Theorem forbidden_is_invalid (env : Env) (key : string)
    (pc : list (string * string)) (tmo : Z) (w : world) (r : response) :
  status_code r = 403%Z ->
  (net env (calls w) (gemini_request key pc tmo) = Ok r ->
   _validate_gemini_online env key pc tmo w
   = (Ok (false, "API key lacks permissions", None), sent w))
  /\ (net env (calls w) (openai_request key pc tmo) = Ok r ->
      _validate_openai_online env key pc tmo w
      = (Ok (false, "API error: 403", None), sent w))
  /\ (net env (calls w) (anthropic_request key pc tmo) = Ok r ->
      _validate_anthropic_online env key pc tmo w
      = (Ok (false, "API error: 403", None), sent w))
  /\ (net env (calls w) (perplexity_request key pc tmo) = Ok r ->
      _validate_perplexity_online env key pc tmo w
      = (Ok (false, "API error: 403", None), sent w))
  /\ (net env (calls w) (groq_request key pc tmo) = Ok r ->
      _validate_groq_online env key pc tmo w
      = (Ok (false, "API error: 403", None), sent w)).
Proof.
  intros Hst. repeat split; intros Hnet.
  - unfold _validate_gemini_online, bind, send. rewrite Hnet, Hst. done.
  - unfold _validate_openai_online, bind, send, api_error.
    rewrite Hnet, Hst. done.
  - unfold _validate_anthropic_online, bind, send, api_error.
    rewrite Hnet, Hst. done.
  - unfold _validate_perplexity_online, bind, send, api_error.
    rewrite Hnet, Hst. done.
  - unfold _validate_groq_online, bind, send, api_error.
    rewrite Hnet, Hst. done.
Qed.



(** ** Concrete runs of the online validator *)

Lemma rate_limited_is_valid_witness :
  _validate_anthropic_online (env_status 429) "sk-ant-k" [] 30 world0
  = (Ok (true, "Valid but rate limited", None), sent world0)
  /\ _validate_perplexity_online (env_status 429) "pplx-k" [] 30 world0
     = (Ok (true, "Valid but rate limited", None), sent world0)
  /\ exists w',
       validate_key_online (env_status 429) "Anthropic" "sk-ant-k"
         DEFAULT_CONFIG world0
       = (Ok (true, "Valid but rate limited", None), w')
       /\ calls w' = 1.
Proof.
  split; [|split].
  - apply (rate_limited_is_valid (env_status 429) "sk-ant-k" [] 30 world0
             (bare 429)); reflexivity.
  - apply (rate_limited_is_valid (env_status 429) "pplx-k" [] 30 world0
             (bare 429)); reflexivity.
  - destruct (rate_limited_is_valid (env_status 429) "sk-ant-k" anthropic_pc
                30 world0 (bare 429) eq_refl) as (_ & _ & Hfinal).
    apply (Hfinal DEFAULT_CONFIG "Anthropic").
    + reflexivity.
    + reflexivity.
    + simpl. lia.
    + left. split; reflexivity.
Defined.

(** The other three probes have no case for 429. *)
Lemma rate_limited_elsewhere (env : Env) (key : string)
    (pc : list (string * string)) (tmo : Z) (w : world) (r : response) :
  status_code r = 429%Z ->
  (net env (calls w) (openai_request key pc tmo) = Ok r ->
   _validate_openai_online env key pc tmo w
   = (Ok (false, "API error: 429", None), sent w))
  /\ (net env (calls w) (gemini_request key pc tmo) = Ok r ->
      _validate_gemini_online env key pc tmo w
      = (Ok (false, "API error: 429", None), sent w))
  /\ (net env (calls w) (groq_request key pc tmo) = Ok r ->
      _validate_groq_online env key pc tmo w
      = (Ok (false, "API error: 429", None), sent w)).
Proof.
  intros Hst. repeat split; intros Hnet.
  - unfold _validate_openai_online, bind, send, api_error.
    rewrite Hnet, Hst. done.
  - unfold _validate_gemini_online, bind, send, api_error.
    rewrite Hnet, Hst. done.
  - unfold _validate_groq_online, bind, send, api_error.
    rewrite Hnet, Hst. done.
Qed.

(** C7 as stated fails: OpenAI answering 403 gives the verdict "API error:
    403", which says nothing about permissions. *)
Lemma forbidden_openai_counterexample :
  validate_key_online (env_status 403) "openai" sample_openai_key
    DEFAULT_CONFIG world0
  = (Ok (false, "API error: 403", None),
     asleep 2 (sent (sent (sent world0))))
  /\ Str.contains "permissions" "API error: 403" = false
  /\ "API error: 403" <> "API key lacks permissions".
Proof.
  split; [|split]; [vm_compute; reflexivity | reflexivity | discriminate].
Qed.

Lemma forbidden_is_invalid_witness :
  _validate_gemini_online (env_status 403) "AIza-k" [] 30 world0
  = (Ok (false, "API key lacks permissions", None), sent world0)
  /\ _validate_openai_online (env_status 403) "sk-k" [] 30 world0
     = (Ok (false, "API error: 403", None), sent world0).
Proof.
  split.
  - apply (forbidden_is_invalid (env_status 403) "AIza-k" [] 30 world0
             (bare 403)); reflexivity.
  - apply (forbidden_is_invalid (env_status 403) "sk-k" [] 30 world0
             (bare 403)); reflexivity.
Defined.





(** ** The key manager and the keyring *)

Section StoreFacts.
Variable env : Env.

(** [_key_exists] never raises and changes nothing: it answers whether a
    secret is stored, and [False] when the keyring fails. *)
Lemma key_exists_run provider w :
  _key_exists env provider w
  = (Ok match keyring_fault env GetSecret provider with
        | Some _ => false
        | None => match secrets w !! provider with
                  | Some _ => true
                  | None => false
                  end
        end, w).
Proof.
  unfold _key_exists, try_except, bind, get_secret, keyring_op.
  by destruct (keyring_fault env GetSecret provider).
Qed.

Lemma store_key_returns provider api_key w :
  exists b w', _store_key env provider api_key w = (Ok b, w').
Proof.
  unfold _store_key, try_except, bind, set_secret, set_meta, keyring_op, now.
  destruct (keyring_fault env SetSecret provider); simpl; [eauto|].
  destruct (keyring_fault env SetMeta provider); simpl; eauto.
Qed.

(** A store that reports success has written the secret and a fresh
    metadata record stamped with the current time. *)
Lemma store_key_true provider api_key w w' :
  _store_key env provider api_key w = (Ok true, w') ->
  w' = set_metas
         (insert provider (fresh_metadata provider (clock env (ticks w))))
         (tick (set_secrets (insert provider api_key) w)).
Proof.
  unfold _store_key, try_except, bind, set_secret, set_meta, keyring_op, now.
  destruct (keyring_fault env SetSecret provider); simpl; [intros [=]|].
  destruct (keyring_fault env SetMeta provider); simpl; [intros [=]|].
  by intros [= <-].
Qed.

Lemma update_metadata_run provider metadata w :
  _update_key_metadata env provider metadata w
  = match keyring_fault env SetMeta provider with
    | Some _ => (Ok false, w)
    | None => (Ok true, set_metas (insert provider metadata) w)
    end.
Proof.
  unfold _update_key_metadata, try_except, bind, set_meta, keyring_op.
  by destruct (keyring_fault env SetMeta provider).
Qed.

Lemma get_metadata_run provider w :
  _get_key_metadata env provider w
  = (Ok match keyring_fault env GetMeta provider with
        | Some _ => JDict []
        | None => default (JDict []) (metas w !! provider)
        end, w).
Proof.
  unfold _get_key_metadata, try_except, bind, get_meta, keyring_op.
  destruct (keyring_fault env GetMeta provider); [done|].
  by destruct (metas w !! provider).
Qed.

End StoreFacts.

(** [update_key] has no handler of its own: it returns whenever the
    online validation does, so with a delay that [time.sleep] accepts. *)
Lemma update_key_returns env cfg provider api_key validate w :
  (0 <= retry_delay cfg)%Z ->
  exists b w', update_key env cfg provider api_key validate w = (Ok b, w').
Proof.
  intros Hdelay. unfold update_key, bind.
  destruct validate; [|apply store_key_returns].
  destruct (negb _); [simpl; eauto|].
  destruct (require_validation cfg); [|apply store_key_returns].
  destruct (validate_key_online_returns env provider api_key cfg w Hdelay)
    as (v & w1 & -> & _).
  destruct (negb _); [simpl; eauto | apply store_key_returns].
Qed.

(** C1, as the code has it - an [update_key] with validation that succeeds
    has overwritten the credential value and, because it stores through
    [_store_key], replaced the whole metadata record: the creation
    timestamp is the time of the update, the last-validated timestamp is
    [None] and the status is "unknown". *)
Theorem update_key_reinitialises_metadata
    (env : Env) (cfg : Config) (provider api_key : string) (w w' : world) :
  update_key env cfg provider api_key true w = (Ok true, w') ->
  secrets w' !! provider = Some api_key
  /\ metas w' !! provider
     = Some (fresh_metadata provider (clock env (ticks w)))
  /\ meta_field w' provider "created_at" = Some (JStr (clock env (ticks w)))
  /\ meta_field w' provider "last_validated" = Some JNull
  /\ meta_field w' provider "validation_status" = Some (JStr "unknown").
Proof.
  intros Hrun.
  assert (exists w1,
             _store_key env provider api_key w1 = (Ok true, w')
             /\ ticks w1 = ticks w) as (w1 & Hstore & Hticks).
  { revert Hrun. unfold update_key, bind.
    destruct (negb _); [intros [=]|].
    destruct (require_validation cfg); [|by exists w].
    destruct (validate_key_online_frame env provider api_key cfg w)
      as ([v|e] & w1 & -> & _ & _ & Ht & _); [|intros [=]].
    destruct (negb _); [intros [=] | by exists w1]. }
  apply store_key_true in Hstore. subst w'.
  unfold meta_field. simpl. rewrite !lookup_insert_eq, Hticks. done.
Qed.

(** C1 as stated fails: an update that passes validation replaces the
    creation timestamp and resets the validation fields. *)
Lemma update_key_counterexample :
  exists w',
    update_key env_up DEFAULT_CONFIG "openai" sample_openai_key true
      (world_validated other_openai_key) = (Ok true, w')
    /\ meta_field (world_validated other_openai_key) "openai" "created_at"
       = Some (JStr "2023-05-01T09:00:00")
    /\ meta_field w' "openai" "created_at"
       = Some (JStr "2024-01-01T00:00:00")
    /\ meta_field (world_validated other_openai_key) "openai"
         "validation_status" = Some (JStr "valid")
    /\ meta_field w' "openai" "validation_status" = Some (JStr "unknown")
    /\ meta_field w' "openai" "last_validated" = Some JNull.
Proof.
  eexists. split; [vm_compute; reflexivity|].
  repeat split; vm_compute; reflexivity.
Qed.

Lemma update_key_reinitialises_metadata_witness :
  exists w',
    update_key env_up DEFAULT_CONFIG "openai" sample_openai_key true
      (world_validated other_openai_key) = (Ok true, w')
    /\ secrets w' !! "openai" = Some sample_openai_key
    /\ meta_field w' "openai" "created_at"
       = Some (JStr "2024-01-01T00:00:00").
Proof.
  destruct (update_key_returns env_up DEFAULT_CONFIG "openai"
              sample_openai_key true (world_validated other_openai_key))
    as (b & w' & Hrun); [simpl; lia|].
  assert (b = true) as ->.
  { assert (fst (update_key env_up DEFAULT_CONFIG "openai" sample_openai_key
                   true (world_validated other_openai_key)) = Ok true)
      as Hfst by (vm_compute; reflexivity).
    rewrite Hrun in Hfst. by injection Hfst. }
  exists w'. split; [exact Hrun|].
  destruct (update_key_reinitialises_metadata env_up DEFAULT_CONFIG "openai"
              sample_openai_key (world_validated other_openai_key) w' Hrun)
    as (Hsecret & _ & Hcreated & _).
  split; [exact Hsecret | exact Hcreated].
Defined.

(** ** Bulk validation *)

Lemma for_each_returns {S A B} (xs : list A) (body : A -> B -> M S B) :
  (forall x acc s, exists acc' s', body x acc s = (Ok acc', s')) ->
  forall acc s, exists acc' s', for_each xs body acc s = (Ok acc', s').
Proof.
  intros Hbody. induction xs as [|x xs IH]; intros acc s; simpl.
  - by exists acc, s.
  - destruct (Hbody x acc s) as (acc1 & s1 & Hx).
    erewrite bind_Ok; [|exact Hx]. apply IH.
Qed.

Lemma results_set_run prov entry (results : list (string * json)) w :
  results_set prov entry (results, w)
  = (Ok tt, (dict_set prov entry results, w)).
Proof. reflexivity. Qed.

(** A turn of the loop of [validate_keys] never raises: its handler
    records the exception as the result of the provider. *)
Lemma validate_keys_body_returns env cfg prov s :
  exists s', validate_keys_body env cfg prov s = (Ok tt, s').
Proof.
  unfold validate_keys_body, try_except.
  match goal with |- context [match ?m s with _ => _ end] =>
    destruct (m s) as [[[]|e] [results w]] end.
  - eauto.
  - rewrite results_set_run. eauto.
Qed.

Lemma list_keys_returns env cfg provider w :
  exists keys w', list_keys env cfg provider w = (Ok keys, w').
Proof.
  unfold list_keys. apply for_each_returns. intros prov keys s.
  unfold bind. rewrite key_exists_run.
  destruct (match keyring_fault env GetSecret prov with
            | Some _ => false | None => _ end); eauto.
Qed.

(** [validate_keys] returns its map of results whatever the keyring and
    the network do. *)
Lemma validate_keys_returns env cfg provider fix_issues w :
  exists results w',
    validate_keys env cfg provider fix_issues w = (Ok results, w').
Proof.
  unfold validate_keys, bind.
  assert (forall provs w0,
            exists results w',
              with_local []
                (for_each provs
                   (fun prov (_ : unit) => validate_keys_body env cfg prov)
                   tt) w0 = (Ok results, w')) as Hloop.
  { intros provs w0. unfold with_local.
    assert (forall prov (acc : unit) s,
              exists acc' s',
                validate_keys_body env cfg prov s = (Ok acc', s')) as Hbody.
    { intros prov _ s.
      destruct (validate_keys_body_returns env cfg prov s) as (s' & Hs).
      by exists tt, s'. }
    destruct (for_each_returns provs
                (fun prov (_ : unit) => validate_keys_body env cfg prov)
                Hbody tt (@nil (string * json), w0)) as ([] & s' & ->).
    eauto. }
  destruct (truthy provider) as [p|].
  - apply Hloop.
  - destruct (list_keys_returns env cfg None w) as (keys & w1 & ->).
    apply Hloop.
Qed.

Section ValidateOne.
Variable env : Env.
Variable cfg : Config.
Variables prov key : string.
Variable w : world.
Hypothesis Hkey : key <> "".
Hypothesis Hsecret : secrets w !! prov = Some key.
Hypothesis Hget : keyring_fault env GetSecret prov = None.




End ValidateOne.

(** [validate_keys] for one named provider runs the turn of that provider
    from an empty map of results. *)
Lemma validate_keys_one env cfg prov fix_issues w results w' :
  prov <> "" ->
  validate_keys_body env cfg prov ([], w) = (Ok tt, (results, w')) ->
  validate_keys env cfg (Some prov) fix_issues w = (Ok results, w').
Proof.
  intros Hprov Hbody. apply String.eqb_neq in Hprov.
  unfold validate_keys, truthy. rewrite Hprov.
  erewrite bind_Ok; [|reflexivity].
  unfold with_local. cbn [for_each].
  erewrite bind_Ok; [|exact Hbody]. reflexivity.
Qed.

(** ** Restoring metadata *)

Section Restore.
Variable env : Env.

(** The body of the loop of [restore_metadata]. *)
Let restore_one (kv : string * json) (count : nat) : M world nat :=
  run present <~ _key_exists env (fst kv) ;;
  if present then
    run updated <~ _update_key_metadata env (fst kv) (snd kv) ;;
    if updated then ret (count + 1)%nat else ret count
  else ret count.

Lemma restore_one_run kv count w :
  restore_one kv count w
  = match keyring_fault env GetSecret (fst kv), secrets w !! fst kv,
          keyring_fault env SetMeta (fst kv) with
    | None, Some _, None =>
        (Ok (count + 1), set_metas (insert (fst kv) (snd kv)) w)
    | _, _, _ => (Ok count, w)
    end.
Proof.
  unfold restore_one, bind. rewrite key_exists_run.
  destruct (keyring_fault env GetSecret (fst kv)); [done|].
  destruct (secrets w !! fst kv); [|done].
  rewrite update_metadata_run.
  by destruct (keyring_fault env SetMeta (fst kv)).
Qed.

(** What the loop does: it never raises, leaves the secrets alone, only
    adds metadata records, and counts a provider only if that provider
    has a stored credential and its record was written. *)
Lemma restore_loop_spec (items : list (string * json)) :
  forall count w,
    exists count' w',
      for_each items restore_one count w = (Ok count', w')
      /\ secrets w' = secrets w
      /\ count <= count'
      /\ (forall q, is_Some (metas w !! q) -> is_Some (metas w' !! q))
      /\ (count < count' ->
          exists p, p ∈ map fst items
                    /\ is_Some (secrets w !! p)
                    /\ is_Some (metas w' !! p)).
Proof.
  induction items as [|kv items IH]; intros count w; cbn [for_each].
  - exists count, w. repeat split; try done. lia.
  - assert (restore_one kv count w = (Ok count, w)
            \/ (restore_one kv count w
                = (Ok (count + 1), set_metas (insert (fst kv) (snd kv)) w)
                /\ is_Some (secrets w !! fst kv))) as [Hskip | [Hput Hs]].
    { rewrite restore_one_run.
      destruct (keyring_fault env GetSecret (fst kv)); [by left|].
      destruct (secrets w !! fst kv); [|by left].
      destruct (keyring_fault env SetMeta (fst kv)); [by left|].
      right. eauto. }
    + erewrite bind_Ok; [|exact Hskip].
      destruct (IH count w)
        as (count' & w' & Hrun & Hsec & Hle & Hdom & Hex).
      exists count', w'. split; [exact Hrun|]. repeat split; try done.
      intros Hlt. destruct (Hex Hlt) as (p & Hin & Hp).
      exists p. split; [|done]. cbn [map]. by apply list_elem_of_further.
    + erewrite bind_Ok; [|exact Hput].
      set (w1 := set_metas (insert (fst kv) (snd kv)) w).
      destruct (IH (count + 1) w1)
        as (count' & w' & Hrun & Hsec & Hle & Hdom & _).
      assert (is_Some (metas w1 !! fst kv)) as Hnew.
      { unfold w1. simpl. rewrite lookup_insert_eq. eauto. }
      exists count', w'. split; [exact Hrun|].
      split; [done|]. split; [lia|]. split.
      * intros q Hq. apply Hdom. unfold w1. simpl.
        destruct (decide (fst kv = q)) as [->|Hne].
        -- rewrite lookup_insert_eq. eauto.
        -- by rewrite lookup_insert_ne.
      * intros _. exists (fst kv). split; [|split].
        -- cbn [map]. apply list_elem_of_here.
        -- exact Hs.
        -- by apply Hdom.
Qed.

(** When no listed provider has a stored credential the loop writes
    nothing and counts nothing. *)
Lemma restore_loop_absent (items : list (string * json)) :
  forall count w,
    (forall p, p ∈ map fst items -> secrets w !! p = None) ->
    for_each items restore_one count w = (Ok count, w).
Proof.
  induction items as [|kv items IH]; intros count w Hnone; cbn [for_each].
  - done.
  - erewrite bind_Ok.
    2:{ rewrite restore_one_run. rewrite (Hnone (fst kv)).
        - by destruct (keyring_fault env GetSecret (fst kv)).
        - cbn [map]. apply list_elem_of_here. }
    apply IH. intros p Hp. apply Hnone. cbn [map].
    by apply list_elem_of_further.
Qed.

Lemma restore_metadata_unfold loaded :
  restore_metadata env loaded
  = try_except
      (run backup_data <~ of_result loaded ;;
       run keys_data <~ py_get backup_data "keys" (JDict []) ;;
       run items <~ py_items keys_data ;;
       run restored_count <~ for_each items restore_one 0%nat ;;
       ret (0 <? restored_count)%nat)
      (fun _ => ret false).
Proof. reflexivity. Qed.

(** [restore_metadata] by cases on what was loaded. *)
Lemma restore_metadata_run loaded w :
  restore_metadata env loaded w
  = match loaded with
    | Ok (JDict doc) =>
        match default (JDict []) (dict_get "keys" doc) with
        | JDict ks =>
            let '(r, w') := for_each ks restore_one 0%nat w in
            (match r with
             | Ok n => Ok (0 <? n)%nat
             | Raise _ => Ok false
             end, w')
        | _ => (Ok false, w)
        end
    | _ => (Ok false, w)
    end.
Proof.
  rewrite restore_metadata_unfold.
  destruct loaded as [[| | | | |doc]|e]; try reflexivity.
  unfold try_except, bind at 1, of_result, bind at 1, py_get, ret at 1.
  destruct (default (JDict []) (dict_get "keys" doc))
    as [| | | | |ks]; try reflexivity.
  unfold bind at 1, py_items, ret at 1, bind at 1.
  by destruct (for_each ks restore_one 0%nat w) as [[n|e] w'].
Qed.

End Restore.

(** C10 - [restore_metadata] reports success only when the metadata of at
    least one provider was restored.  For a well-formed backup in which no
    listed provider has a stored credential, it skips every entry, changes
    nothing and returns [False]; and whenever it returns [True], the backup
    lists a provider that has a stored credential and whose metadata record
    is in the keyring afterwards. *)
Theorem restore_metadata_needs_a_stored_key (env : Env) (w : world) :
  (forall doc ks,
     default (JDict []) (dict_get "keys" doc) = JDict ks ->
     (forall p, p ∈ map fst ks -> secrets w !! p = None) ->
     restore_metadata env (Ok (JDict doc)) w = (Ok false, w))
  /\ (forall loaded w',
        restore_metadata env loaded w = (Ok true, w') ->
        exists doc ks p,
          loaded = Ok (JDict doc)
          /\ default (JDict []) (dict_get "keys" doc) = JDict ks
          /\ p ∈ map fst ks
          /\ is_Some (secrets w !! p)
          /\ is_Some (metas w' !! p)).
Proof.
  split.
  - intros doc ks Hkeys Hnone. rewrite restore_metadata_unfold.
    apply try_Ok.
    erewrite bind_Ok; [|reflexivity].
    erewrite bind_Ok; [|unfold py_get; rewrite Hkeys; reflexivity].
    erewrite bind_Ok; [|reflexivity].
    erewrite bind_Ok; [|by apply restore_loop_absent].
    reflexivity.
  - intros loaded w'. rewrite restore_metadata_run.
    destruct loaded as [backup_data|e]; [|intros [=]].
    destruct backup_data as [| | | | |doc]; try solve [intros [=]].
    destruct (default (JDict []) (dict_get "keys" doc))
      as [| | | | |ks] eqn:Hkeys; try solve [intros [=]].
    destruct (restore_loop_spec env ks 0 w)
      as (count' & w1 & Hrun & _ & _ & _ & Hex).
    rewrite Hrun. intros [= Hpos <-].
    apply Nat.ltb_lt in Hpos. destruct (Hex Hpos) as (p & Hin & Hs & Hm).
    exists doc, ks, p. done.
Qed.

Lemma restore_metadata_needs_a_stored_key_witness :
  restore_metadata env_up
    (Ok (backup_of [("groq", JDict validated_metadata);
                    ("gemini", JDict validated_metadata)]))
    (world_validated sample_openai_key)
  = (Ok false, world_validated sample_openai_key)
  /\ exists p,
       p ∈ ["openai"; "groq"]
       /\ is_Some (secrets (world_validated sample_openai_key) !! p).
Proof.
  destruct (restore_metadata_needs_a_stored_key env_up
              (world_validated sample_openai_key)) as [Hnone Hsome].
  split.
  - apply (Hnone _ [("groq", JDict validated_metadata);
                    ("gemini", JDict validated_metadata)]); [reflexivity|].
    intros p Hp. cbn [map fst] in Hp.
    apply elem_of_cons in Hp as [->|Hp]; [reflexivity|].
    apply elem_of_cons in Hp as [->|Hp]; [reflexivity|].
    by apply elem_of_nil in Hp.
  - destruct (restore_metadata env_up
                (Ok (backup_of [("openai", JDict []);
                                ("groq", JDict validated_metadata)]))
                (world_validated sample_openai_key)) as [r w'] eqn:Hrun.
    assert (r = Ok true) as ->.
    { change r with (fst (r, w')). rewrite <- Hrun.
      vm_compute. reflexivity. }
    destruct (Hsome _ _ Hrun) as (doc & ks & p & Hdoc & Hks & Hin & Hs & _).
    injection Hdoc as <-. injection Hks as <-.
    exists p. split; [exact Hin | exact Hs].
Defined.

(** ** Import: which entries become candidates *)

(** C6 - what the code does on entries named after "claude" or "google".
    [_determine_provider_from_key_name] maps such names to anthropic and
    gemini, but the first loop of [import_from_env] only lets through
    names that contain one of the five provider identifiers: these
    entries are dropped before the mapping is consulted, and nothing is
    imported. *)
Theorem import_drops_claude_and_google_names :
  _determine_provider_from_key_name "CLAUDE_API_KEY" = Some "anthropic"
  /\ _determine_provider_from_key_name "GOOGLE_API_KEY" = Some "gemini"
  /\ api_key_vars [("CLAUDE_API_KEY", Some "sk-ant-secret");
                   ("GOOGLE_API_KEY", Some "AIza-secret")] = []
  /\ import_from_env env_up DEFAULT_CONFIG
       [("CLAUDE_API_KEY", Some "sk-ant-secret");
        ("GOOGLE_API_KEY", Some "AIza-secret")] true false world0
     = (Ok 0, world0)
  /\ api_key_vars [("ANTHROPIC_API_KEY", Some "sk-ant-secret");
                   ("GEMINI_API_KEY", Some "AIza-secret");
                   ("DATABASE_URL", Some "postgres://db")]
     = [("anthropic", "sk-ant-secret"); ("gemini", "AIza-secret")].
Proof. repeat split; vm_compute; reflexivity. Qed.

(** * Further properties of the code *)

(** ** The patterns of the format validator, read as equations *)

Lemma strip_prefix_spec (p s rest : string) :
  Str.strip_prefix p s = Some rest <-> s = p ++ rest.
Proof.
  revert s. induction p as [|a p IH]; intros s; simpl.
  - split; [by intros [= ->] | by intros ->].
  - destruct s as [|b s]; rewrite ?app_String.
    + split; [done | discriminate].
    + destruct (Ascii.eqb a b) eqn:E.
      * apply Ascii.eqb_eq in E. subst b. rewrite IH.
        split; [by intros -> | by intros [= ->]].
      * apply Ascii.eqb_neq in E. split; [done | intros [= ? ?]; done].
Qed.

Lemma chomp_line_feed (s : string) :
  Str.chomp (s ++ String Str.newline "") = s.
Proof.
  induction s as [|c s IH]; [reflexivity|].
  rewrite app_String. simpl.
  destruct (s ++ String Str.newline "") eqn:E.
  - destruct s; discriminate.
  - by rewrite IH.
Qed.

Lemma all_app (p : ascii -> bool) (s t : string) :
  Str.all p (s ++ t) = Str.all p s && Str.all p t.
Proof.
  induction s as [|c s IH]; [reflexivity|].
  rewrite app_String. simpl. rewrite IH. by rewrite andb_assoc.
Qed.

(** A string without a line feed is its own [chomp]. *)
Lemma chomp_all (p : ascii -> bool) (s : string) :
  p Str.newline = false -> Str.all p s = true -> Str.chomp s = s.
Proof.
  intros Hnl. induction s as [|c s IH]; [done|]. simpl.
  intros [Hc Hs]%andb_true_iff. destruct s as [|d s].
  - destruct (Ascii.eqb c Str.newline) eqn:E; [|done].
    apply Ascii.eqb_eq in E. congruence.
  - by rewrite IH.
Qed.

(** A string is its [chomp], or its [chomp] followed by a line feed. *)
Lemma chomp_cases (s : string) :
  s = Str.chomp s \/ s = Str.chomp s ++ String Str.newline "".
Proof.
  induction s as [|c s IH]; [by left|]. simpl. destruct s as [|d s].
  - destruct (Ascii.eqb c Str.newline) eqn:E; [|by left].
    apply Ascii.eqb_eq in E. subst c. by right.
  - rewrite app_String. destruct IH as [IH|IH]; [left | right]; congruence.
Qed.

(** [re.match] with a pattern [^prefix[class]{lo,hi}$], for a class that
    excludes the line feed: the key is the prefix and a seg over the class
    of a length within the bounds, with or without one final line feed. *)
Lemma re_match_shape_spec prefix cls lo hi key :
  cls Str.newline = false ->
  re_match_shape prefix cls lo hi key = true
  <-> exists seg,
        (key = prefix ++ seg \/ key = prefix ++ seg ++ String Str.newline "")
        /\ Str.all cls seg = true
        /\ within lo hi (String.length seg).
Proof.
  intros Hnl. unfold re_match_shape, within. split.
  - destruct (Str.strip_prefix prefix key) as [rest|] eqn:Hrest; [|done].
    apply strip_prefix_spec in Hrest. subst key.
    intros [[Hall Hlo%Nat.leb_le]%andb_true_iff Hhi]%andb_true_iff.
    exists (Str.chomp rest). split; [|split; [done|split; [done|]]].
    + destruct (chomp_cases rest) as [H|H]; [left | right]; congruence.
    + destruct hi; [by apply Nat.leb_le | done].
  - intros (seg & Hkey & Hall & Hlo & Hhi).
    assert (exists rest,
               Str.strip_prefix prefix key = Some rest
               /\ Str.chomp rest = seg) as (rest & -> & ->).
    { destruct Hkey as [-> | ->].
      - exists seg. split; [by apply strip_prefix_spec|].
        by apply (chomp_all cls).
      - exists (seg ++ String Str.newline ""). split.
        + by apply strip_prefix_spec.
        + apply chomp_line_feed. }
    rewrite Hall. apply Nat.leb_le in Hlo. rewrite Hlo. simpl.
    destruct hi; [by apply Nat.leb_le | done].
Qed.

Lemma app_assoc_str (s t u : string) : (s ++ t) ++ u = s ++ t ++ u.
Proof.
  induction s as [|c s IH]; [reflexivity|].
  rewrite !app_String. by rewrite IH.
Qed.

Lemma all_impl (p q : ascii -> bool) (s : string) :
  (forall c, p c = true -> q c = true) ->
  Str.all p s = true -> Str.all q s = true.
Proof.
  intros Hpq. induction s as [|c s IH]; [done|]. simpl.
  intros [Hc Hs]%andb_true_iff. rewrite (Hpq c Hc). by apply IH.
Qed.

Lemma alnum_in_dash_us c : Str.is_alnum c = true -> cls_alnum_dash_us c = true.
Proof. unfold cls_alnum_dash_us. by intros ->. Qed.

Lemma dash_us_in_dot c :
  cls_alnum_dash_us c = true -> cls_alnum_dash_us_dot c = true.
Proof. unfold cls_alnum_dash_us_dot. by intros ->. Qed.

Lemma re_match_shaped prefix cls lo hi key :
  cls Str.newline = false ->
  re_match_shape prefix cls lo hi key = true <-> shaped prefix cls lo hi key.
Proof. apply re_match_shape_spec. Qed.

Ltac format_shaped :=
  split;
  [ intros H; apply re_match_shaped; [reflexivity|];
    match type of H with
    | fst (if ?c then _ else _) = true => by destruct c
    end
  | intros H%re_match_shaped; [by rewrite H | reflexivity] ].

Lemma openai_format_shaped key :
  fst (_validate_openai_format key) = true
  <-> shaped "sk-" Str.is_alnum 48 (Some 51) key.
Proof. unfold _validate_openai_format. format_shaped. Qed.

Lemma anthropic_format_shaped key :
  fst (_validate_anthropic_format key) = true
  <-> shaped "sk-ant-" cls_alnum_dash_us 50 None key.
Proof. unfold _validate_anthropic_format. format_shaped. Qed.

Lemma gemini_format_shaped key :
  fst (_validate_gemini_format key) = true
  <-> shaped "AIza" cls_alnum_dash_us 35 (Some 39) key.
Proof. unfold _validate_gemini_format. format_shaped. Qed.

Lemma perplexity_format_shaped key :
  fst (_validate_perplexity_format key) = true
  <-> shaped "pplx-" Str.is_alnum 32 None key.
Proof. unfold _validate_perplexity_format. format_shaped. Qed.

Lemma groq_format_shaped key :
  fst (_validate_groq_format key) = true
  <-> shaped "gsk_" Str.is_alnum 50 None key.
Proof. unfold _validate_groq_format. format_shaped. Qed.

(** X1 - the five provider patterns, read as equations on the key.  The
    check of a provider accepts exactly the keys made of the provider's
    prefix and a segment over its character class of a length within its
    bounds, with or without one line feed at the very end (Python's [$]
    also matches before a final line feed). *)
Theorem format_patterns_accept_exactly (key : string) :
  (fst (_validate_openai_format key) = true
   <-> shaped "sk-" Str.is_alnum 48 (Some 51) key)
  /\ (fst (_validate_anthropic_format key) = true
      <-> shaped "sk-ant-" cls_alnum_dash_us 50 None key)
  /\ (fst (_validate_gemini_format key) = true
      <-> shaped "AIza" cls_alnum_dash_us 35 (Some 39) key)
  /\ (fst (_validate_perplexity_format key) = true
      <-> shaped "pplx-" Str.is_alnum 32 None key)
  /\ (fst (_validate_groq_format key) = true
      <-> shaped "gsk_" Str.is_alnum 50 None key).
Proof.
  split; [apply openai_format_shaped|].
  split; [apply anthropic_format_shaped|].
  split; [apply gemini_format_shaped|].
  split; [apply perplexity_format_shaped | apply groq_format_shaped].
Qed.

(** What any shaped key looks like from outside: its length and its
    characters. *)
Lemma shaped_outline prefix cls lo hi key :
  shaped prefix cls lo hi key ->
  (forall c, cls c = true -> cls_alnum_dash_us_dot c = true) ->
  Str.all cls_alnum_dash_us_dot prefix = true ->
  String.length prefix + lo <= String.length key
  /\ Str.all cls_alnum_dash_us_dot (Str.chomp key) = true.
Proof.
  intros (seg & Hkey & Hall & Hlo & _) Hcls Hprefix.
  assert (Str.all cls_alnum_dash_us_dot (prefix ++ seg) = true) as Hboth.
  { rewrite all_app, Hprefix. by apply (all_impl cls). }
  destruct Hkey as [-> | ->].
  - rewrite length_app. split; [lia|].
    by rewrite (chomp_all cls_alnum_dash_us_dot).
  - rewrite <- app_assoc_str. unfold LF. rewrite chomp_line_feed.
    rewrite !length_app. split; [lia | done].
Qed.

Lemma format_rule_cases provider key key_prefix :
  format_rule provider key key_prefix
  = (if String.eqb (Str.lower provider) "openai"
     then _validate_openai_format key
     else if String.eqb (Str.lower provider) "anthropic"
     then _validate_anthropic_format key
     else if String.eqb (Str.lower provider) "gemini"
     then _validate_gemini_format key
     else if String.eqb (Str.lower provider) "perplexity"
     then _validate_perplexity_format key
     else if String.eqb (Str.lower provider) "groq"
     then _validate_groq_format key
     else _validate_generic_format key key_prefix).
Proof. reflexivity. Qed.

Lemma format_rule_outline provider key key_prefix :
  fst (format_rule provider key key_prefix) = true ->
  snd (format_rule provider key key_prefix) = "Valid format"
  /\ 20 <= String.length key
  /\ Str.all cls_alnum_dash_us_dot (Str.chomp key) = true.
Proof.
  rewrite format_rule_cases.
  pose proof (openai_format_shaped key) as Ho.
  pose proof (anthropic_format_shaped key) as Ha.
  pose proof (gemini_format_shaped key) as Hg.
  pose proof (perplexity_format_shaped key) as Hp.
  pose proof (groq_format_shaped key) as Hq.
  repeat match goal with
         | |- context [if String.eqb ?a ?b then _ else _] =>
             destruct (String.eqb a b)
         end.
  - intros H. split.
    { revert H. unfold _validate_openai_format. by destruct re_match_shape. }
    apply Ho in H.
    destruct (shaped_outline _ _ _ _ _ H) as [Hlen Hall];
      [intros c Hc; by apply dash_us_in_dot, alnum_in_dash_us
      | reflexivity |].
    simpl in Hlen. split; [lia | done].
  - intros H. split.
    { revert H. unfold _validate_anthropic_format.
      by destruct re_match_shape. }
    apply Ha in H.
    destruct (shaped_outline _ _ _ _ _ H) as [Hlen Hall];
      [intros c Hc; by apply dash_us_in_dot | reflexivity |].
    simpl in Hlen. split; [lia | done].
  - intros H. split.
    { revert H. unfold _validate_gemini_format. by destruct re_match_shape. }
    apply Hg in H.
    destruct (shaped_outline _ _ _ _ _ H) as [Hlen Hall];
      [intros c Hc; by apply dash_us_in_dot | reflexivity |].
    simpl in Hlen. split; [lia | done].
  - intros H. split.
    { revert H. unfold _validate_perplexity_format.
      by destruct re_match_shape. }
    apply Hp in H.
    destruct (shaped_outline _ _ _ _ _ H) as [Hlen Hall];
      [intros c Hc; by apply dash_us_in_dot, alnum_in_dash_us
      | reflexivity |].
    simpl in Hlen. split; [lia | done].
  - intros H. split.
    { revert H. unfold _validate_groq_format. by destruct re_match_shape. }
    apply Hq in H.
    destruct (shaped_outline _ _ _ _ _ H) as [Hlen Hall];
      [intros c Hc; by apply dash_us_in_dot, alnum_in_dash_us
      | reflexivity |].
    simpl in Hlen. split; [lia | done].
  - unfold _validate_generic_format.
    destruct (String.length key <? 20)%nat eqn:Hshort; [done|].
    destruct (200 <? String.length key)%nat; [done|].
    destruct (re_match_shape "" cls_alnum_dash_us_dot 1 None key) eqn:Hm;
      [|done].
    intros _. apply Nat.ltb_ge in Hshort. split; [done|]. split; [done|].
    apply re_match_shaped in Hm; [|reflexivity].
    by destruct (shaped_outline _ _ _ _ _ Hm) as [_ Hall].
Qed.

(** X2 - a key that [validate_key_format] accepts, for any provider and
    any configuration, comes with the message "Valid format", is not
    empty, has at least 20 characters and, apart from one possible final
    line feed, consists of letters, digits, "-", "_" and "." only. *)
Theorem accepted_key_outline (cfg : Config) (provider key : string) :
  fst (validate_key_format provider key cfg) = true ->
  snd (validate_key_format provider key cfg) = "Valid format"
  /\ key <> ""
  /\ 20 <= String.length key
  /\ Str.all cls_alnum_dash_us_dot (Str.chomp key) = true.
Proof.
  unfold validate_key_format.
  destruct (provider_config cfg provider) as [pc|]; [|done].
  cbn zeta. destruct (String.eqb key "") eqn:Hkey; [done|].
  destruct (negb _ && negb _); [done|].
  intros H. apply format_rule_outline in H as (Hmsg & Hlen & Hall).
  apply String.eqb_neq in Hkey. done.
Qed.

Lemma accepted_key_outline_witness :
  20 <= String.length sample_openai_key
  /\ Str.all cls_alnum_dash_us_dot (Str.chomp sample_openai_key) = true.
Proof.
  destruct (accepted_key_outline DEFAULT_CONFIG "openai" sample_openai_key)
    as (_ & _ & Hlen & Hall); [reflexivity|].
  split; [exact Hlen | exact Hall].
Defined.

Lemma shaped_line_feed prefix cls lo hi key :
  shaped prefix cls lo hi key ->
  Str.chomp key = key ->
  shaped prefix cls lo hi (key ++ LF).
Proof.
  intros (seg & Hkey & Hall & Hlen) Hchomp. exists seg.
  split; [|done]. right. destruct Hkey as [-> | ->].
  - by rewrite app_assoc_str.
  - exfalso. rewrite <- app_assoc_str in Hchomp. unfold LF in Hchomp.
    rewrite chomp_line_feed in Hchomp.
    apply (f_equal String.length) in Hchomp.
    rewrite !length_app in Hchomp. simpl in Hchomp. lia.
Qed.

Lemma startswith_app s p t :
  Str.startswith s p = true -> Str.startswith (s ++ t) p = true.
Proof.
  intros [rest ->]%startswith_spec. apply startswith_spec.
  exists (rest ++ t). apply app_assoc_str.
Qed.

Lemma openai_accept key :
  fst (_validate_openai_format key) = true ->
  _validate_openai_format key = (true, "Valid format").
Proof. unfold _validate_openai_format. by destruct re_match_shape. Qed.

Lemma anthropic_accept key :
  fst (_validate_anthropic_format key) = true ->
  _validate_anthropic_format key = (true, "Valid format").
Proof. unfold _validate_anthropic_format. by destruct re_match_shape. Qed.

Lemma gemini_accept key :
  fst (_validate_gemini_format key) = true ->
  _validate_gemini_format key = (true, "Valid format").
Proof. unfold _validate_gemini_format. by destruct re_match_shape. Qed.

Lemma perplexity_accept key :
  fst (_validate_perplexity_format key) = true ->
  _validate_perplexity_format key = (true, "Valid format").
Proof. unfold _validate_perplexity_format. by destruct re_match_shape. Qed.

Lemma groq_accept key :
  fst (_validate_groq_format key) = true ->
  _validate_groq_format key = (true, "Valid format").
Proof. unfold _validate_groq_format. by destruct re_match_shape. Qed.

Ltac accept_line_feed Haccept Hshaped :=
  let H := fresh in
  intros H Hchomp; apply Haccept; apply Hshaped;
  apply shaped_line_feed; [apply Hshaped; exact H | exact Hchomp].

(** X3 - a final line feed is tolerated: whenever the format check of one
    of the five known providers accepts a key that does not end in a line
    feed, it also accepts that key followed by one line feed. *)
Theorem format_accepts_final_line_feed
    (cfg : Config) (provider key : string) :
  known_provider provider = true ->
  fst (validate_key_format provider key cfg) = true ->
  Str.chomp key = key ->
  validate_key_format provider (key ++ LF) cfg = (true, "Valid format").
Proof.
  intros Hknown. unfold validate_key_format.
  destruct (provider_config cfg provider) as [pc|]; [|done].
  cbn zeta. set (key_prefix := default "" (dict_get "key_prefix" pc)).
  destruct (String.eqb key "") eqn:Hkey; [done|].
  assert (String.eqb (key ++ LF) "" = false) as ->.
  { apply String.eqb_neq. by destruct key. }
  destruct (negb (String.eqb key_prefix "")) eqn:Hpre; simpl.
  - destruct (Str.startswith key key_prefix) eqn:Hs; [|done].
    rewrite (startswith_app _ _ LF Hs). simpl. revert Hknown.
    unfold known_provider. simpl existsb. rewrite !format_rule_cases.
    destruct (String.eqb (Str.lower provider) "openai");
      [intros _; accept_line_feed openai_accept openai_format_shaped|].
    destruct (String.eqb (Str.lower provider) "anthropic");
      [intros _; accept_line_feed anthropic_accept anthropic_format_shaped|].
    destruct (String.eqb (Str.lower provider) "gemini");
      [intros _; accept_line_feed gemini_accept gemini_format_shaped|].
    destruct (String.eqb (Str.lower provider) "perplexity");
      [intros _;
       accept_line_feed perplexity_accept perplexity_format_shaped|].
    destruct (String.eqb (Str.lower provider) "groq");
      [intros _; accept_line_feed groq_accept groq_format_shaped|].
    done.
  - revert Hknown.
    unfold known_provider. simpl existsb. rewrite !format_rule_cases.
    destruct (String.eqb (Str.lower provider) "openai");
      [intros _; accept_line_feed openai_accept openai_format_shaped|].
    destruct (String.eqb (Str.lower provider) "anthropic");
      [intros _; accept_line_feed anthropic_accept anthropic_format_shaped|].
    destruct (String.eqb (Str.lower provider) "gemini");
      [intros _; accept_line_feed gemini_accept gemini_format_shaped|].
    destruct (String.eqb (Str.lower provider) "perplexity");
      [intros _;
       accept_line_feed perplexity_accept perplexity_format_shaped|].
    destruct (String.eqb (Str.lower provider) "groq");
      [intros _; accept_line_feed groq_accept groq_format_shaped|].
    done.
Qed.

Lemma format_accepts_final_line_feed_witness :
  validate_key_format "openai" (sample_openai_key ++ LF) DEFAULT_CONFIG
  = (true, "Valid format").
Proof.
  apply (format_accepts_final_line_feed DEFAULT_CONFIG "openai"
           sample_openai_key); reflexivity.
Defined.

(** ** Provider identifiers *)

Lemma lower_char_lower_char (c : ascii) :
  Str.lower_char (Str.lower_char c) = Str.lower_char c.
Proof. by destruct c as [[] [] [] [] [] [] [] []]. Qed.

Lemma lower_lower (s : string) : Str.lower (Str.lower s) = Str.lower s.
Proof.
  induction s as [|c s IH]; [done|]. simpl.
  by rewrite lower_char_lower_char, IH.
Qed.

Lemma provider_config_lower cfg provider :
  provider_config cfg (Str.lower provider) = provider_config cfg provider.
Proof. unfold provider_config. by rewrite lower_lower. Qed.

Lemma format_rule_lower provider key key_prefix :
  format_rule (Str.lower provider) key key_prefix
  = format_rule provider key key_prefix.
Proof. rewrite !format_rule_cases. by rewrite lower_lower. Qed.

Lemma online_probe_lower env provider :
  online_probe env (Str.lower provider) = online_probe env provider.
Proof. unfold online_probe. by rewrite lower_lower. Qed.

Lemma attempts_lower env cfg provider key pc probe (todo : nat) :
  online_probe env provider = Some probe ->
  forall attempt w,
    attempts env cfg (Str.lower provider) key pc todo attempt w
    = attempts env cfg provider key pc todo attempt w.
Proof.
  intros Hprobe. induction todo as [|todo IH]; intros attempt w; [done|].
  cbn [attempts]. unfold bind.
  assert (attempt_body env cfg (Str.lower provider) key pc attempt w
          = attempt_body env cfg provider key pc attempt w) as ->.
  { unfold attempt_body. by rewrite online_probe_lower, Hprobe. }
  destruct (attempt_body env cfg provider key pc attempt w) as [[[v|]|e] w1];
    auto.
Qed.

(** X4 - provider identifiers are case-insensitive.  The verdict of
    [validate_key_format] is the same for an identifier and for its
    lower-case form, and so is the whole result when the provider
    resolves in the registry; [validate_key_online] then runs the same
    requests and returns the same verdict. *)
Theorem provider_names_ignore_case
    (env : Env) (cfg : Config) (provider key : string) (w : world) :
  fst (validate_key_format (Str.lower provider) key cfg)
  = fst (validate_key_format provider key cfg)
  /\ (provider_config cfg provider <> None ->
      validate_key_format (Str.lower provider) key cfg
      = validate_key_format provider key cfg)
  /\ (provider_config cfg provider <> None ->
      online_probe env provider <> None ->
      validate_key_online env (Str.lower provider) key cfg w
      = validate_key_online env provider key cfg w).
Proof.
  unfold validate_key_format, validate_key_online.
  rewrite provider_config_lower.
  destruct (provider_config cfg provider) as [pc|]; [|done].
  cbn zeta. rewrite format_rule_lower. repeat split; try done.
  intros _ Hprobe.
  destruct (online_probe env provider) as [probe|] eqn:E; [|done].
  by apply (attempts_lower env cfg provider key pc probe).
Qed.

Lemma provider_names_ignore_case_witness :
  validate_key_format "openai" sample_openai_key DEFAULT_CONFIG
  = validate_key_format "OpenAI" sample_openai_key DEFAULT_CONFIG
  /\ validate_key_online env_flaky "openai" sample_openai_key
       DEFAULT_CONFIG world0
     = validate_key_online env_flaky "OpenAI" sample_openai_key
         DEFAULT_CONFIG world0.
Proof.
  destruct (provider_names_ignore_case env_flaky DEFAULT_CONFIG "OpenAI"
              sample_openai_key world0) as (_ & Hformat & Honline).
  split.
  - apply Hformat. discriminate.
  - apply Honline; discriminate.
Defined.

(** ** The cost and the soundness of online validation *)

Section RetryBudget.
Variable env : Env.
Variable cfg : Config.
Variables provider key : string.
Variable pc : list (string * string).
Variable probe : string -> list (string * string) -> Z -> M world verdict.
Hypothesis Hprobe : online_probe env provider = Some probe.

(** A turn of the loop sends one request; it returns, or, not being the
    last one, it goes to sleep: it then goes on, or ends in the
    [ValueError] of a negative delay. *)
Lemma attempt_body_turn attempt w :
  (exists v, attempt_body env cfg provider key pc attempt w
             = (Ok (Some v), sent w))
  \/ (attempt <> (retry_attempts cfg - 1)%Z
      /\ (0 <= retry_delay cfg)%Z
      /\ attempt_body env cfg provider key pc attempt w
         = (Ok None, asleep (Z.to_N (retry_delay cfg)) (sent w)))
  \/ (attempt <> (retry_attempts cfg - 1)%Z
      /\ (retry_delay cfg < 0)%Z
      /\ attempt_body env cfg provider key pc attempt w
         = (Raise (Exception "sleep length must be non-negative"), sent w)).
Proof.
  unfold attempt_body, try_except, bind, sleep. rewrite Hprobe.
  pose proof (online_probe_sent env provider probe key pc
                (timeout cfg) w Hprobe) as Hsent.
  destruct (probe key pc (timeout cfg) w) as [[v|e] w1].
  all: simpl in Hsent; subst w1.
  all: destruct (attempt =? retry_attempts cfg - 1)%Z eqn:E.
  all: try apply Z.eqb_neq in E.
  all: destruct (retry_delay cfg <? 0)%Z eqn:Hneg.
  all: try apply Z.ltb_lt in Hneg; try apply Z.ltb_ge in Hneg.
  - left. rewrite orb_true_r. eauto.
  - left. rewrite orb_true_r. eauto.
  - rewrite orb_false_r. destruct (fst (fst v)); [left; eauto|].
    right. right. done.
  - rewrite orb_false_r. destruct (fst (fst v)); [left; eauto|].
    right. left. done.
  - left. eauto.
  - left. eauto.
  - right. right. done.
  - right. left. done.
Qed.



(** A valid verdict comes from a response: the last request sent was
    answered with status 200, or 429 for the two providers that count a
    rate limit as valid. *)
Lemma probe_valid_response w m d w1 :
  probe key pc (timeout cfg) w = (Ok (true, m, d), w1) ->
  exists req r,
    net env (calls w) req = Ok r
    /\ (status_code r = 200%Z
        \/ (status_code r = 429%Z
            /\ (Str.lower provider = "anthropic"
                \/ Str.lower provider = "perplexity"))).
Proof.
  revert Hprobe. unfold online_probe.
  destruct (String.eqb (Str.lower provider) "openai") eqn:E1.
  { intros [= <-]. unfold _validate_openai_online, bind, send.
    destruct (net env (calls w) _) as [r|e] eqn:Hnet; [|done].
    destruct (status_code r =? 200)%Z eqn:E200.
    - intros _. apply Z.eqb_eq in E200. eauto.
    - by destruct (status_code r =? 401)%Z. }
  destruct (String.eqb (Str.lower provider) "anthropic") eqn:E2.
  { apply String.eqb_eq in E2.
    intros [= <-]. unfold _validate_anthropic_online, bind, send.
    destruct (net env (calls w) _) as [r|e] eqn:Hnet; [|done].
    destruct (status_code r =? 200)%Z eqn:E200.
    - intros _. apply Z.eqb_eq in E200. eauto.
    - destruct (status_code r =? 401)%Z; [done|].
      destruct (status_code r =? 429)%Z eqn:E429; [|done].
      intros _. apply Z.eqb_eq in E429. eauto 10. }
  destruct (String.eqb (Str.lower provider) "gemini") eqn:E3.
  { intros [= <-]. unfold _validate_gemini_online, bind, send.
    destruct (net env (calls w) _) as [r|e] eqn:Hnet; [|done].
    destruct (status_code r =? 200)%Z eqn:E200.
    - intros _. apply Z.eqb_eq in E200. eauto.
    - destruct (status_code r =? 400)%Z.
      + unfold of_result. destruct (json_body r); [|done].
        by destruct (json_mentions _ _).
      + by destruct (status_code r =? 403)%Z. }
  destruct (String.eqb (Str.lower provider) "perplexity") eqn:E4.
  { apply String.eqb_eq in E4.
    intros [= <-]. unfold _validate_perplexity_online, bind, send.
    destruct (net env (calls w) _) as [r|e] eqn:Hnet; [|done].
    destruct (status_code r =? 200)%Z eqn:E200.
    - intros _. apply Z.eqb_eq in E200. eauto.
    - destruct (status_code r =? 401)%Z; [done|].
      destruct (status_code r =? 429)%Z eqn:E429; [|done].
      intros _. apply Z.eqb_eq in E429. eauto 10. }
  destruct (String.eqb (Str.lower provider) "groq") eqn:E5; [|done].
  intros [= <-]. unfold _validate_groq_online, bind, send.
  destruct (net env (calls w) _) as [r|e] eqn:Hnet; [|done].
  destruct (status_code r =? 200)%Z eqn:E200.
  - intros _. apply Z.eqb_eq in E200. eauto.
  - by destruct (status_code r =? 401)%Z.
Qed.

Lemma attempt_body_valid attempt w m d w1 :
  attempt_body env cfg provider key pc attempt w
  = (Ok (Some (true, m, d)), w1) ->
  w1 = sent w
  /\ exists req r,
       net env (calls w) req = Ok r
       /\ (status_code r = 200%Z
           \/ (status_code r = 429%Z
               /\ (Str.lower provider = "anthropic"
                   \/ Str.lower provider = "perplexity"))).
Proof.
  unfold attempt_body, try_except, bind. rewrite Hprobe.
  pose proof (online_probe_sent env provider probe key pc
                (timeout cfg) w Hprobe) as Hsent.
  destruct (probe key pc (timeout cfg) w) as [[v|e] w0] eqn:Hrun.
  all: simpl in Hsent; subst w0.
  - destruct v as [[ok m'] d'].
    destruct (fst (fst (ok, m', d')) || _) eqn:E.
    + intros [= -> -> -> <-]. split; [done|].
      by eapply probe_valid_response.
    + unfold sleep. destruct (retry_delay cfg <? 0)%Z; [|done].
      destruct (_ =? _)%Z; [done|].
      by destruct (retry_delay cfg <? 0)%Z.
  - destruct (_ =? _)%Z; [done|].
    unfold sleep. by destruct (retry_delay cfg <? 0)%Z.
Qed.

Lemma attempts_valid (todo : nat) :
  forall attempt w m d w',
    attempts env cfg provider key pc todo attempt w
    = (Ok (true, m, d), w') ->
    exists n req r,
      calls w' = S n /\ calls w <= n
      /\ net env n req = Ok r
      /\ (status_code r = 200%Z
          \/ (status_code r = 429%Z
              /\ (Str.lower provider = "anthropic"
                  \/ Str.lower provider = "perplexity"))).
Proof.
  induction todo as [|todo IH]; intros attempt w m d w'; [done|].
  cbn [attempts]. unfold bind at 1.
  destruct (attempt_body_turn attempt w)
    as [[v Hv] | [(_ & _ & Hgo) | (_ & _ & Hraise)]].
  - rewrite Hv. intros [= -> <-].
    apply attempt_body_valid in Hv as (_ & req & r & Hnet & Hst).
    exists (calls w), req, r. done.
  - rewrite Hgo. intros Hrun.
    apply IH in Hrun as (n & req & r & Hcalls & Hle & Hnet & Hst).
    exists n, req, r. simpl in Hle. repeat split; try done. lia.
  - by rewrite Hraise.
Qed.

End RetryBudget.

Lemma known_provider_probe env provider :
  known_provider provider = true <-> online_probe env provider <> None.
Proof.
  unfold known_provider, online_probe. simpl existsb.
  repeat match goal with
         | |- context [String.eqb (Str.lower provider) ?b] =>
             destruct (String.eqb (Str.lower provider) b)
         end; simpl; split; done.
Qed.

(** Without a probe the loop answers at once, sends nothing and fails. *)
Lemma attempts_without_probe env cfg provider key pc (todo : nat) attempt w :
  online_probe env provider = None ->
  exists m,
    attempts env cfg provider key pc todo attempt w = (Ok (false, m, None), w).
Proof.
  intros Hnone. destruct todo as [|todo]; [by eexists|].
  cbn [attempts]. unfold bind, attempt_body, try_except.
  rewrite Hnone. by eexists.
Qed.



(** X6 - [validate_key_online] reports a key as valid only on the word of
    the provider: the last request it sent was answered with status 200,
    or with status 429 in the case of Anthropic and Perplexity.  An
    exception, an unknown provider or a provider without a probe never
    gives a valid verdict. *)
Theorem valid_verdict_has_response
    (env : Env) (provider key : string) (cfg : Config) (w w' : world)
    (message : string) (details : option json) :
  validate_key_online env provider key cfg w
  = (Ok (true, message, details), w') ->
  exists n req r,
    calls w' = S n /\ calls w <= n
    /\ net env n req = Ok r
    /\ (status_code r = 200%Z
        \/ (status_code r = 429%Z
            /\ (Str.lower provider = "anthropic"
                \/ Str.lower provider = "perplexity"))).
Proof.
  unfold validate_key_online.
  destruct (provider_config cfg provider) as [pc|]; [|done].
  destruct (online_probe env provider) as [probe|] eqn:Hprobe.
  - by apply attempts_valid with (probe := probe).
  - destruct (attempts_without_probe env cfg provider key pc
                (Z.to_nat (retry_attempts cfg)) 0%Z w Hprobe) as [m ->].
    done.
Qed.

Lemma valid_verdict_has_response_witness :
  exists n req r,
    n = 2 /\ net env_flaky n req = Ok r /\ status_code r = 200%Z.
Proof.
  destruct (validate_key_online env_flaky "openai" sample_openai_key
              DEFAULT_CONFIG world0) as [res w'] eqn:Hrun.
  assert (fst (validate_key_online env_flaky "openai" sample_openai_key
                 DEFAULT_CONFIG world0)
          = Ok (true, "Valid - 2 models available",
                Some (JDict [("models", JInt 2)]))) as Hfst
    by (vm_compute; reflexivity).
  assert (calls (snd (validate_key_online env_flaky "openai"
                        sample_openai_key DEFAULT_CONFIG world0)) = 3)
    as Hcalls by (vm_compute; reflexivity).
  rewrite Hrun in Hfst, Hcalls. simpl in Hfst, Hcalls. subst res.
  destruct (valid_verdict_has_response env_flaky "openai" sample_openai_key
              DEFAULT_CONFIG world0 w' _ _ Hrun)
    as (n & req & r & Hn & _ & Hnet & Hst).
  exists n, req, r. split; [lia|]. split; [exact Hnet|].
  destruct Hst as [Hst | [_ [H | H]]]; [exact Hst | discriminate..].
Defined.

(** X7 - a provider that is registered in the configuration but is not
    one of the five known ones can never be stored by an update with
    validation when online validation is required: it has no probe, so the
    update sends no request, stores nothing and returns [False]. *)
Theorem custom_provider_never_stored
    (env : Env) (cfg : Config) (provider api_key : string) (w : world) :
  known_provider provider = false ->
  require_validation cfg = true ->
  update_key env cfg provider api_key true w = (Ok false, w).
Proof.
  intros Hknown Hreq. unfold update_key, bind at 1. rewrite Hreq.
  destruct (negb _); [done|].
  assert (online_probe env provider = None) as Hnone.
  { destruct (online_probe env provider) eqn:E; [|done].
    assert (known_provider provider = true)
      by (apply (known_provider_probe env); congruence).
    congruence. }
  unfold bind, validate_key_online.
  destruct (provider_config cfg provider) as [pc|]; [|done].
  destruct (attempts_without_probe env cfg provider api_key pc
              (Z.to_nat (retry_attempts cfg)) 0%Z w Hnone) as [m ->].
  done.
Qed.

Lemma custom_provider_never_stored_witness :
  validate_key_format "mistral" "abcdefghij0123456789abcdefghij"
    config_with_mistral = (true, "Valid format")
  /\ update_key env_up config_with_mistral "mistral"
       "abcdefghij0123456789abcdefghij" true world0 = (Ok false, world0).
Proof.
  split; [reflexivity|].
  apply custom_provider_never_stored; reflexivity.
Defined.




(** ** Listing and storing *)

Lemma list_keys_loop env (provs : list string) :
  forall keys w,
    for_each provs
      (fun prov keys =>
         run e <~ _key_exists env prov ;;
         if e then ret (keys ++ [prov])%list else ret keys)
      keys w
    = (Ok (keys ++ List.filter (has_key env w) provs)%list, w).
Proof.
  induction provs as [|p provs IH]; intros keys w; cbn [for_each].
  - by rewrite app_nil_r.
  - unfold bind at 1, bind at 1. rewrite key_exists_run.
    fold (has_key env w p). cbn [List.filter].
    destruct (has_key env w p).
    + unfold ret at 1. rewrite IH. by rewrite <- app_assoc.
    + unfold ret at 1. by rewrite IH.
Qed.

Lemma list_keys_run env cfg provider w :
  list_keys env cfg provider w
  = (Ok (List.filter (has_key env w) (scope cfg provider)), w).
Proof. unfold list_keys. rewrite list_keys_loop. reflexivity. Qed.

(** X9 - [list_keys] never raises and changes nothing.  It returns, in
    the order of the registry, the providers of its scope (the one named
    provider, if one is named) for which the keyring returns a secret.
    The test is [key is not None]: a provider whose stored secret is the
    empty string is listed too, and a provider whose secret cannot be
    read is left out. *)
Theorem list_keys_lists_stored
    (env : Env) (cfg : Config) (provider : option string) (w : world) :
  exists keys,
    list_keys env cfg provider w = (Ok keys, w)
    /\ keys = List.filter (has_key env w) (scope cfg provider)
    /\ (forall p,
          p ∈ keys
          <-> p ∈ scope cfg provider
              /\ keyring_fault env GetSecret p = None
              /\ is_Some (secrets w !! p))
    /\ (forall p,
          p ∈ scope cfg provider ->
          keyring_fault env GetSecret p = None ->
          secrets w !! p = Some "" ->
          p ∈ keys).
Proof.
  assert (forall p,
            p ∈ List.filter (has_key env w) (scope cfg provider)
            <-> p ∈ scope cfg provider
                /\ keyring_fault env GetSecret p = None
                /\ is_Some (secrets w !! p)) as Hin.
  { intros p. rewrite !list_elem_of_In, List.filter_In. unfold has_key.
    destruct (keyring_fault env GetSecret p);
      [split; [by intros [_ ?] | by intros (_ & ? & _)]|].
    destruct (secrets w !! p) as [k|].
    - split; [intros [? _]; eauto | by intros [? _]].
    - split; [by intros [_ ?] | by intros (_ & _ & [? ?])]. }
  eexists. split; [apply list_keys_run|]. split; [done|]. split; [done|].
  intros p Hscope Hget Hempty. apply Hin. rewrite Hempty. eauto.
Qed.

Lemma list_keys_lists_stored_witness :
  list_keys env_up DEFAULT_CONFIG None world_empty_secret
  = (Ok ["openai"; "groq"], world_empty_secret).
Proof.
  destruct (list_keys_lists_stored env_up DEFAULT_CONFIG None
              world_empty_secret) as (keys & Hrun & -> & _).
  exact Hrun.
Defined.

(** What [_store_key] can do to the keyring: nothing outside the entries
    of its provider. *)
Lemma store_key_effect env provider api_key w :
  exists b w',
    _store_key env provider api_key w = (Ok b, w')
    /\ (forall q, q <> provider ->
          secrets w' !! q = secrets w !! q /\ metas w' !! q = metas w !! q)
    /\ (b = true ->
        secrets w' !! provider = Some api_key
        /\ metas w' !! provider
           = Some (fresh_metadata provider (clock env (ticks w))))
    /\ (b = false ->
        metas w' = metas w
        /\ (secrets w' = secrets w
            \/ (secrets w' = <[provider := api_key]> (secrets w)
                /\ keyring_fault env SetSecret provider = None
                /\ keyring_fault env SetMeta provider <> None))).
Proof.
  unfold _store_key, try_except, bind, set_secret, set_meta, keyring_op, now.
  destruct (keyring_fault env SetSecret provider) eqn:Hs; simpl.
  { exists false, w. repeat split; try done. by left. }
  destruct (keyring_fault env SetMeta provider) eqn:Hm; simpl.
  - eexists false, _. split; [reflexivity|]. simpl. repeat split; try done.
    + by rewrite lookup_insert_ne.
    + right. done.
  - eexists true, _. split; [reflexivity|]. simpl. repeat split; try done.
    + by rewrite lookup_insert_ne.
    + by rewrite lookup_insert_ne.
    + by rewrite lookup_insert_eq.
    + by rewrite lookup_insert_eq.
Qed.

(** X10 - storing a key.  [_store_key] never raises and never touches the
    entries of another provider.  When it returns [True] the secret reads
    back, [_key_exists] answers [True] and [list_keys] lists the provider
    (the keyring being readable); when it returns [False] the metadata
    is as before, but the secret may already have been replaced: that is
    the case when the keyring accepts the secret and refuses the
    metadata. *)
Theorem store_key_outcomes
    (env : Env) (cfg : Config) (provider api_key : string) (w : world) :
  exists b w',
    _store_key env provider api_key w = (Ok b, w')
    /\ (forall q, q <> provider ->
          secrets w' !! q = secrets w !! q /\ metas w' !! q = metas w !! q)
    /\ (b = true ->
        secrets w' !! provider = Some api_key
        /\ (keyring_fault env GetSecret provider = None ->
            get_secret env provider w' = (Ok (Some api_key), w')
            /\ _key_exists env provider w' = (Ok true, w')
            /\ (provider <> "" ->
                list_keys env cfg (Some provider) w'
                = (Ok [provider], w'))))
    /\ (b = false ->
        metas w' = metas w
        /\ (secrets w' = secrets w
            \/ (secrets w' = <[provider := api_key]> (secrets w)
                /\ keyring_fault env SetMeta provider <> None))).
Proof.
  destruct (store_key_effect env provider api_key w)
    as (b & w' & Hrun & Hframe & Htrue & Hfalse).
  exists b, w'. split; [exact Hrun|]. split; [exact Hframe|]. split.
  - intros Hb. destruct (Htrue Hb) as [Hsecret _]. split; [done|].
    intros Hread. split; [|split].
    + unfold get_secret, keyring_op. by rewrite Hread, Hsecret.
    + rewrite key_exists_run. by rewrite Hread, Hsecret.
    + intros Hname%String.eqb_neq.
      rewrite list_keys_run. unfold scope, truthy. rewrite Hname.
      cbn [List.filter]. unfold has_key. by rewrite Hread, Hsecret.
  - intros Hb. destruct (Hfalse Hb) as [Hmeta Hsec]. split; [done|].
    destruct Hsec as [?|(? & _ & ?)]; [by left | by right].
Qed.

Lemma store_key_outcomes_witness :
  exists w',
    _store_key env_up "openai" sample_openai_key world0 = (Ok true, w')
    /\ get_secret env_up "openai" w' = (Ok (Some sample_openai_key), w')
    /\ list_keys env_up DEFAULT_CONFIG (Some "openai") w'
       = (Ok ["openai"], w').
Proof.
  destruct (store_key_outcomes env_up DEFAULT_CONFIG "openai"
              sample_openai_key world0)
    as (b & w' & Hrun & _ & Htrue & _).
  assert (b = true) as ->.
  { assert (fst (_store_key env_up "openai" sample_openai_key world0)
            = Ok true) as Hfst by reflexivity.
    rewrite Hrun in Hfst. by injection Hfst. }
  destruct (Htrue eq_refl) as [_ Hread].
  destruct (Hread eq_refl) as (Hget & _ & Hlist).
  exists w'. split; [exact Hrun|]. split; [exact Hget|].
  apply Hlist. discriminate.
Defined.

(** X11 - an update that validation rejects changes nothing.  With a
    keyring that accepts writes for the provider, [update_key] with
    validation returns [False] only because the format check failed or
    because online validation is required and gave an invalid verdict; the
    secrets, the metadata and the clock are then as before. *)
Theorem rejected_update_changes_nothing
    (env : Env) (cfg : Config) (provider api_key : string) (w w' : world) :
  keyring_fault env SetSecret provider = None ->
  keyring_fault env SetMeta provider = None ->
  update_key env cfg provider api_key true w = (Ok false, w') ->
  secrets w' = secrets w /\ metas w' = metas w /\ ticks w' = ticks w
  /\ (fst (validate_key_format provider api_key cfg) = false
      \/ (require_validation cfg = true
          /\ exists message details,
               fst (validate_key_online env provider api_key cfg w)
               = Ok (false, message, details))).
Proof.
  intros Hs Hm.
  assert (forall w0 w1,
            _store_key env provider api_key w0 = (Ok false, w1) -> False)
    as Hstore.
  { intros w0 w1. unfold _store_key, try_except, bind, set_secret, set_meta,
      keyring_op, now. rewrite Hs. simpl. rewrite Hm. simpl. discriminate. }
  unfold update_key, bind at 1.
  destruct (fst (validate_key_format provider api_key cfg)) eqn:Hfmt; simpl.
  2:{ intros [= <-]. repeat split; try done. by left. }
  destruct (require_validation cfg) eqn:Hreq.
  2:{ intros H. by apply Hstore in H. }
  unfold bind.
  destruct (validate_key_online_frame env provider api_key cfg w)
    as ([[[ok m] d]|e] & w1 & Hrun & Hsec & Hmeta & Ht & _);
    rewrite Hrun; [|done].
  simpl. destruct ok; simpl.
  - intros H. by apply Hstore in H.
  - intros [= <-]. repeat split; try done. right. split; [done|].
    by exists m, d.
Qed.

Lemma rejected_update_changes_nothing_witness :
  exists w',
    update_key (env_status 401) DEFAULT_CONFIG "openai" sample_openai_key
      true (world_validated other_openai_key) = (Ok false, w')
    /\ secrets w' = secrets (world_validated other_openai_key)
    /\ metas w' = metas (world_validated other_openai_key).
Proof.
  destruct (update_key (env_status 401) DEFAULT_CONFIG "openai"
              sample_openai_key true (world_validated other_openai_key))
    as [res w'] eqn:Hrun.
  assert (res = Ok false) as ->.
  { assert (fst (update_key (env_status 401) DEFAULT_CONFIG "openai"
                   sample_openai_key true
                   (world_validated other_openai_key)) = Ok false)
      as Hfst by (vm_compute; reflexivity).
    by rewrite Hrun in Hfst. }
  destruct (rejected_update_changes_nothing (env_status 401) DEFAULT_CONFIG
              "openai" sample_openai_key (world_validated other_openai_key)
              w' eq_refl eq_refl Hrun) as (Hs & Hm & _).
  exists w'. split; [reflexivity|]. split; [exact Hs | exact Hm].
Defined.

(** ** What a validation run touches *)

Lemma dict_set_set {V} (k : string) (v1 v2 : V) d :
  dict_set k v2 (dict_set k v1 d) = dict_set k v2 d.
Proof.
  induction d as [|[k' v'] d IH]; simpl.
  - by rewrite String.eqb_refl.
  - destruct (String.eqb k k') eqn:E; simpl.
    + by rewrite String.eqb_refl.
    + by rewrite E, IH.
Qed.

Lemma grows_within_refl w : grows_within w w.
Proof. unfold grows_within. eauto. Qed.

Lemma grows_within_same w w' :
  secrets w' = secrets w -> metas w' = metas w -> grows_within w w'.
Proof. unfold grows_within. intros -> ->. eauto. Qed.

Lemma grows_within_trans w1 w2 w3 :
  grows_within w1 w2 -> grows_within w2 w3 -> grows_within w1 w3.
Proof.
  intros (Hs1 & Hk1 & Hn1) (Hs2 & Hk2 & Hn2). split; [congruence|]. split.
  - eauto.
  - intros q Hq. destruct (Hn2 q Hq) as [H|H].
    + by apply Hn1.
    + right. by rewrite <- Hs1.
Qed.

Lemma grows_within_insert w w1 p m :
  secrets w1 = secrets w -> metas w1 = metas w ->
  is_Some (secrets w !! p) ->
  grows_within w (set_metas (insert p m) w1).
Proof.
  intros Hs Hm Hp. split; [done|]. simpl. rewrite Hm. split.
  - intros q Hq. destruct (decide (p = q)) as [->|Hne].
    + rewrite lookup_insert_eq. eauto.
    + by rewrite lookup_insert_ne.
  - intros q. destruct (decide (p = q)) as [->|Hne].
    + by right.
    + rewrite lookup_insert_ne by done. by left.
Qed.

Lemma grows_within_consistent w w' :
  consistent w -> grows_within w w' -> consistent w'.
Proof.
  intros Hc (Hs & Hk & Hn) p. rewrite Hs. split.
  - intros Hp. destruct (Hn p Hp) as [H|H]; [by apply Hc | done].
  - intros Hp. by apply Hk, Hc.
Qed.

Lemma truthy_is_Some x s : truthy x = Some s -> is_Some x.
Proof. destruct x; [eauto | done]. Qed.

(** A turn of the loop of [validate_keys] records one result, for its
    provider, and writes at most the metadata record of that provider,
    which then has a secret. *)
Lemma validate_keys_body_effect env cfg prov results w :
  exists entry w',
    validate_keys_body env cfg prov (results, w)
    = (Ok tt, (dict_set prov entry results, w'))
    /\ secrets w' = secrets w
    /\ (forall q, q <> prov -> metas w' !! q = metas w !! q)
    /\ grows_within w w'.
Proof.
  unfold validate_keys_body, try_except.
  unfold bind at 1, on_world at 1, get_secret, keyring_op. cbn [fst snd].
  destruct (keyring_fault env GetSecret prov) as [e|].
  { rewrite results_set_run. eexists _, w.
    repeat split; try done; apply grows_within_refl. }
  destruct (truthy (secrets w !! prov)) as [api_key|] eqn:Hkey.
  2:{ rewrite results_set_run. eexists _, w.
      repeat split; try done; apply grows_within_refl. }
  apply truthy_is_Some in Hkey.
  destruct (negb (fst (validate_key_format prov api_key cfg))).
  { rewrite results_set_run. eexists _, w.
    repeat split; try done; apply grows_within_refl. }
  unfold bind at 1, on_world at 1. cbn [fst snd].
  destruct (validate_key_online_frame env prov api_key cfg w)
    as ([v|e] & w1 & -> & Hs & Hm & Ht & _).
  2:{ rewrite results_set_run. eexists _, w1.
      split; [reflexivity|]. split; [done|].
      split; [intros q _; by rewrite Hm | by apply grows_within_same]. }
  unfold bind at 1. rewrite results_set_run.
  unfold bind at 1, on_world at 1. cbn [fst snd]. rewrite get_metadata_run.
  unfold bind at 1, on_world at 1, now. cbn [fst snd].
  generalize (match keyring_fault env GetMeta prov with
              | Some _ => JDict []
              | None => default (JDict []) (metas w1 !! prov)
              end) as metadata.
  intros metadata.
  destruct metadata as [| | | | |record];
    try (unfold bind at 1, py_setitem at 1, raise; rewrite results_set_run;
         rewrite dict_set_set; eexists _, (tick w1);
         split; [reflexivity|]; simpl; split; [done|];
         split; [intros q _; by rewrite Hm | by apply grows_within_same]).
  unfold bind at 1, py_setitem at 1, ret at 1.
  unfold bind at 1, py_setitem at 1, ret at 1.
  unfold bind at 1, on_world at 1. cbn [fst snd].
  rewrite update_metadata_run.
  destruct (keyring_fault env SetMeta prov).
  - eexists _, (tick w1). split; [reflexivity|]. simpl. split; [done|].
    split; [intros q _; by rewrite Hm | by apply grows_within_same].
  - eexists _, _. split; [reflexivity|]. simpl. split; [done|]. split.
    + intros q Hq. rewrite lookup_insert_ne by done. by rewrite Hm.
    + by apply (grows_within_insert w (tick w1)).
Qed.

Lemma dict_set_keys_new {V} (k : string) (v : V) d :
  k ∉ map fst d -> map fst (dict_set k v d) = (map fst d ++ [k])%list.
Proof.
  induction d as [|[k' v'] d IH]; simpl; [done|].
  intros Hnot. apply not_elem_of_cons in Hnot as [Hne Hnot].
  destruct (String.eqb k k') eqn:E; [by apply String.eqb_eq in E|].
  simpl. by rewrite IH.
Qed.

Lemma validate_keys_loop_effect env cfg (provs : list string) :
  forall results w,
    exists results' w',
      for_each provs (fun prov (_ : unit) => validate_keys_body env cfg prov)
        tt (results, w) = (Ok tt, (results', w'))
      /\ secrets w' = secrets w
      /\ (forall q, q ∉ provs -> metas w' !! q = metas w !! q)
      /\ grows_within w w'
      /\ (NoDup provs ->
          (forall p, p ∈ provs -> p ∉ map fst results) ->
          map fst results' = (map fst results ++ provs)%list).
Proof.
  induction provs as [|p provs IH]; intros results w; cbn [for_each].
  - exists results, w. repeat split; try done.
    + apply grows_within_refl.
    + by rewrite app_nil_r.
  - destruct (validate_keys_body_effect env cfg p results w)
      as (entry & w1 & Hbody & Hs1 & Hm1 & Hg1).
    erewrite bind_Ok; [|exact Hbody].
    destruct (IH (dict_set p entry results) w1)
      as (results' & w' & Hrun & Hs & Hm & Hg & Hkeys).
    exists results', w'. split; [exact Hrun|]. split; [congruence|].
    split; [|split; [by apply (grows_within_trans w w1)|]].
    + intros q Hq. apply not_elem_of_cons in Hq as [Hne Hq].
      rewrite Hm by done. by apply Hm1.
    + intros Hnodup Hfresh. apply NoDup_cons in Hnodup as [Hp Hnodup].
      assert (p ∉ map fst results) as Hpfresh
        by (apply Hfresh; apply list_elem_of_here).
      rewrite Hkeys.
      * rewrite dict_set_keys_new by done. by rewrite <- app_assoc.
      * done.
      * intros q Hq. rewrite dict_set_keys_new by done.
        intros [Hin | ->%list_elem_of_singleton]%elem_of_app.
        -- by apply (Hfresh q); [apply list_elem_of_further|].
        -- done.
Qed.

Lemma default_providers_nodup : NoDup (map fst (providers DEFAULT_CONFIG)).
Proof.
  vm_compute. repeat constructor; intros H;
    repeat (apply elem_of_cons in H as [H|H]; [discriminate|]);
    by apply elem_of_nil in H.
Qed.






(** X12 - a validation run never raises and never touches a credential:
    the secrets are as before, and so is the metadata of every provider
    outside the scope of the run.  There is one result per provider
    processed, in the order of the registry: the named provider, or the
    providers that [list_keys] lists. *)
Theorem validate_keys_touches_only_metadata
    (env : Env) (cfg : Config) (provider : option string)
    (fix_issues : bool) (w : world) :
  exists results w',
    validate_keys env cfg provider fix_issues w = (Ok results, w')
    /\ secrets w' = secrets w
    /\ (forall q, q ∉ scope cfg provider -> metas w' !! q = metas w !! q)
    /\ (NoDup (map fst (providers cfg)) ->
        map fst results
        = match truthy provider with
          | Some p => [p]
          | None => List.filter (has_key env w) (map fst (providers cfg))
          end).
Proof.
  unfold validate_keys, scope.
  destruct (truthy provider) as [p|].
  - erewrite bind_Ok; [|reflexivity].
    destruct (validate_keys_loop_effect env cfg [p] [] w)
      as (results & w' & Hrun & Hs & Hm & _ & Hkeys).
    exists results, w'. unfold with_local. rewrite Hrun.
    repeat split; try done.
    intros _. apply Hkeys.
    + apply NoDup_singleton.
    + intros q _. apply not_elem_of_nil.
  - rewrite bind_Ok with (a := List.filter (has_key env w)
                                  (map fst (providers cfg))) (s' := w).
    2:{ rewrite list_keys_run. reflexivity. }
    destruct (validate_keys_loop_effect env cfg
                (List.filter (has_key env w) (map fst (providers cfg))) [] w)
      as (results & w' & Hrun & Hs & Hm & _ & Hkeys).
    exists results, w'. unfold with_local. rewrite Hrun.
    repeat split; try done.
    + intros q Hq. apply Hm. intros Hin. apply Hq.
      apply list_elem_of_In in Hin. apply List.filter_In in Hin as [Hin _].
      by apply list_elem_of_In.
    + intros Hnodup. apply Hkeys.
      * apply NoDup_ListNoDup, List.NoDup_filter. by apply NoDup_ListNoDup.
      * intros q _. apply not_elem_of_nil.
Qed.

Lemma validate_keys_touches_only_metadata_witness :
  exists results w',
    validate_keys env_up DEFAULT_CONFIG None false
      (world_validated sample_openai_key) = (Ok results, w')
    /\ map fst results = ["openai"]
    /\ secrets w' = secrets (world_validated sample_openai_key).
Proof.
  destruct (validate_keys_touches_only_metadata env_up DEFAULT_CONFIG None
              false (world_validated sample_openai_key))
    as (results & w' & Hrun & Hs & _ & Hkeys).
  exists results, w'. split; [exact Hrun|]. split; [|exact Hs].
  rewrite Hkeys; [reflexivity|].
  vm_compute. repeat constructor; intros H;
    repeat (apply elem_of_cons in H as [H|H]; [discriminate|]);
    by apply elem_of_nil in H.
Defined.

(** X13 - a credential that is not there is a result, not an exception.
    For a named provider without a stored secret (or with an empty one)
    [validate_keys] returns the single result "Key not found"; when the
    keyring fails to read the secret it returns the single result
    "Validation error: ..." with the text of the failure; in both cases
    no request is sent and nothing is changed. *)
Theorem validate_keys_missing_key
    (env : Env) (cfg : Config) (prov : string) (fix_issues : bool)
    (w : world) :
  prov <> "" ->
  (keyring_fault env GetSecret prov = None ->
   truthy (secrets w !! prov) = None ->
   validate_keys env cfg (Some prov) fix_issues w
   = (Ok [(prov, failure_entry "Key not found")], w))
  /\ (forall e,
        keyring_fault env GetSecret prov = Some e ->
        validate_keys env cfg (Some prov) fix_issues w
        = (Ok [(prov,
                failure_entry ("Validation error: " ++ exn_text e))], w)).
Proof.
  intros Hprov. split.
  - intros Hget Hnone. apply validate_keys_one; [done|].
    unfold validate_keys_body. apply try_Ok.
    erewrite bind_Ok.
    2:{ unfold on_world, get_secret, keyring_op. cbn [fst snd].
        rewrite Hget. reflexivity. }
    cbv beta. rewrite Hnone. apply results_set_run.
  - intros e Hget. apply validate_keys_one; [done|].
    unfold validate_keys_body. erewrite try_Raise.
    2:{ erewrite bind_Raise; [reflexivity|].
        unfold on_world, get_secret, keyring_op. cbn [fst snd].
        rewrite Hget. reflexivity. }
    apply results_set_run.
Qed.

Lemma validate_keys_missing_key_witness :
  validate_keys env_up DEFAULT_CONFIG (Some "groq") false
    (world_validated sample_openai_key)
  = (Ok [("groq", failure_entry "Key not found")],
     world_validated sample_openai_key)
  /\ validate_keys env_locked DEFAULT_CONFIG (Some "openai") false
       (world_validated sample_openai_key)
     = (Ok [("openai",
             failure_entry "Validation error: keychain is locked")],
        world_validated sample_openai_key).
Proof.
  split.
  - destruct (validate_keys_missing_key env_up DEFAULT_CONFIG "groq" false
                (world_validated sample_openai_key)) as [Hnone _];
      [discriminate|].
    apply Hnone; reflexivity.
  - destruct (validate_keys_missing_key env_locked DEFAULT_CONFIG "openai"
                false (world_validated sample_openai_key)) as [_ Hfault];
      [discriminate|].
    apply (Hfault (Exception "keychain is locked")). reflexivity.
Defined.

(** ** Import *)

Lemma determine_provider_known key_name provider :
  _determine_provider_from_key_name key_name = Some provider ->
  provider ∈ ["openai"; "anthropic"; "gemini"; "perplexity"; "groq"].
Proof.
  unfold _determine_provider_from_key_name.
  repeat match goal with
         | |- context [if ?c then _ else _] => destruct c
         end; intros [= <-]; set_solver.
Qed.

Lemma dict_set_keys_nodup {V} (k : string) (v : V) d :
  NoDup (map fst d) -> NoDup (map fst (dict_set k v d)).
Proof.
  induction d as [|[k' v'] d IH]; simpl.
  - intros _. apply NoDup_singleton.
  - intros [Hk' Hd]%NoDup_cons. destruct (String.eqb k k') eqn:E; simpl.
    + apply String.eqb_eq in E. subst k'. by apply NoDup_cons.
    + apply String.eqb_neq in E. apply NoDup_cons. split; [|by apply IH].
      intros Hin. apply Hk'.
      clear -Hin E. induction d as [|[k0 v0] d IH]; simpl in *.
      * apply list_elem_of_singleton in Hin. congruence.
      * destruct (String.eqb k k0) eqn:E0; simpl in Hin.
        -- apply String.eqb_eq in E0. subst k0.
           apply elem_of_cons in Hin as [-> | Hin]; [done|].
           by apply list_elem_of_further.
        -- apply elem_of_cons in Hin as [-> | Hin];
             [apply list_elem_of_here|].
           apply list_elem_of_further. by apply IH.
Qed.

Lemma dict_set_keys_in {V} (k : string) (v : V) d q :
  q ∈ map fst (dict_set k v d) -> q = k \/ q ∈ map fst d.
Proof.
  induction d as [|[k' v'] d IH]; simpl.
  - intros Hin%list_elem_of_singleton. by left.
  - destruct (String.eqb k k') eqn:E; simpl.
    + intros [-> | Hin]%elem_of_cons; [by left|].
      right. by apply list_elem_of_further.
    + intros [-> | Hin]%elem_of_cons; [right; apply list_elem_of_here|].
      destruct (IH Hin) as [-> | Hin']; [by left|].
      right. by apply list_elem_of_further.
Qed.

(** The dictionary that the first loop of [import_from_env] builds has at
    most one entry per known provider. *)
Lemma api_key_vars_keys env_vars :
  NoDup (map fst (api_key_vars env_vars))
  /\ (forall p, p ∈ map fst (api_key_vars env_vars) ->
        p ∈ ["openai"; "anthropic"; "gemini"; "perplexity"; "groq"]).
Proof.
  unfold api_key_vars.
  assert (forall acc : list (string * string),
            NoDup (map fst acc) ->
            (forall p, p ∈ map fst acc ->
               p ∈ ["openai"; "anthropic"; "gemini"; "perplexity"; "groq"]) ->
            NoDup (map fst (fold_left
              (fun acc kv =>
                 match truthy (snd kv) with
                 | None => acc
                 | Some value =>
                     let key_lower := Str.lower (fst kv) in
                     if existsb
                          (fun provider => Str.contains provider key_lower)
                          ["openai"; "anthropic"; "gemini"; "perplexity";
                           "groq"]
                     then
                       if Str.contains "api_key" key_lower
                          || Str.contains "key" key_lower
                       then
                         match _determine_provider_from_key_name (fst kv) with
                         | Some provider => dict_set provider value acc
                         | None => acc
                         end
                       else acc
                     else acc
                 end) env_vars acc))
            /\ (forall p,
                  p ∈ map fst (fold_left
              (fun acc kv =>
                 match truthy (snd kv) with
                 | None => acc
                 | Some value =>
                     let key_lower := Str.lower (fst kv) in
                     if existsb
                          (fun provider => Str.contains provider key_lower)
                          ["openai"; "anthropic"; "gemini"; "perplexity";
                           "groq"]
                     then
                       if Str.contains "api_key" key_lower
                          || Str.contains "key" key_lower
                       then
                         match _determine_provider_from_key_name (fst kv) with
                         | Some provider => dict_set provider value acc
                         | None => acc
                         end
                       else acc
                     else acc
                 end) env_vars acc) ->
                  p ∈ ["openai"; "anthropic"; "gemini"; "perplexity";
                       "groq"])) as Hfold.
  { induction env_vars as [|kv env_vars IH]; intros acc Hnd Hin; [done|].
    cbn [fold_left]. apply IH.
    - destruct (truthy (snd kv)); [|done]. cbn zeta.
      destruct (existsb _ _); [|done].
      destruct (_ || _); [|done].
      destruct (_determine_provider_from_key_name (fst kv)); [|done].
      by apply dict_set_keys_nodup.
    - destruct (truthy (snd kv)); [|done]. cbn zeta.
      destruct (existsb _ _); [|done].
      destruct (_ || _); [|done].
      destruct (_determine_provider_from_key_name (fst kv)) eqn:E; [|done].
      intros p [-> | Hp]%dict_set_keys_in.
      + by apply (determine_provider_known (fst kv)).
      + by apply Hin. }
  apply Hfold; [apply NoDup_nil_2 | intros p Hp; by apply elem_of_nil in Hp].
Qed.

Section ImportFacts.
Variable env : Env.
Variable cfg : Config.

(** One entry of the import: it never raises, counts at most one, touches
    only the entries of its provider, skips a provider that has a key
    unless forced, and counts an entry only when it has stored it. *)
Lemma import_entry_effect force validate entry count w :
  exists count' w',
    import_entry env cfg force validate entry count w = (Ok count', w')
    /\ (count' = count \/ count' = count + 1)
    /\ (forall q, q <> fst entry ->
          secrets w' !! q = secrets w !! q /\ metas w' !! q = metas w !! q)
    /\ (force = false -> has_key env w (fst entry) = true ->
        w' = w /\ count' = count)
    /\ (count' = count + 1 ->
        secrets w' !! fst entry = Some (snd entry)).
Proof.
  unfold import_entry, try_except. cbn zeta.
  assert (forall w0,
            secrets w0 = secrets w -> metas w0 = metas w ->
            exists count' w',
              (run stored <~ _store_key env (fst entry) (snd entry) ;;
               if stored then ret (count + 1) else ret count) w0
              = (Ok count', w')
              /\ (count' = count \/ count' = count + 1)
              /\ (forall q, q <> fst entry ->
                    secrets w' !! q = secrets w !! q
                    /\ metas w' !! q = metas w !! q)
              /\ (count' = count + 1 ->
                  secrets w' !! fst entry = Some (snd entry))) as Hstore.
  { intros w0 Hs0 Hm0.
    destruct (store_key_effect env (fst entry) (snd entry) w0)
      as (b & w' & Hrun & Hframe & Htrue & _).
    unfold bind. rewrite Hrun. destruct b.
    - exists (count + 1), w'. split; [done|]. split; [by right|]. split.
      + intros q Hq. destruct (Hframe q Hq) as [-> ->]. by rewrite Hs0, Hm0.
      + intros _. by destruct (Htrue eq_refl).
    - exists count, w'. split; [done|]. split; [by left|]. split.
      + intros q Hq. destruct (Hframe q Hq) as [-> ->]. by rewrite Hs0, Hm0.
      + lia. }
  unfold bind at 1.
  assert ((if negb force then _key_exists env (fst entry) else ret false) w
          = (Ok (negb force && has_key env w (fst entry)), w)) as ->.
  { destruct force; [done|]. simpl. by rewrite key_exists_run. }
  destruct (negb force && has_key env w (fst entry)) eqn:Hskip.
  { exists count, w. repeat split; try done; [by left | lia]. }
  assert (force = false -> has_key env w (fst entry) = true -> False)
    as Hno by (intros -> Hk; by rewrite Hk in Hskip).
  unfold bind at 1. destruct validate.
  - destruct (negb (fst (validate_key_format (fst entry) (snd entry) cfg))).
    { exists count, w. unfold ret. repeat split; try done; [by left | lia]. }
    destruct (require_validation cfg).
    + unfold bind at 1.
      destruct (validate_key_online_frame env (fst entry) (snd entry) cfg w)
        as ([v|e] & w1 & -> & Hs & Hm & _).
      2:{ exists count, w1. unfold ret. split; [done|]. split; [by left|].
          split; [intros q _; by rewrite Hs, Hm|].
          split; [intros Hf Hk; by destruct (Hno Hf Hk) | lia]. }
      unfold ret at 1. destruct (fst (fst v)).
      * destruct (Hstore w1 Hs Hm) as (c & w' & -> & H1 & H2 & H3).
        exists c, w'. split; [done|]. split; [done|]. split; [exact H2|].
        split; [intros Hf Hk; by destruct (Hno Hf Hk) | exact H3].
      * exists count, w1. unfold ret. split; [done|]. split; [by left|].
        split; [intros q _; by rewrite Hs, Hm|].
        split; [intros Hf Hk; by destruct (Hno Hf Hk) | lia].
    + unfold ret at 1.
      destruct (Hstore w eq_refl eq_refl) as (c & w' & -> & H1 & H2 & H3).
      exists c, w'. split; [done|]. split; [done|]. split; [exact H2|].
      split; [intros Hf Hk; by destruct (Hno Hf Hk) | exact H3].
  - unfold ret at 1.
    destruct (Hstore w eq_refl eq_refl) as (c & w' & -> & H1 & H2 & H3).
    exists c, w'. split; [done|]. split; [done|]. split; [exact H2|].
    split; [intros Hf Hk; by destruct (Hno Hf Hk) | exact H3].
Qed.

Lemma import_loop_effect force validate (found : list (string * string)) :
  forall count w,
    exists count' w',
      for_each found (import_entry env cfg force validate) count w
      = (Ok count', w')
      /\ count <= count' <= count + List.length found
      /\ (forall q, q ∉ map fst found ->
            secrets w' !! q = secrets w !! q /\ metas w' !! q = metas w !! q)
      /\ (force = false ->
          forall p, has_key env w p = true ->
            secrets w' !! p = secrets w !! p
            /\ metas w' !! p = metas w !! p).
Proof.
  induction found as [|entry found IH]; intros count w; cbn [for_each].
  - exists count, w. repeat split; try done; simpl; lia.
  - destruct (import_entry_effect force validate entry count w)
      as (c1 & w1 & Hrun1 & Hc1 & Hframe1 & Hskip1 & _).
    erewrite bind_Ok; [|exact Hrun1].
    destruct (IH c1 w1) as (c2 & w2 & Hrun2 & Hc2 & Hframe2 & Hkeep2).
    exists c2, w2. split; [exact Hrun2|]. split; [simpl; lia|]. split.
    + intros q Hq. cbn [map] in Hq. apply not_elem_of_cons in Hq as [Hne Hq].
      destruct (Hframe2 q Hq) as [-> ->]. by apply Hframe1.
    + intros Hforce p Hp.
      assert (secrets w1 !! p = secrets w !! p
              /\ metas w1 !! p = metas w !! p) as [Hs1 Hm1].
      { destruct (decide (p = fst entry)) as [->|Hne].
        - by destruct (Hskip1 Hforce Hp) as [-> _].
        - by apply Hframe1. }
      assert (has_key env w1 p = true) as Hp1.
      { revert Hp. unfold has_key. by rewrite Hs1. }
      destruct (Hkeep2 Hforce p Hp1) as [-> ->]. done.
Qed.

End ImportFacts.

(** X14 - [import_from_env] never raises, imports at most one key per
    known provider (so at most five), and touches no provider that is not
    among its candidates.  Without [force] it never replaces a credential
    that the keyring reports as stored: the secret and the metadata of
    such a provider are as before. *)
Theorem import_keeps_existing_keys
    (env : Env) (cfg : Config) (env_vars : list (string * option string))
    (force validate : bool) (w : world) :
  exists n w',
    import_from_env env cfg env_vars force validate w = (Ok n, w')
    /\ n <= List.length (api_key_vars env_vars) <= 5
    /\ (forall q, q ∉ map fst (api_key_vars env_vars) ->
          secrets w' !! q = secrets w !! q /\ metas w' !! q = metas w !! q)
    /\ (force = false ->
        forall p, has_key env w p = true ->
          secrets w' !! p = secrets w !! p /\ metas w' !! p = metas w !! p).
Proof.
  assert (List.length (api_key_vars env_vars) <= 5) as Hfive.
  { destruct (api_key_vars_keys env_vars) as [Hnd Hin].
    rewrite <- (length_map fst).
    change 5 with (List.length ["openai"; "anthropic"; "gemini";
                                "perplexity"; "groq"]).
    apply submseteq_length, NoDup_submseteq; done. }
  destruct (import_loop_effect env cfg force validate
              (api_key_vars env_vars) 0 w)
    as (n & w' & Hrun & Hn & Hframe & Hkeep).
  unfold import_from_env. destruct env_vars as [|kv env_vars].
  { exists 0, w. repeat split; simpl; try done; lia. }
  destruct (api_key_vars (kv :: env_vars)) as [|entry found] eqn:Hfound.
  { exists 0, w. repeat split; simpl; try done; lia. }
  exists n, w'. split; [exact Hrun|]. split; [simpl in *; lia|]. done.
Qed.

Lemma import_keeps_existing_keys_witness :
  exists n w',
    import_from_env env_up DEFAULT_CONFIG
      [("OPENAI_API_KEY", Some sample_openai_key)] false true
      (world_validated other_openai_key) = (Ok n, w')
    /\ secrets w' !! "openai" = Some other_openai_key.
Proof.
  destruct (import_keeps_existing_keys env_up DEFAULT_CONFIG
              [("OPENAI_API_KEY", Some sample_openai_key)] false true
              (world_validated other_openai_key))
    as (n & w' & Hrun & _ & _ & Hkeep).
  exists n, w'. split; [exact Hrun|].
  destruct (Hkeep eq_refl "openai") as [-> _]; reflexivity.
Defined.

(** ** Removal *)

(** X15 - [remove_key] never raises and touches only the entries of its
    provider.  It returns [True] exactly when the provider had a secret
    and the keyring deleted it; the secret is then gone, and so is the
    metadata record unless its deletion failed, which is tolerated.  It
    returns [False] for a provider without a secret, and then changes
    nothing: a second removal of the same provider is such a case. *)
Theorem remove_key_outcomes
    (delete_fault : bool -> string -> option exn) (not_found : exn)
    (provider : string) (w : world) :
  exists b w',
    remove_key delete_fault not_found provider w = (Ok b, w')
    /\ (forall q, q <> provider ->
          secrets w' !! q = secrets w !! q /\ metas w' !! q = metas w !! q)
    /\ (b = true <->
        delete_fault false provider = None
        /\ is_Some (secrets w !! provider))
    /\ (b = true ->
        secrets w' !! provider = None
        /\ (delete_fault true provider = None ->
            metas w' !! provider = None)
        /\ (delete_fault true provider <> None -> metas w' = metas w)
        /\ exists w'',
             remove_key delete_fault not_found provider w' = (Ok false, w''))
    /\ (b = false -> w' = w).
Proof.
  unfold remove_key, try_except, bind, delete_secret, delete_meta.
  destruct (delete_fault false provider) as [e|] eqn:Hs.
  { exists false, w. repeat split; try done. by intros [? _]. }
  destruct (secrets w !! provider) as [k|] eqn:Hk.
  2:{ exists false, w. repeat split; try done. by intros [_ [? ?]]. }
  destruct (delete_fault true provider) as [e|] eqn:Hm; simpl.
  - eexists true, _. split; [reflexivity|]. simpl.
    rewrite !lookup_delete_eq.
    repeat split; try done; try (by rewrite lookup_delete_ne); eauto.
  - destruct (metas w !! provider) as [m|] eqn:Hmeta; simpl.
    + eexists true, _. split; [reflexivity|]. simpl.
      rewrite !lookup_delete_eq.
      repeat split; try done; try (by rewrite lookup_delete_ne); eauto.
    + eexists true, _. split; [reflexivity|]. simpl.
      rewrite !lookup_delete_eq.
      repeat split; try done; try (by rewrite lookup_delete_ne); eauto.
Qed.

Lemma remove_key_outcomes_witness :
  exists w',
    remove_key no_delete_fault (Exception "not found") "openai"
      (world_validated sample_openai_key) = (Ok true, w')
    /\ secrets w' !! "openai" = None
    /\ metas w' !! "openai" = None
    /\ remove_key no_delete_fault (Exception "not found") "openai" w'
       = (Ok false, w').
Proof.
  destruct (remove_key_outcomes no_delete_fault (Exception "not found")
              "openai" (world_validated sample_openai_key))
    as (b & w' & Hrun & _ & Hiff & Htrue & _).
  assert (b = true) as ->.
  { apply Hiff. split; [reflexivity|]. by eexists. }
  destruct (Htrue eq_refl) as (Hs & Hm & _ & w'' & Hagain).
  exists w'. split; [exact Hrun|]. split; [exact Hs|].
  split; [by apply Hm|].
  destruct (remove_key_outcomes no_delete_fault (Exception "not found")
              "openai" w') as (b2 & w2 & Hrun2 & _ & _ & _ & Hfalse).
  rewrite Hagain in Hrun2. injection Hrun2 as <- <-.
  rewrite Hagain. f_equal. by apply Hfalse.
Defined.

(** ** Metadata goes with the credential *)

Lemma consistent_same w w0 :
  secrets w0 = secrets w -> metas w0 = metas w ->
  consistent w -> consistent w0.
Proof. unfold consistent. by intros -> ->. Qed.

Lemma store_key_consistent env provider api_key w r w' :
  reliable env -> consistent w ->
  _store_key env provider api_key w = (r, w') -> consistent w'.
Proof.
  intros Hrel Hc.
  destruct (store_key_effect env provider api_key w)
    as (b & w1 & -> & Hframe & Htrue & Hfalse).
  intros [= <- <-]. destruct b.
  - destruct (Htrue eq_refl) as [Hs Hm]. intros q.
    destruct (decide (q = provider)) as [->|Hne].
    + rewrite Hs, Hm. split; eauto.
    + destruct (Hframe q Hne) as [-> ->]. apply Hc.
  - destruct (Hfalse eq_refl) as [Hm [Hs | (_ & _ & Hbad)]].
    + by apply (consistent_same w).
    + by rewrite Hrel in Hbad.
Qed.

Lemma update_key_consistent env cfg provider api_key validate w r w' :
  reliable env -> consistent w ->
  update_key env cfg provider api_key validate w = (r, w') -> consistent w'.
Proof.
  intros Hrel Hc. unfold update_key, bind at 1.
  destruct validate.
  2:{ by apply store_key_consistent. }
  destruct (negb _).
  { by intros [= <- <-]. }
  destruct (require_validation cfg).
  2:{ by apply store_key_consistent. }
  unfold bind.
  destruct (validate_key_online_frame env provider api_key cfg w)
    as ([v|e] & w1 & -> & Hs & Hm & _).
  all: assert (consistent w1) as Hc1 by by apply (consistent_same w).
  2:{ by intros [= <- <-]. }
  destruct (negb _); simpl.
  - by intros [= <- <-].
  - by apply store_key_consistent.
Qed.

Lemma import_entry_consistent env cfg force validate entry count w r w' :
  reliable env -> consistent w ->
  import_entry env cfg force validate entry count w = (r, w') ->
  consistent w'.
Proof.
  intros Hrel Hc. unfold import_entry, try_except. cbn zeta.
  assert (forall w0 r0 w1,
            consistent w0 ->
            (run stored <~ _store_key env (fst entry) (snd entry) ;;
             if stored then ret (count + 1) else ret count) w0 = (r0, w1) ->
            consistent w1) as Hstore.
  { intros w0 r0 w1 Hc0. unfold bind.
    destruct (_store_key env (fst entry) (snd entry) w0) as [[b|e] w2] eqn:E.
    - apply store_key_consistent in E; [|done..].
      destruct b; by intros [= _ <-].
    - apply store_key_consistent in E; [|done..]. by intros [= _ <-]. }
  unfold bind at 1.
  destruct ((if negb force then _key_exists env (fst entry) else ret false) w)
    as [[present|e] w0] eqn:Hpresent.
  2:{ revert Hpresent. destruct (negb force); [|done].
      by rewrite key_exists_run. }
  assert (w0 = w) as ->.
  { revert Hpresent. destruct (negb force); [|by intros [= _ <-]].
    rewrite key_exists_run. by intros [= _ <-]. }
  destruct present; [by intros [= _ <-]|].
  unfold bind at 1. destruct validate.
  - destruct (negb (fst (validate_key_format (fst entry) (snd entry) cfg))).
    { by intros [= _ <-]. }
    destruct (require_validation cfg).
    + unfold bind at 1.
      destruct (validate_key_online_frame env (fst entry) (snd entry) cfg w)
        as ([v|e] & w1 & -> & Hs & Hm & _).
      all: assert (consistent w1) as Hc1 by by apply (consistent_same w).
      2:{ by intros [= _ <-]. }
      unfold ret at 1. destruct (fst (fst v)).
      * match goal with
        | |- context [bind ?m ?k w1] =>
            destruct (bind m k w1) as [[c|e] w2] eqn:E
        end.
        -- apply Hstore in E; [|done]. by intros [= _ <-].
        -- apply Hstore in E; [|done]. by intros [= _ <-].
      * by intros [= _ <-].
    + unfold ret at 1.
      match goal with
      | |- context [bind ?m ?k w] =>
          destruct (bind m k w) as [[c|e] w2] eqn:E
      end.
      * apply Hstore in E; [|done]. by intros [= _ <-].
      * apply Hstore in E; [|done]. by intros [= _ <-].
  - unfold ret at 1.
    match goal with
      | |- context [bind ?m ?k w] =>
          destruct (bind m k w) as [[c|e] w2] eqn:E
      end.
    + apply Hstore in E; [|done]. by intros [= _ <-].
    + apply Hstore in E; [|done]. by intros [= _ <-].
Qed.

Lemma for_each_invariant {S A B} (P : S -> Prop) (xs : list A)
    (body : A -> B -> M S B) :
  (forall x acc s r s', P s -> body x acc s = (r, s') -> P s') ->
  forall acc s r s', P s -> for_each xs body acc s = (r, s') -> P s'.
Proof.
  intros Hbody. induction xs as [|x xs IH]; intros acc s r s' Hs; simpl.
  - by intros [= _ <-].
  - unfold bind. destruct (body x acc s) as [[acc1|e] s1] eqn:E.
    + apply Hbody in E; [|done]. by apply IH.
    + apply Hbody in E; [|done]. by intros [= _ <-].
Qed.

Lemma restore_loop_grows env (items : list (string * json)) :
  forall count w r w',
    for_each items
      (fun kv count =>
         run present <~ _key_exists env (fst kv) ;;
         if present then
           run updated <~ _update_key_metadata env (fst kv) (snd kv) ;;
           if updated then ret (count + 1)%nat else ret count
         else ret count)
      count w = (r, w') ->
    grows_within w w'.
Proof.
  intros count w r w'.
  apply (for_each_invariant (grows_within w)); [|apply grows_within_refl].
  clear. intros kv count w1 r w2 Hg. unfold bind at 1.
  rewrite key_exists_run.
  destruct (keyring_fault env GetSecret (fst kv)); [by intros [= _ <-]|].
  destruct (secrets w1 !! fst kv) eqn:Hk; [|by intros [= _ <-]].
  unfold bind. rewrite update_metadata_run.
  destruct (keyring_fault env SetMeta (fst kv)); [by intros [= _ <-]|].
  intros [= _ <-]. apply (grows_within_trans w w1); [done|].
  apply grows_within_insert; [done..|]. by rewrite Hk.
Qed.

Lemma restore_metadata_grows env loaded w r w' :
  restore_metadata env loaded w = (r, w') -> grows_within w w'.
Proof.
  pose proof (restore_metadata_run env loaded w) as Hrun.
  cbv zeta in Hrun. rewrite Hrun. clear Hrun.
  destruct loaded as [[| | | | |doc]|e];
    try (intros [= _ <-]; apply grows_within_refl).
  destruct (default (JDict []) (dict_get "keys" doc)) as [| | | | |ks];
    try (intros [= _ <-]; apply grows_within_refl).
  match goal with
  | |- context [for_each ks ?body 0 w] =>
      destruct (for_each ks body 0 w) as [r0 w0] eqn:E
  end.
  intros [= _ <-]. by apply restore_loop_grows in E.
Qed.

Lemma validate_keys_grows env cfg provider fix_issues w r w' :
  validate_keys env cfg provider fix_issues w = (r, w') -> grows_within w w'.
Proof.
  unfold validate_keys, bind.
  assert (forall provs w0 r0 w1,
            with_local []
              (for_each provs
                 (fun prov (_ : unit) => validate_keys_body env cfg prov) tt)
              w0 = (r0, w1) -> grows_within w0 w1) as Hloop.
  { intros provs w0 r0 w1. unfold with_local.
    destruct (validate_keys_loop_effect env cfg provs [] w0)
      as (results & w2 & -> & _ & _ & Hg & _).
    by intros [= _ <-]. }
  destruct (truthy provider) as [p|].
  - apply Hloop.
  - rewrite list_keys_run. apply Hloop.
Qed.

Lemma remove_key_consistent delete_fault not_found provider w r w' :
  (forall meta user, delete_fault meta user = None) ->
  consistent w ->
  remove_key delete_fault not_found provider w = (r, w') -> consistent w'.
Proof.
  intros Hrel Hc.
  unfold remove_key, try_except, bind, delete_secret, delete_meta.
  rewrite !Hrel.
  destruct (secrets w !! provider) as [k|] eqn:Hk; [|by intros [= _ <-]].
  simpl.
  assert (is_Some (metas w !! provider)) as [m Hm] by (apply Hc; eauto).
  rewrite Hm. simpl. intros [= _ <-] q. simpl.
  destruct (decide (q = provider)) as [->|Hne].
  - rewrite !lookup_delete_eq. split; by intros [? ?].
  - rewrite !lookup_delete_ne by done. apply Hc.
Qed.

(** X16 - a metadata record exists exactly for the providers that have a
    credential, and every operation of the key manager keeps it so.  With
    a keyring that never fails, [update_key], [import_from_env],
    [validate_keys], [restore_metadata] and [remove_key] all lead from a
    keyring where metadata and credentials go together to one where they
    still do, whatever the network answers and whatever they return. *)
Theorem metadata_follows_credentials
    (env : Env) (cfg : Config)
    (delete_fault : bool -> string -> option exn) (not_found : exn)
    (w : world) :
  reliable env ->
  (forall meta user, delete_fault meta user = None) ->
  consistent w ->
  (forall provider api_key validate r w',
     update_key env cfg provider api_key validate w = (r, w') ->
     consistent w')
  /\ (forall env_vars force validate r w',
        import_from_env env cfg env_vars force validate w = (r, w') ->
        consistent w')
  /\ (forall provider fix_issues r w',
        validate_keys env cfg provider fix_issues w = (r, w') ->
        consistent w')
  /\ (forall loaded r w',
        restore_metadata env loaded w = (r, w') -> consistent w')
  /\ (forall provider r w',
        remove_key delete_fault not_found provider w = (r, w') ->
        consistent w').
Proof.
  intros Hrel Hdel Hc. split; [|split; [|split; [|split]]].
  - intros provider api_key validate r w'.
    by apply update_key_consistent.
  - intros env_vars force validate r w'. unfold import_from_env.
    destruct env_vars as [|kv env_vars]; [by intros [= _ <-]|].
    destruct (api_key_vars (kv :: env_vars)) as [|entry found];
      [by intros [= _ <-]|].
    apply (for_each_invariant consistent); [|done].
    intros x acc s r0 s' Hs. by apply import_entry_consistent.
  - intros provider fix_issues r w' Hrun.
    apply (grows_within_consistent w); [done|].
    by apply validate_keys_grows in Hrun.
  - intros loaded r w' Hrun.
    apply (grows_within_consistent w); [done|].
    by apply restore_metadata_grows in Hrun.
  - intros provider r w'. by apply remove_key_consistent.
Qed.

Lemma world_validated_consistent key : consistent (world_validated key).
Proof.
  intros p. simpl. destruct (decide (p = "openai")) as [->|Hne].
  - rewrite !lookup_singleton_eq. split; eauto.
  - rewrite !lookup_singleton_ne by done. split; by intros [? ?].
Qed.

Lemma metadata_follows_credentials_witness :
  consistent
    (snd (update_key env_up DEFAULT_CONFIG "groq"
            "gsk_abcdefghijABCDEFGHIJ0123456789abcdefghijABCDEFGHIJ" true
            (world_validated sample_openai_key)))
  /\ consistent
       (snd (remove_key no_delete_fault (Exception "not found") "openai"
               (world_validated sample_openai_key))).
Proof.
  destruct (metadata_follows_credentials env_up DEFAULT_CONFIG
              no_delete_fault (Exception "not found")
              (world_validated sample_openai_key))
    as (Hupdate & _ & _ & _ & Hremove).
  - intros op user. reflexivity.
  - intros meta user. reflexivity.
  - apply world_validated_consistent.
  - split.
    + eapply Hupdate. apply surjective_pairing.
    + eapply Hremove. apply surjective_pairing.
Defined.

(** ** Backup and restore *)

Lemma dict_set_new {V} (k : string) (v : V) d :
  k ∉ map fst d -> dict_set k v d = (d ++ [(k, v)])%list.
Proof.
  induction d as [|[k' v'] d IH]; simpl; [done|].
  intros [Hne Hnot]%not_elem_of_cons.
  destruct (String.eqb k k') eqn:E; [by apply String.eqb_eq in E|].
  by rewrite IH.
Qed.

Section BackupFacts.
Variable env : Env.
Variable cfg : Config.
Variable write_fault : string -> option write_failure.

(** The loop of [backup_metadata] copies the record of each key. *)
Lemma backup_loop (keys : list string) :
  forall (acc : list (string * json)) (d : disk) (w : world),
    NoDup keys ->
    (forall k, k ∈ keys -> k ∉ map fst acc) ->
    for_each keys
      (fun key acc =>
         run metadata <~ on_world (_get_key_metadata env key) ;;
         ret (dict_set key metadata acc))
      acc (d, w)
    = (Ok (acc ++ map (fun k => (k, read_metadata env w k)) keys)%list,
       (d, w)).
Proof.
  induction keys as [|k keys IH]; intros acc d w Hnd Hfresh; cbn [for_each].
  - by rewrite app_nil_r.
  - apply NoDup_cons in Hnd as [Hk Hnd].
    erewrite bind_Ok.
    2:{ erewrite bind_Ok; [reflexivity|].
        unfold on_world. cbn [fst snd]. rewrite get_metadata_run.
        reflexivity. }
    fold (read_metadata env w k).
    rewrite dict_set_new by (apply Hfresh, list_elem_of_here).
    rewrite IH; [|done|].
    + cbn [map]. by rewrite <- app_assoc.
    + intros q Hq. rewrite map_app. cbn [map fst].
      intros [Hin | ->%list_elem_of_singleton]%elem_of_app; [|done].
      by apply (Hfresh q); [apply list_elem_of_further|].
Qed.

(** What [backup_metadata] writes when the file can be written. *)
Lemma backup_metadata_run path d w :
  NoDup (map fst (providers cfg)) ->
  write_fault path = None ->
  backup_metadata env cfg write_fault path (d, w)
  = (Ok true,
     (<[path := Ok (JDict
          [("timestamp", JStr (clock env (ticks w)));
           ("version", JStr "1.0");
           ("keys",
            JDict (map (fun k => (k, read_metadata env w k))
                     (List.filter (has_key env w)
                        (map fst (providers cfg)))))])]> d,
      tick w)).
Proof.
  intros Hnd Hwrite. unfold backup_metadata. apply try_Ok.
  erewrite bind_Ok.
  2:{ unfold on_world. cbn [fst snd]. rewrite list_keys_run. reflexivity. }
  erewrite bind_Ok; [|reflexivity].
  erewrite bind_Ok.
  2:{ apply backup_loop.
      - apply NoDup_ListNoDup, List.NoDup_filter. by apply NoDup_ListNoDup.
      - intros k _. apply not_elem_of_nil. }
  cbn zeta. erewrite bind_Ok.
  2:{ unfold write_json. rewrite Hwrite. reflexivity. }
  reflexivity.
Qed.

(** The loop of [restore_metadata] on a dictionary: the record of every
    provider that can be restored is the one of the backup, the others
    are untouched, and the count is the number of providers restored. *)
Lemma restore_loop_exact (items : list (string * json)) :
  NoDup (map fst items) ->
  forall count w,
    exists w',
      for_each items
        (fun kv count =>
           run present <~ _key_exists env (fst kv) ;;
           if present then
             run updated <~ _update_key_metadata env (fst kv) (snd kv) ;;
             if updated then ret (count + 1)%nat else ret count
           else ret count)
        count w
      = (Ok (count
             + List.length
                 (List.filter (fun kv => restorable env w (fst kv)) items)),
         w')
      /\ secrets w' = secrets w
      /\ (forall p m, (p, m) ∈ items -> restorable env w p = true ->
            metas w' !! p = Some m)
      /\ (forall p, p ∉ map fst items \/ restorable env w p = false ->
            metas w' !! p = metas w !! p).
Proof.
  induction items as [|[k m] items IH]; intros Hnd count w; cbn [for_each].
  - exists w. split; [simpl; by rewrite Nat.add_0_r|].
    repeat split; try done. intros p m' Hin. by apply elem_of_nil in Hin.
  - cbn [map fst] in Hnd. apply NoDup_cons in Hnd as [Hk Hnd].
    cbn [List.filter fst snd].
    assert (forall w1 : world, secrets w1 = secrets w ->
              forall p, restorable env w1 p = restorable env w p) as Hsame.
    { intros w1 Hs p. unfold restorable, has_key. by rewrite Hs. }
    unfold bind at 1, bind at 1. rewrite key_exists_run.
    fold (has_key env w k). unfold restorable at 1.
    destruct (has_key env w k) eqn:Hhas; cbn [andb].
    + unfold bind at 1. rewrite update_metadata_run.
      destruct (keyring_fault env SetMeta k) eqn:Hset.
      * unfold ret at 1. destruct (IH Hnd count w)
          as (w' & Hrun & Hs & Hput & Hkeep).
        exists w'. split; [exact Hrun|]. split; [done|]. split.
        -- intros p m' [[= -> ->] | Hin]%elem_of_cons Hp.
           ++ revert Hp. unfold restorable. by rewrite Hhas, Hset.
           ++ by apply Hput.
        -- intros p [Hp | Hp].
           ++ cbn [map fst] in Hp. apply not_elem_of_cons in Hp as [_ Hp].
              apply Hkeep. by left.
           ++ apply Hkeep. by right.
      * unfold ret at 1.
        set (w1 := set_metas (insert k m) w).
        destruct (IH Hnd (count + 1) w1)
          as (w' & Hrun & Hs & Hput & Hkeep).
        exists w'. split.
        { rewrite Hrun. cbn [List.length]. do 2 f_equal.
          rewrite (List.filter_ext _ (fun kv => restorable env w (fst kv)))
            by (intros kv; by apply Hsame).
          lia. }
        split; [done|]. split.
        -- intros p m' [[= -> ->] | Hin]%elem_of_cons Hp.
           ++ rewrite Hkeep; [|left; done]. unfold w1. simpl.
              by rewrite lookup_insert_eq.
           ++ apply Hput; [done|]. by rewrite Hsame.
        -- intros p Hp.
           assert (p <> k) as Hne.
           { destruct Hp as [Hp | Hp].
             - cbn [map fst] in Hp. by apply not_elem_of_cons in Hp as [? _].
             - intros ->. revert Hp. unfold restorable.
               by rewrite Hhas, Hset. }
           rewrite Hkeep.
           ++ unfold w1. simpl. by rewrite lookup_insert_ne.
           ++ destruct Hp as [Hp | Hp].
              ** cbn [map fst] in Hp.
                 apply not_elem_of_cons in Hp as [_ Hp]. by left.
              ** right. by rewrite Hsame.
    + unfold ret at 1. destruct (IH Hnd count w)
        as (w' & Hrun & Hs & Hput & Hkeep).
      exists w'. split; [exact Hrun|]. split; [done|]. split.
      * intros p m' [[= -> ->] | Hin]%elem_of_cons Hp.
        -- revert Hp. unfold restorable. by rewrite Hhas.
        -- by apply Hput.
      * intros p [Hp | Hp].
        -- cbn [map fst] in Hp. apply not_elem_of_cons in Hp as [_ Hp].
           apply Hkeep. by left.
        -- apply Hkeep. by right.
Qed.

End BackupFacts.

Lemma filter_nonempty {A} (f : A -> bool) (l : list A) :
  0 < List.length (List.filter f l) <-> exists x, x ∈ l /\ f x = true.
Proof.
  induction l as [|a l IH]; simpl.
  - split; [lia | intros (x & Hx & _); by apply elem_of_nil in Hx].
  - destruct (f a) eqn:E; simpl.
    + split; [|lia]. intros _. exists a. split; [apply list_elem_of_here|done].
    + rewrite IH. split.
      * intros (x & Hx & Hf). exists x. split; [|done].
        by apply list_elem_of_further.
      * intros (x & [-> | Hx]%elem_of_cons & Hf); [congruence|eauto].
Qed.

Lemma elem_of_list_filter {A} (f : A -> bool) (l : list A) x :
  x ∈ List.filter f l <-> x ∈ l /\ f x = true.
Proof. rewrite !list_elem_of_In. apply List.filter_In. Qed.

(** X17 - backup and restore round trip.  [backup_metadata] writes the
    metadata of the stored keys and changes nothing in the keyring.
    Restoring that file later, in whatever state the keyring is then,
    gives back to every provider that was backed up and still has a key
    the record it had at the time of the backup, leaves every other
    provider and all the secrets untouched, and returns [True] exactly
    when at least one provider was restored. *)
Theorem backup_then_restore
    (env : Env) (cfg : Config)
    (write_fault : string -> option write_failure)
    (path : string) (d : disk) (w w2 : world) :
  NoDup (map fst (providers cfg)) ->
  write_fault path = None ->
  exists d1,
    backup_metadata env cfg write_fault path (d, w) = (Ok true, (d1, tick w))
    /\ exists b w3,
         restore_metadata_file env path (d1, w2) = (Ok b, (d1, w3))
         /\ secrets w3 = secrets w2
         /\ (forall p,
               p ∈ map fst (providers cfg) ->
               has_key env w p = true ->
               restorable env w2 p = true ->
               metas w3 !! p = Some (read_metadata env w p))
         /\ (forall p,
               p ∉ map fst (providers cfg) \/ has_key env w p = false
               \/ restorable env w2 p = false ->
               metas w3 !! p = metas w2 !! p)
         /\ (b = true <->
             exists p,
               p ∈ map fst (providers cfg)
               /\ has_key env w p = true
               /\ restorable env w2 p = true).
Proof.
  intros Hnd Hwrite. eexists. split.
  { by apply backup_metadata_run. }
  set (keys := List.filter (has_key env w) (map fst (providers cfg))).
  set (items := map (fun k => (k, read_metadata env w k)) keys).
  assert (map fst items = keys) as Hkeys.
  { unfold items. rewrite map_map. simpl. apply map_id. }
  assert (NoDup (map fst items)) as Hnd_items.
  { rewrite Hkeys. apply NoDup_ListNoDup, List.NoDup_filter.
    by apply NoDup_ListNoDup. }
  destruct (restore_loop_exact env items Hnd_items 0 w2)
    as (w3 & Hrun & Hs & Hput & Hkeep).
  eexists _, w3. split.
  { unfold restore_metadata_file, on_world, load_json. cbn [fst snd].
    unfold disk in *. rewrite lookup_insert_eq.
    pose proof (restore_metadata_run env
                  (Ok (JDict [("timestamp", JStr (clock env (ticks w)));
                              ("version", JStr "1.0");
                              ("keys", JDict items)])) w2) as Hrm.
    cbv zeta in Hrm. rewrite Hrm. clear Hrm.
    change (default (JDict [])
              (dict_get "keys"
                 [("timestamp", JStr (clock env (ticks w)));
                  ("version", JStr "1.0"); ("keys", JDict items)]))
      with (JDict items).
    cbv iota. rewrite Hrun. reflexivity. }
  split; [done|]. split; [|split].
  - intros p Hin Hhas Hres. apply Hput; [|done].
    unfold items. apply list_elem_of_fmap. exists p. split; [done|].
    apply elem_of_list_filter. done.
  - intros p Hp. apply Hkeep.
    destruct Hp as [Hp | [Hp | Hp]]; [left | left | by right].
    + rewrite Hkeys. intros [Hin _]%elem_of_list_filter. done.
    + rewrite Hkeys. intros [_ Hhas]%elem_of_list_filter. congruence.
  - rewrite Nat.add_0_l, Nat.ltb_lt, filter_nonempty. split.
    + intros ([k m] & Hin & Hres). exists k.
      assert (k ∈ keys) as Hk.
      { rewrite <- Hkeys. apply list_elem_of_fmap. by exists (k, m). }
      apply elem_of_list_filter in Hk as [Hk Hhas]. done.
    + intros (p & Hin & Hhas & Hres). exists (p, read_metadata env w p).
      split; [|done]. unfold items. apply list_elem_of_fmap.
      exists p. split; [done|]. by apply elem_of_list_filter.
Qed.

Lemma backup_then_restore_witness :
  exists d1 b w3,
    backup_metadata env_up DEFAULT_CONFIG no_write_fault "backup.json"
      (∅, world_validated sample_openai_key)
    = (Ok true, (d1, tick (world_validated sample_openai_key)))
    /\ restore_metadata_file env_up "backup.json" (d1, world_replaced)
       = (Ok b, (d1, w3))
    /\ b = true
    /\ metas w3 !! "openai" = Some (JDict validated_metadata)
    /\ secrets w3 = secrets world_replaced.
Proof.
  destruct (backup_then_restore env_up DEFAULT_CONFIG no_write_fault
              "backup.json" ∅ (world_validated sample_openai_key)
              world_replaced default_providers_nodup eq_refl)
    as (d1 & Hbackup & b & w3 & Hrestore & Hs & Hput & _ & Hb).
  exists d1, b, w3. split; [exact Hbackup|]. split; [exact Hrestore|].
  split; [|split; [|exact Hs]].
  - apply Hb. exists "openai". split; [|split; reflexivity].
    apply list_elem_of_here.
  - rewrite (Hput "openai"); [reflexivity | | reflexivity..].
    apply list_elem_of_here.
Defined.




(** ** File names *)

Lemma length_replace_chars p b s :
  String.length (replace_chars p b s) = String.length s.
Proof. induction s as [|c s IH]; simpl; [done | by rewrite IH]. Qed.

Lemma all_replace_chars p b s :
  p b = false ->
  Str.all (fun c => negb (p c)) (replace_chars p b s) = true.
Proof.
  intros Hb. induction s as [|c s IH]; simpl; [done|].
  rewrite IH, andb_true_r. destruct (p c) eqn:E; by rewrite ?Hb, ?E.
Qed.

Lemma replace_chars_clean p b s :
  Str.all (fun c => negb (p c)) s = true -> replace_chars p b s = s.
Proof.
  induction s as [|c s IH]; simpl; [done|].
  intros [Hc Hs]%andb_true_iff. apply negb_true_iff in Hc.
  by rewrite Hc, IH.
Qed.

Lemma lstrip_outline p q s :
  String.length (lstrip p s) <= String.length s
  /\ (Str.all q s = true -> Str.all q (lstrip p s) = true)
  /\ (forall c, first_char (lstrip p s) = Some c -> p c = false).
Proof.
  induction s as [|c s (IHlen & IHall & IHfirst)]; simpl; [done|].
  destruct (p c) eqn:E.
  - split; [lia|]. split; [|done].
    intros [_ Hs]%andb_true_iff. by apply IHall.
  - simpl. split; [lia|]. split; [done|]. by intros ? [= <-].
Qed.

Lemma rstrip_outline p q s :
  String.length (rstrip p s) <= String.length s
  /\ (Str.all q s = true -> Str.all q (rstrip p s) = true)
  /\ (forall c, last_char (rstrip p s) = Some c -> p c = false)
  /\ (forall c, first_char s = Some c -> p c = false ->
        first_char (rstrip p s) = Some c).
Proof.
  induction s as [|c s (IHlen & IHall & IHlast & IHfirst)]; simpl; [done|].
  destruct (rstrip p s) as [|d t] eqn:E.
  - destruct (p c) eqn:Hc; simpl.
    + split; [lia|]. repeat split; try done. intros ? [= <-]. congruence.
    + split; [lia|]. split.
      * by intros [-> _]%andb_true_iff.
      * split; [by intros ? [= <-]|done].
  - simpl. split; [simpl in IHlen; lia|]. split.
    + intros [-> Hs]%andb_true_iff. simpl. by apply IHall.
    + split; [|done]. intros c'. destruct t; [|apply IHlast].
      apply IHlast.
Qed.

Lemma lstrip_id p s :
  (forall c, first_char s = Some c -> p c = false) -> lstrip p s = s.
Proof.
  destruct s as [|c s]; simpl; [done|].
  intros H. by rewrite (H c eq_refl).
Qed.

Lemma rstrip_id p s :
  (forall c, last_char s = Some c -> p c = false) -> rstrip p s = s.
Proof.
  induction s as [|c s IH]; simpl; [done|]. intros H.
  destruct s as [|d s].
  - simpl. by rewrite (H c eq_refl).
  - rewrite IH; [done|]. intros c' Hc'. by apply H.
Qed.

Lemma take_outline n q s :
  String.length (Str.take n s) <= n
  /\ String.length (Str.take n s) <= String.length s
  /\ (Str.all q s = true -> Str.all q (Str.take n s) = true)
  /\ (forall c, first_char (Str.take n s) = Some c -> first_char s = Some c)
  /\ (String.length s <= n -> Str.take n s = s).
Proof.
  revert s. induction n as [|n IH]; intros [|c s]; simpl;
    try (repeat split; try done; lia).
  destruct (IH s) as (H1 & H2 & H3 & _ & H5).
  split; [lia|]. split; [lia|]. split.
  - intros [-> Hs]%andb_true_iff. by apply H3.
  - split; [done|]. intros Hlen. rewrite H5; [done | lia].
Qed.

(** X19 - [sanitize_filename] returns a name of at most 255 characters,
    never longer than its argument, without any of the characters it
    replaces and without a space or a dot in front.  For a name of at
    most 255 characters the result has no space or dot at the end either,
    and sanitizing it again changes nothing. *)
Theorem sanitize_filename_safe (filename : string) :
  String.length (sanitize_filename filename) <= 255
  /\ String.length (sanitize_filename filename) <= String.length filename
  /\ Str.all (fun c => negb (invalid_filename_char c))
       (sanitize_filename filename) = true
  /\ (forall c, first_char (sanitize_filename filename) = Some c ->
        space_or_dot c = false)
  /\ (String.length filename <= 255 ->
      (forall c, last_char (sanitize_filename filename) = Some c ->
         space_or_dot c = false)
      /\ sanitize_filename (sanitize_filename filename)
         = sanitize_filename filename).
Proof.
  unfold sanitize_filename, strip. cbn zeta.
  set (replaced := replace_chars invalid_filename_char "_" filename).
  set (clean := fun c => negb (invalid_filename_char c)).
  assert (String.length replaced = String.length filename) as Hlen
    by apply length_replace_chars.
  assert (Str.all clean replaced = true) as Hclean
    by (by apply all_replace_chars).
  destruct (lstrip_outline space_or_dot clean replaced)
    as (Hl1 & Hl2 & Hl3).
  destruct (rstrip_outline space_or_dot clean (lstrip space_or_dot replaced))
    as (Hr1 & Hr2 & Hr3 & Hr4).
  set (stripped := rstrip space_or_dot (lstrip space_or_dot replaced)) in *.
  destruct (take_outline 255 clean stripped)
    as (Ht1 & Ht2 & Ht3 & Ht4 & Ht5).
  assert (forall c, first_char stripped = Some c -> space_or_dot c = false)
    as Hfirst.
  { intros c Hc.
    destruct (lstrip space_or_dot replaced) as [|a u] eqn:E.
    - by subst stripped.
    - assert (space_or_dot a = false) as Ha by (by apply Hl3).
      rewrite (Hr4 a eq_refl Ha) in Hc. by injection Hc as <-. }
  split; [done|]. split; [lia|]. split; [by apply Ht3, Hr2, Hl2|].
  split; [intros c Hc; by apply Hfirst, Ht4|].
  intros Hshort.
  assert (Str.take 255 stripped = stripped) as Htake by (apply Ht5; lia).
  rewrite Htake. split; [done|].
  rewrite (replace_chars_clean _ _ stripped) by (by apply Hr2, Hl2).
  rewrite (lstrip_id _ stripped) by done.
  rewrite (rstrip_id _ stripped) by done.
  done.
Qed.

Lemma sanitize_filename_safe_witness :
  sanitize_filename (sanitize_filename "  ..keys:2024?.json. ")
  = sanitize_filename "  ..keys:2024?.json. "
  /\ sanitize_filename "  ..keys:2024?.json. " = "keys_2024_.json".
Proof.
  destruct (sanitize_filename_safe "  ..keys:2024?.json. ")
    as (_ & _ & _ & _ & Hshort).
  destruct Hshort as [_ Hidem]; [simpl; lia|].
  split; [exact Hidem | reflexivity].
Defined.

(** ** The crontab *)

Lemma split_lines_cons (s : string) :
  exists line lines, split_lines s = line :: lines.
Proof.
  induction s as [|c s (line & lines & IH)]; simpl; [by eauto|].
  destruct (Ascii.eqb c Str.newline); [by eauto|].
  rewrite IH. eauto.
Qed.

Lemma split_lines_single_line (s : string) :
  Forall (fun line => single_line line = true) (split_lines s).
Proof.
  induction s as [|c s IH]; simpl; [by repeat constructor|].
  destruct (Ascii.eqb c Str.newline) eqn:E; [by constructor|].
  destruct (split_lines s) as [|line lines].
  - repeat constructor. unfold single_line. simpl. by rewrite E.
  - inversion IH as [|? ? Hline Hlines]; subst. constructor; [|done].
    unfold single_line in *. simpl. by rewrite E, Hline.
Qed.

Lemma split_lines_one (line : string) :
  single_line line = true -> split_lines line = [line].
Proof.
  induction line as [|c s IH]; [done|].
  unfold single_line. simpl. intros [Hc Hs]%andb_true_iff.
  apply negb_true_iff in Hc. rewrite Hc, IH; done.
Qed.

Lemma split_lines_app (line rest : string) :
  single_line line = true ->
  split_lines (line ++ String Str.newline rest) = line :: split_lines rest.
Proof.
  induction line as [|c s IH]; [done|].
  unfold single_line. simpl. intros [Hc Hs]%andb_true_iff.
  apply negb_true_iff in Hc.
  change (String c s ++ String Str.newline rest)
    with (String c (s ++ String Str.newline rest)).
  simpl. rewrite Hc, IH; done.
Qed.

Lemma split_join_lines (line : string) (lines : list string) :
  Forall (fun line => single_line line = true) (line :: lines) ->
  split_lines (join_lines (line :: lines)) = line :: lines.
Proof.
  revert line. induction lines as [|next lines IH]; intros line Hall.
  - inversion Hall; subst. by apply split_lines_one.
  - inversion Hall as [|? ? Hline Hrest]; subst.
    change (join_lines (line :: next :: lines))
      with (line ++ String Str.newline (join_lines (next :: lines))).
    rewrite split_lines_app by done. by rewrite IH.
Qed.

Lemma filter_all {A} (f : A -> bool) (l : list A) :
  Forall (fun x => f x = true) l -> List.filter f l = l.
Proof.
  induction 1 as [|x l Hx _ IH]; simpl; [done|]. by rewrite Hx, IH.
Qed.

Lemma Forall_filter_same {A} (f : A -> bool) (l : list A) :
  Forall (fun x => f x = true) (List.filter f l).
Proof.
  induction l as [|x l IH]; simpl; [done|].
  destruct (f x) eqn:E; [by constructor | done].
Qed.

Lemma Forall_filter_keeps {A} (P : A -> Prop) (f : A -> bool) (l : list A) :
  Forall P l -> Forall P (List.filter f l).
Proof.
  induction 1 as [|x l Hx _ IH]; simpl; [done|].
  destruct (f x); [by constructor | done].
Qed.

Lemma kept_lines_outline (current_cron : string) :
  Forall (fun line => single_line line = true) (kept_lines current_cron)
  /\ Forall (fun line => negb (mentions_tool line) = true)
       (kept_lines current_cron)
  /\ Forall (fun line => negb (blank line) = true) (kept_lines current_cron).
Proof.
  unfold kept_lines. split; [|split].
  - apply Forall_filter_keeps, Forall_filter_keeps, split_lines_single_line.
  - apply Forall_filter_keeps, Forall_filter_same.
  - apply Forall_filter_same.
Qed.

Lemma setup_cron_text_join (current_cron command : string) :
  blank command = false ->
  setup_cron_text current_cron command
  = join_lines (kept_lines current_cron ++ [command]).
Proof.
  intros Hb. unfold setup_cron_text, kept_lines. cbn zeta.
  rewrite List.filter_app. simpl. by rewrite Hb.
Qed.

Lemma split_lines_setup (current_cron command : string) :
  single_line command = true -> blank command = false ->
  split_lines (setup_cron_text current_cron command)
  = (kept_lines current_cron ++ [command])%list.
Proof.
  intros Hs Hb. rewrite setup_cron_text_join by done.
  destruct (kept_lines_outline current_cron) as (Hsingle & _ & _).
  assert (Forall (fun line => single_line line = true)
            (kept_lines current_cron ++ [command])) as Hall
    by (apply Forall_app; split; [done | by repeat constructor]).
  destruct (kept_lines current_cron ++ [command])%list as [|line lines] eqn:E.
  - by destruct (kept_lines current_cron).
  - by apply split_join_lines.
Qed.

Lemma kept_lines_setup (current_cron command : string) :
  single_line command = true -> blank command = false ->
  mentions_tool command = true ->
  kept_lines (setup_cron_text current_cron command)
  = kept_lines current_cron.
Proof.
  intros Hs Hb Hm. unfold kept_lines at 1.
  rewrite split_lines_setup by done.
  destruct (kept_lines_outline current_cron) as (_ & Hnt & Hnb).
  rewrite List.filter_app. simpl. rewrite Hm. simpl.
  rewrite app_nil_r. by rewrite (filter_all _ _ Hnt), (filter_all _ _ Hnb).
Qed.

Lemma contains_app_l (needle s t : string) :
  Str.contains needle s = true -> Str.contains needle (s ++ t) = true.
Proof.
  induction s as [|c s IH].
  - destruct needle; [by destruct t|done].
  - change (Str.contains needle (String c s))
      with (String.prefix needle (String c s) || Str.contains needle s).
    rewrite app_String.
    change (Str.contains needle (String c (s ++ t)))
      with (String.prefix needle (String c (s ++ t))
            || Str.contains needle (s ++ t)).
    intros [Hp | Hc]%orb_true_iff; apply orb_true_iff.
    + left. rewrite <- app_String.
      by apply (startswith_app (String c s) needle t).
    + right. by apply IH.
Qed.

Lemma contains_app_r (needle s t : string) :
  Str.contains needle t = true -> Str.contains needle (s ++ t) = true.
Proof.
  intros Ht. induction s as [|c s IH]; [done|].
  rewrite app_String.
  change (Str.contains needle (String c (s ++ t)))
    with (String.prefix needle (String c (s ++ t))
          || Str.contains needle (s ++ t)).
  rewrite IH. apply orb_true_r.
Qed.

Lemma get_cron_schedule_outline (interval : string) :
  single_line (get_cron_schedule interval) = true
  /\ exists rest, get_cron_schedule interval = String "0" rest.
Proof.
  unfold get_cron_schedule.
  repeat match goal with
  | |- context [String.eqb ?a ?b] => destruct (String.eqb a b)
  end; (split; [reflexivity | eauto]).
Qed.

Lemma cron_command_outline (interval script_path log_file : string) :
  single_line script_path = true -> single_line log_file = true ->
  single_line (cron_command interval script_path log_file) = true
  /\ blank (cron_command interval script_path log_file) = false
  /\ (mentions_tool script_path = true ->
      mentions_tool (cron_command interval script_path log_file) = true).
Proof.
  intros Hp Hl. unfold cron_command.
  destruct (get_cron_schedule_outline interval) as (Hs & rest & Hrest).
  split; [|split].
  - unfold single_line in *. rewrite !all_app, Hs, Hp, Hl. reflexivity.
  - rewrite Hrest, app_String. reflexivity.
  - intros Hm. unfold mentions_tool in *.
    apply contains_app_r, contains_app_r, contains_app_l, Hm.
Qed.

(** X20 - the crontab that [setup_cron] installs.  When the path of the
    program and the path of the log hold no line feed, the lines of the
    text handed to [crontab -] are the lines of the old crontab that
    neither mention [ai-key-manager] nor are blank, in their order,
    followed by the one line of the new job. *)
Theorem setup_cron_installs_one_job
    (current_cron interval script_path log_file : string) :
  single_line script_path = true ->
  single_line log_file = true ->
  split_lines
    (setup_cron_text current_cron
       (cron_command interval script_path log_file))
  = (kept_lines current_cron
     ++ [cron_command interval script_path log_file])%list.
Proof.
  intros Hp Hl.
  destruct (cron_command_outline interval script_path log_file Hp Hl)
    as (Hs & Hb & _).
  by apply split_lines_setup.
Qed.

Lemma setup_cron_installs_one_job_witness :
  split_lines
    (setup_cron_text
       ("MAILTO=me" ++ String Str.newline
          ("0 2 * * * /opt/ai-key-manager validate" ++ String Str.newline
             (String Str.newline "5 5 * * * backup")))
       (cron_command "hourly" "/opt/ai-key-manager" "/var/log/cron.log"))
  = ["MAILTO=me"; "5 5 * * * backup";
     "0 * * * * /opt/ai-key-manager validate >> /var/log/cron.log 2>&1"].
Proof.
  rewrite (setup_cron_installs_one_job _ "hourly" "/opt/ai-key-manager"
             "/var/log/cron.log"); [reflexivity | reflexivity | reflexivity].
Defined.

(** X21 - [setup_cron] replaces its job and [disable_cron] takes it out.
    When the path of the program mentions [ai-key-manager] (the source
    builds it as [.../ai-key-manager]) and neither path holds a line feed:
    running [setup_cron] on the crontab that an earlier [setup_cron]
    installed, with any interval, gives the crontab that the later run
    alone would have given, and [disable_cron] on the installed crontab
    gives the text that it gives on the crontab from before. *)
Theorem setup_cron_replaces_job
    (current_cron interval interval' script_path log_file : string) :
  single_line script_path = true ->
  single_line log_file = true ->
  mentions_tool script_path = true ->
  let installed :=
    setup_cron_text current_cron
      (cron_command interval script_path log_file) in
  setup_cron_text installed (cron_command interval' script_path log_file)
  = setup_cron_text current_cron
      (cron_command interval' script_path log_file)
  /\ disable_cron_text installed = disable_cron_text current_cron.
Proof.
  intros Hp Hl Hm installed.
  destruct (cron_command_outline interval script_path log_file Hp Hl)
    as (Hs & Hb & Hmt).
  destruct (cron_command_outline interval' script_path log_file Hp Hl)
    as (_ & Hb' & _).
  assert (kept_lines installed = kept_lines current_cron) as Hkept
    by (apply kept_lines_setup; auto).
  split.
  - by rewrite !setup_cron_text_join, Hkept by done.
  - unfold disable_cron_text. cbn zeta.
    fold (kept_lines installed). fold (kept_lines current_cron).
    by rewrite Hkept.
Qed.

Lemma setup_cron_replaces_job_witness :
  setup_cron_text
    (setup_cron_text "MAILTO=me"
       (cron_command "daily" "/opt/ai-key-manager" "/var/log/cron.log"))
    (cron_command "hourly" "/opt/ai-key-manager" "/var/log/cron.log")
  = setup_cron_text "MAILTO=me"
      (cron_command "hourly" "/opt/ai-key-manager" "/var/log/cron.log")
  /\ disable_cron_text
       (setup_cron_text "MAILTO=me"
          (cron_command "daily" "/opt/ai-key-manager" "/var/log/cron.log"))
     = "MAILTO=me".
Proof.
  destruct (setup_cron_replaces_job "MAILTO=me" "daily" "hourly"
              "/opt/ai-key-manager" "/var/log/cron.log")
    as [Hsetup Hdisable]; [reflexivity | reflexivity | reflexivity |].
  split; [exact Hsetup | rewrite Hdisable; reflexivity].
Defined.

(** X22 - the crontab that [disable_cron] leaves.  No line of the text
    mentions [ai-key-manager]; the text is empty, so that the crontab is
    removed, exactly when the old crontab has no line of others; otherwise
    its lines are those lines of others, in their order. *)
Theorem disable_cron_leaves_others (current_cron : string) :
  Forall (fun line => mentions_tool line = false)
    (split_lines (disable_cron_text current_cron))
  /\ (disable_cron_text current_cron = EmptyString
      <-> kept_lines current_cron = [])
  /\ (kept_lines current_cron <> [] ->
      split_lines (disable_cron_text current_cron)
      = kept_lines current_cron).
Proof.
  unfold disable_cron_text. cbn zeta. fold (kept_lines current_cron).
  destruct (kept_lines_outline current_cron) as (Hsingle & Hnt & Hnb).
  destruct (kept_lines current_cron) as [|line lines] eqn:E.
  - split; [by repeat constructor|]. split; [done|]. by intros [].
  - rewrite split_join_lines by done. split.
    + eapply Forall_impl; [exact Hnt|]. intros l Hl.
      by apply negb_true_iff.
    + split; [|done]. split; [|done]. intros Hempty.
      inversion Hnb as [|? ? Hline _]; subst.
      destruct line as [|c line]; [done|].
      destruct lines as [|next lines]; [done|].
      change (join_lines (String c line :: next :: lines))
        with (String c (line ++ String Str.newline
                                  (join_lines (next :: lines)))) in Hempty.
      discriminate Hempty.
Qed.

Lemma disable_cron_leaves_others_witness :
  split_lines
    (disable_cron_text
       ("MAILTO=me" ++ String Str.newline
          ("0 2 * * * /opt/ai-key-manager validate" ++ String Str.newline
             "5 5 * * * backup")))
  = ["MAILTO=me"; "5 5 * * * backup"]
  /\ disable_cron_text "0 2 * * * /opt/ai-key-manager validate"
     = EmptyString.
Proof.
  split.
  - destruct (disable_cron_leaves_others
                ("MAILTO=me" ++ String Str.newline
                   ("0 2 * * * /opt/ai-key-manager validate"
                    ++ String Str.newline "5 5 * * * backup")))
      as (_ & _ & Hlines).
    rewrite Hlines; [reflexivity | discriminate].
  - destruct (disable_cron_leaves_others
                "0 2 * * * /opt/ai-key-manager validate")
      as (_ & Hempty & _).
    apply Hempty. reflexivity.
Defined.
